(** * GomoryMethod: two-phase simplex and Gomory cuts over exact fractions

    A shallow embedding of the Python sources
    [FunctionalApproach/{utils,table_tools,simplex_module,gomory_module}.py]
    and [ObjectOrientedApproach/{simplex_table,simplex_method,gomory_method}.py],
    followed by the properties of the specification checked against them.

    Conventions of the embedding.
    - A Python [Fraction] is a rational in lowest terms with a positive
      denominator: a [Q] kept canonical by [Qred] after every operation.
      The tableau also holds a few Python [int]s (the zeros and the one of a
      freshly added cut, the [-1]s of phase 1).  An [int] exposes
      [numerator]/[denominator] like a [Fraction] of denominator 1, compares
      by value and turns into a [Fraction] in any operation with one, so it
      is embedded as the canonical rational of the same value.
    - A Python list is a [list]; a negative index is written out.
    - A raised exception is the outcome [Raise]; the three [while] loops take
      a fuel argument and give [OutOfFuel] when it is exhausted.
    - [warn] appends to a log of warnings.
    - A [dict] is an association list in insertion order, a key assigned
      twice keeps its position. *)

From Stdlib Require Import String Ascii DecimalString DecimalNat.
From Stdlib Require Import ZArith QArith Qabs Qround Qreduction.
From Stdlib Require Import List Bool Arith Lia.
From Stdlib Require Qcanon.
Import ListNotations.

Local Open Scope nat_scope.
Local Open Scope list_scope.

(** ** Outcomes of a Python call *)

Inductive exn : Type :=
| ValueError (msg : string)
| TypeError
| IndexError
| ZeroDivisionError
| OverflowError.

Inductive result (A : Type) : Type :=
| Ok (a : A)
| Raise (e : exn)
| OutOfFuel.

Arguments Ok {A} a.
Arguments Raise {A} e.
Arguments OutOfFuel {A}.

Definition bind {A B : Type} (m : result A) (f : A -> result B) : result B :=
  match m with
  | Ok a => f a
  | Raise e => Raise e
  | OutOfFuel => OutOfFuel
  end.

Notation "x <- m ;; k" := (bind m (fun x => k))
  (at level 61, m at next level, right associativity).
Notation "' pat <- m ;; k" := (bind m (fun x => match x with pat => k end))
  (at level 61, pat pattern, m at next level, right associativity).

(** [for x in xs: acc = body(acc, x)], stopping at the first exception. *)
Fixpoint for_each {A S : Type} (xs : list A) (body : S -> A -> result S) (s : S)
  : result S :=
  match xs with
  | [] => Ok s
  | x :: xs' => s' <- body s x ;; for_each xs' body s'
  end.

(** [range(a, b)] *)
Definition range (a b : nat) : list nat := seq a (b - a).

(** [enumerate(xs)] *)
Definition enumerate {A : Type} (xs : list A) : list (nat * A) :=
  combine (seq 0 (length xs)) xs.

(** ** Python lists *)

Module PyList.

(** [l[i]] for [i >= 0] *)
Definition getitem {A : Type} (l : list A) (i : nat) : result A :=
  match nth_error l i with
  | Some x => Ok x
  | None => Raise IndexError
  end.

(** [l[-1]] *)
Definition getlast {A : Type} (l : list A) : result A :=
  match l with
  | [] => Raise IndexError
  | _ => getitem l (length l - 1)
  end.

Fixpoint replace {A : Type} (l : list A) (i : nat) (v : A) : list A :=
  match l, i with
  | [], _ => []
  | _ :: t, O => v :: t
  | x :: t, S i' => x :: replace t i' v
  end.

(** [l[i] = v] for [i >= 0] *)
Definition setitem {A : Type} (l : list A) (i : nat) (v : A) : result (list A) :=
  if i <? length l then Ok (replace l i v) else Raise IndexError.

(** [l[-1] = v] *)
Definition setlast {A : Type} (l : list A) (v : A) : result (list A) :=
  match l with
  | [] => Raise IndexError
  | _ => setitem l (length l - 1) v
  end.

(** [l[i]] for an [int] [i] of either sign *)
Definition getitem_int {A : Type} (l : list A) (i : Z) : result A :=
  if (0 <=? i)%Z then getitem l (Z.to_nat i)
  else if (- Z.of_nat (length l) <=? i)%Z
       then getitem l (Z.to_nat (Z.of_nat (length l) + i))
       else Raise IndexError.

(** [l[i] = v] for an [int] [i] of either sign *)
Definition setitem_int {A : Type} (l : list A) (i : Z) (v : A) : result (list A) :=
  if (0 <=? i)%Z then setitem l (Z.to_nat i) v
  else if (- Z.of_nat (length l) <=? i)%Z
       then setitem l (Z.to_nat (Z.of_nat (length l) + i)) v
       else Raise IndexError.

(** [del l[i]] for [i >= 0] *)
Definition delitem {A : Type} (l : list A) (i : nat) : result (list A) :=
  if i <? length l then Ok (firstn i l ++ skipn (S i) l) else Raise IndexError.

(** [l.insert(-1, v)]: before the last element, at the front of an empty list *)
Definition insert_before_last {A : Type} (l : list A) (v : A) : list A :=
  firstn (length l - 1) l ++ v :: skipn (length l - 1) l.

(** [l[:-2]] *)
Definition drop_last2 {A : Type} (l : list A) : list A :=
  firstn (length l - 2) l.

(** [l[1:]] *)
Definition from1 {A : Type} (l : list A) : list A := tl l.

End PyList.

(** ** Python dicts, in insertion order *)

Module PyDict.

Definition dict (V : Type) : Type := list (string * V).

Fixpoint set {V : Type} (d : dict V) (k : string) (v : V) : dict V :=
  match d with
  | [] => [(k, v)]
  | (k', v') :: d' =>
      if String.eqb k' k then (k', v) :: d' else (k', v') :: set d' k v
  end.

Fixpoint get {V : Type} (d : dict V) (k : string) : option V :=
  match d with
  | [] => None
  | (k', v') :: d' => if String.eqb k' k then Some v' else get d' k
  end.

(** [list(d.values())[-1]] together with its key *)
Definition last_item {V : Type} (d : dict V) : result (string * V) :=
  PyList.getlast d.

End PyDict.

(** ** Python strings

    A [string] stands for a Python [str] of code points below 256, one
    [ascii] per code point.  Literals are read as CPython 3.12 and later read
    them, with the limit on the number of digits of a conversion between
    [int] and [str] lifted ([sys.set_int_max_str_digits(0)]): integers are
    unbounded. *)

Module PyStr.

Fixpoint prefixb (p s : string) : bool :=
  match p, s with
  | EmptyString, _ => true
  | String a p', String b s' => Ascii.eqb a b && prefixb p' s'
  | String _ _, EmptyString => false
  end.

(** [sub in s] *)
Fixpoint contains (sub s : string) : bool :=
  prefixb sub s ||
  match s with
  | EmptyString => false
  | String _ s' => contains sub s'
  end.

(** [s.split(c)] for a one-character separator: empty pieces are kept *)
Fixpoint split_char (c : ascii) (s : string) : list string :=
  match s with
  | EmptyString => [EmptyString]
  | String a s' =>
      match split_char c s' with
      | [] => [EmptyString]
      | piece :: rest =>
          if Ascii.eqb a c then EmptyString :: piece :: rest
          else String a piece :: rest
      end
  end.

(** [a.isspace()], which is also the class [\s] of [re]: below 256 these
    are tab to carriage return, the four separators [\x1c] to [\x1f], the
    space, [\x85] and [\xa0] *)
Definition is_space (a : ascii) : bool :=
  let n := nat_of_ascii a in
  (n =? 32) || ((9 <=? n) && (n <=? 13)) || ((28 <=? n) && (n <=? 31))
  || (n =? 133) || (n =? 160).

(** The white space that [int(s)] skips at both ends of [s]: the separators
    [\x1c] to [\x1f] are not part of it *)
Definition is_int_space (a : ascii) : bool :=
  let n := nat_of_ascii a in
  (n =? 32) || ((9 <=? n) && (n <=? 13)) || (n =? 133) || (n =? 160).

Fixpoint lstrip (f : ascii -> bool) (s : string) : string :=
  match s with
  | EmptyString => EmptyString
  | String a s' => if f a then lstrip f s' else s
  end.

Fixpoint rstrip (f : ascii -> bool) (s : string) : string :=
  match s with
  | EmptyString => EmptyString
  | String a s' =>
      match rstrip f s' with
      | EmptyString => if f a then EmptyString else String a EmptyString
      | r => String a r
      end
  end.

Definition strip (f : ascii -> bool) (s : string) : string :=
  lstrip f (rstrip f s).

(** [s.split()]: pieces between runs of white space, none of them empty *)
Fixpoint split_ws_aux (cur : string) (s : string) : list string :=
  match s with
  | EmptyString => match cur with EmptyString => [] | _ => [cur] end
  | String a s' =>
      if is_space a
      then match cur with
           | EmptyString => split_ws_aux EmptyString s'
           | _ => cur :: split_ws_aux EmptyString s'
           end
      else split_ws_aux (cur ++ String a EmptyString)%string s'
  end.

Definition split_ws (s : string) : list string := split_ws_aux EmptyString s.

(** [s[:-1]] *)
Fixpoint drop_last (s : string) : string :=
  match s with
  | EmptyString => EmptyString
  | String a EmptyString => EmptyString
  | String a s' => String a (drop_last s')
  end.

Definition digit_val (a : ascii) : option Z :=
  let n := nat_of_ascii a in
  if (48 <=? n) && (n <=? 57) then Some (Z.of_nat (n - 48)) else None.

(** Groups of decimal digits with single underscores between them,
    [\d+(_\d+)*]: [after_digit] tells whether the character before is a
    digit. *)
Fixpoint digits_val (acc : Z) (after_digit : bool) (s : string) : option Z :=
  match s with
  | EmptyString => if after_digit then Some acc else None
  | String a s' =>
      match digit_val a with
      | Some d => digits_val (10 * acc + d)%Z true s'
      | None =>
          if Ascii.eqb a "_"%char && after_digit
          then digits_val acc false s'
          else None
      end
  end.

(** An optional sign and the digits, with nothing between them. *)
Definition signed_val (s : string) : option Z :=
  match s with
  | EmptyString => None
  | String a s' =>
      if Ascii.eqb a "-"%char then option_map Z.opp (digits_val 0%Z false s')
      else if Ascii.eqb a "+"%char then digits_val 0%Z false s'
      else digits_val 0%Z false s
  end.

(** The value of [int(s)], if [s] is a literal: white space, an optional
    sign, digits, white space. *)
Definition parse_int (s : string) : option Z :=
  signed_val (strip is_int_space s).

(** The value of [Fraction(s + "/1")], if the text is a literal: the
    pattern of [fractions] admits [\s*] at the start and before the slash, an
    optional sign and the digits [\d+(_\d+)*] of the numerator. *)
Definition parse_numerator (s : string) : option Z :=
  signed_val (strip is_space s).

(** [repr(s)] *)
Definition backslash : ascii := ascii_of_nat 92.
Definition single_quote : ascii := ascii_of_nat 39.
Definition double_quote : ascii := ascii_of_nat 34.

Fixpoint has_char (c : ascii) (s : string) : bool :=
  match s with
  | EmptyString => false
  | String a s' => Ascii.eqb a c || has_char c s'
  end.

Definition hex_digit (n : nat) : ascii :=
  nth n (list_ascii_of_string "0123456789abcdef") "0"%char.

Definition printable (n : nat) : bool :=
  ((32 <=? n) && (n <? 127)) || ((161 <=? n) && negb (n =? 173)).

Definition escape (quote a : ascii) : string :=
  let n := nat_of_ascii a in
  if Ascii.eqb a quote || Ascii.eqb a backslash
  then String backslash (String a EmptyString)
  else if n =? 9 then String backslash "t"
  else if n =? 10 then String backslash "n"
  else if n =? 13 then String backslash "r"
  else if printable n then String a EmptyString
  else String backslash
         (String "x" (String (hex_digit (n / 16))
                        (String (hex_digit (n mod 16)) EmptyString))).

Fixpoint escape_all (quote : ascii) (s : string) : string :=
  match s with
  | EmptyString => EmptyString
  | String a s' => (escape quote a ++ escape_all quote s')%string
  end.

Definition repr (s : string) : string :=
  let quote :=
    if has_char single_quote s && negb (has_char double_quote s)
    then double_quote else single_quote in
  String quote (escape_all quote s ++ String quote EmptyString)%string.

(** [str(n)] for [n >= 0] *)
Definition str (n : nat) : string := NilEmpty.string_of_uint (Nat.to_uint n).

End PyStr.

(** ** [fractions.Fraction] *)

Module Frac.

(** [Fraction(n, d)] *)
Definition make (n d : Z) : result Q :=
  match d with
  | Z0 => Raise ZeroDivisionError
  | Zpos p => Ok (Qred (n # p))
  | Zneg p => Ok (Qred ((- n) # p))
  end.

Definition of_int (n : Z) : Q := n # 1.

Definition numerator (a : Q) : Z := Qnum (Qred a).
Definition denominator (a : Q) : Z := Zpos (Qden (Qred a)).

Definition add (a b : Q) : Q := Qred (a + b).
Definition sub (a b : Q) : Q := Qred (a - b).
Definition mul (a b : Q) : Q := Qred (a * b).
Definition neg (a : Q) : Q := Qred (- a).
Definition abs (a : Q) : Q := Qred (Qabs a).

Definition eqb (a b : Q) : bool := Qeq_bool a b.
Definition leb (a b : Q) : bool := Qle_bool a b.
Definition ltb (a b : Q) : bool := negb (Qle_bool b a).

(** [a / b] *)
Definition div (a b : Q) : result Q :=
  if eqb b 0 then Raise ZeroDivisionError else Ok (Qred (a / b)).

(** [Fraction(s + "/1")] for a token [s] *)
Definition of_literal (s : string) : result Q :=
  match PyStr.parse_numerator s with
  | Some n => Ok (of_int n)
  | None =>
      Raise (ValueError ("Invalid literal for Fraction: "
                         ++ PyStr.repr (s ++ "/1"))%string)
  end.

End Frac.

(** [int(s)]; the message shows at most 200 characters of [repr(s)] *)
Definition int_of_string (s : string) : result Z :=
  match PyStr.parse_int s with
  | Some n => Ok n
  | None =>
      Raise (ValueError ("invalid literal for int() with base 10: "
                         ++ substring 0 200 (PyStr.repr s))%string)
  end.

(** [coeff, index = token.split('_')] *)
Definition unpack2 (parts : list string) : result (string * string) :=
  match parts with
  | [a; b] => Ok (a, b)
  | [] | [_] => Raise (ValueError "not enough values to unpack (expected 2, got 1)")
  | _ => Raise (ValueError "too many values to unpack (expected 2)")
  end.

(** A row of the tableau and the tableau. *)
Abbreviation row := (list Q).
Abbreviation table := (list (list Q)).

(** [t[i][j]] *)
Definition cell (t : table) (i j : nat) : result Q :=
  r <- PyList.getitem t i ;; PyList.getitem r j.

(** [t[i][-1]] *)
Definition cell_last (t : table) (i : nat) : result Q :=
  r <- PyList.getitem t i ;; PyList.getlast r.

(** [t[i][j] = v] *)
Definition set_cell (t : table) (i j : nat) (v : Q) : result table :=
  r <- PyList.getitem t i ;;
  r' <- PyList.setitem r j v ;;
  PyList.setitem t i r'.

(** [t[i][j] = v] for an [int] [j] of either sign *)
Definition set_cell_int (t : table) (i : nat) (j : Z) (v : Q) : result table :=
  r <- PyList.getitem t i ;;
  r' <- PyList.setitem_int r j v ;;
  PyList.setitem t i r'.

(** [t[i][-1] = v] *)
Definition set_cell_last (t : table) (i : nat) (v : Q) : result table :=
  r <- PyList.getitem t i ;;
  r' <- PyList.setlast r v ;;
  PyList.setitem t i r'.

(** [t[i][int(index) - 1] = v] with [v] already evaluated: the row is read
    before the index is converted *)
Definition set_cell_at_index (t : table) (i : nat) (index : string) (v : Q)
  : result table :=
  r <- PyList.getitem t i ;;
  k <- int_of_string index ;;
  r' <- PyList.setitem_int r (k - 1)%Z v ;;
  PyList.setitem t i r'.

(** [t[i][int(index) - 1] *= c] *)
Definition scale_cell_at_index (t : table) (i : nat) (index : string) (c : Q)
  : result table :=
  r <- PyList.getitem t i ;;
  k <- int_of_string index ;;
  x <- PyList.getitem_int r (k - 1)%Z ;;
  r' <- PyList.setitem_int r (k - 1)%Z (Frac.mul x c) ;;
  PyList.setitem t i r'.

(** [tokens[j - 1]], where [j - 1 = -1] is the last token *)
Definition token_before (tokens : list string) (j : nat) : result string :=
  match j with
  | O => PyList.getlast tokens
  | S j' => PyList.getitem tokens j'
  end.

(** The state of the filling loops of the table constructors. *)
Record fill_state : Type := mk_fill {
  coeff_matrix : table;
  s_index : nat;
  r_index : nat;
  r_rows : list nat
}.

(** The counting loop at the head of both table constructors. *)
Definition count_aux_vars (constraints : list string) : nat * nat :=
  fold_left
    (fun '(num_s_vars, num_r_vars) expression =>
       if PyStr.contains ">=" expression then (num_s_vars + 1, num_r_vars)
       else if PyStr.contains "<=" expression then (num_s_vars + 1, num_r_vars + 1)
       else if PyStr.contains "=" expression then (num_s_vars, num_r_vars + 1)
       else (num_s_vars, num_r_vars))
    constraints (0, 0).

(** The [if '_' in ... elif ...] chain on the token [constraint[j]] of row [i]. *)
Definition fill_token (i : nat) (constraint : list string) (st : fill_state) (j : nat)
  : result fill_state :=
  tok <- PyList.getitem constraint j ;;
  if PyStr.contains "_" tok then
    '(coeff, index) <- unpack2 (PyStr.split_char "_"%char tok) ;;
    prev <- token_before constraint j ;;
    v <- (if String.eqb prev "-"
          then Frac.of_literal ("-" ++ PyStr.drop_last coeff)%string
          else Frac.of_literal (PyStr.drop_last coeff)) ;;
    m <- set_cell_at_index (coeff_matrix st) i index v ;;
    Ok (mk_fill m (s_index st) (r_index st) (r_rows st))
  else if String.eqb tok "<=" then
    m <- set_cell (coeff_matrix st) i (s_index st) (Frac.of_int 1) ;;
    Ok (mk_fill m (s_index st + 1) (r_index st) (r_rows st))
  else if String.eqb tok ">=" then
    m <- set_cell (coeff_matrix st) i (s_index st) (Frac.of_int (-1)) ;;
    m' <- set_cell m i (r_index st) (Frac.of_int 1) ;;
    Ok (mk_fill m' (s_index st + 1) (r_index st + 1) (r_rows st ++ [i]))
  else if String.eqb tok "=" then
    m <- set_cell (coeff_matrix st) i (r_index st) (Frac.of_int 1) ;;
    Ok (mk_fill m (s_index st) (r_index st + 1) (r_rows st ++ [i]))
  else Ok st.

(** [coeff_matrix[i][-1] = Fraction(constraint[-1] + "/1")] *)
Definition fill_rhs (i : nat) (constraint : list string) (st : fill_state)
  : result fill_state :=
  last_tok <- PyList.getlast constraint ;;
  v <- Frac.of_literal last_tok ;;
  m <- set_cell_last (coeff_matrix st) i v ;;
  Ok (mk_fill m (s_index st) (r_index st) (r_rows st)).

(** [[[Fraction("0/1") for _ in range(cols)] for _ in range(rows)]] *)
Definition zero_matrix (rows cols : nat) : table :=
  repeat (repeat (Frac.of_int 0) cols) rows.

(** ** [float]

    [float(x)] of a [Fraction] (or an [int]) is the binary64 number nearest
    to it, ties to the even significand, and raises [OverflowError] when that
    is beyond the binary64 range.  A finite [float] is embedded as the
    rational it denotes. *)

Module PyFloat.

Local Open Scope Q_scope.

(** Nearest integer to [q >= 0], ties to even. *)
Definition round_half_even (q : Q) : Z :=
  let f := Qfloor q in
  match Qcompare (q - inject_Z f) (1 # 2) with
  | Lt => f
  | Gt => (f + 1)%Z
  | Eq => if Z.even f then f else (f + 1)%Z
  end.

(** [floor(log2 m)] for [m > 0] *)
Definition ilog2 (m : Q) : Z :=
  let e0 := (Z.log2 (Qnum m) - Z.log2 (Zpos (Qden m)))%Z in
  if Qle_bool (2 ^ e0) m then e0 else (e0 - 1)%Z.

(** [float(a)] *)
Definition of_fraction (a : Q) : result Q :=
  if Qeq_bool a 0 then Ok 0
  else
    let m := Qabs a in
    let ulp := Z.max (ilog2 m - 52) (-1074) in
    let v := inject_Z (round_half_even (m / 2 ^ ulp)) * 2 ^ ulp in
    if Qle_bool (2 ^ 1024) v then Raise OverflowError
    else Ok (Qred (if Qle_bool 0 a then v else - v)).

(** [abs(x) % 1] on a finite [float] [x]: exact in binary64 *)
Definition abs_mod1 (x : Q) : Q :=
  Qred (Qabs x - inject_Z (Qfloor (Qabs x))).

End PyFloat.

(** ** FunctionalApproach *)

Module FunctionalApproach.

(** *** utils.py *)

Definition construct_simplex_table (constraints : list string) (num_vars : nat)
  : result (table * list nat * nat * nat) :=
  let '(num_s_vars, num_r_vars) := count_aux_vars constraints in
  let total_vars := num_vars + num_s_vars + num_r_vars in
  let st0 := mk_fill (zero_matrix (length constraints + 1) (total_vars + 1))
                     num_vars (num_vars + num_s_vars) [] in
  st <- for_each (range 1 (length constraints + 1))
          (fun st i =>
             expr <- PyList.getitem constraints (i - 1) ;;
             let constraint := PyStr.split_char " "%char expr in
             for_each (range 0 (length constraint))
               (fun st j =>
                  st' <- fill_token i constraint st j ;;
                  fill_rhs i constraint st')
               st)
          st0 ;;
  Ok (coeff_matrix st, r_rows st, num_s_vars, num_r_vars).

Definition update_objective_function
    (simplex_table : table) (objective_function objective : string) : result table :=
  let objective_function_coeffs := PyStr.split_ws objective_function in
  for_each (range 0 (length objective_function_coeffs))
    (fun simplex_table i =>
       tok <- PyList.getitem objective_function_coeffs i ;;
       if PyStr.contains "_" tok then
         '(coeff, index) <- unpack2 (PyStr.split_char "_"%char tok) ;;
         prev <- token_before objective_function_coeffs i ;;
         c <- int_of_string (PyStr.drop_last coeff) ;;
         let v := if String.eqb prev "-" then Frac.of_int c else Frac.of_int (- c) in
         t1 <- set_cell_at_index simplex_table 0 index v ;;
         if PyStr.contains "max" objective
         then scale_cell_at_index t1 0 index (Frac.of_int (-1))
         else Ok t1
       else Ok simplex_table)
    simplex_table.

Definition var_label (i : nat) : string := ("x_" ++ PyStr.str (i + 1))%string.

Definition create_solution (simplex_table : table) (basic_vars : list nat) (num_vars : nat)
  : result (PyDict.dict Q) :=
  solution <- for_each (enumerate (PyList.from1 basic_vars))
    (fun solution '(i, var) =>
       if var <? num_vars then
         b <- cell_last simplex_table (i + 1) ;;
         Ok (PyDict.set solution (var_label var) b)
       else Ok solution)
    [] ;;
  for_each (range 0 num_vars)
    (fun solution i =>
       if negb (existsb (Nat.eqb i) (PyList.from1 basic_vars))
       then Ok (PyDict.set solution (var_label i) (Frac.of_int 0))
       else Ok solution)
    solution.

Definition get_fraction (numerator denominator : Z) : result Q :=
  Frac.make numerator denominator.

(** *** table_tools.py *)

Definition sum_rows (row1 row2 : row) : result row :=
  for_each (range 0 (length row1))
    (fun row_sum i =>
       a <- PyList.getitem row1 i ;;
       b <- PyList.getitem row2 i ;;
       PyList.setitem row_sum i (Frac.add a b))
    (repeat (Frac.of_int 0) (length row1)).

Definition multiply_const_row (const : Q) (r : row) : row :=
  map (fun i => Frac.mul const i) r.

(** *** simplex_module.py *)

Definition check_condition (simplex_table : table) : result bool :=
  F <- PyList.getitem simplex_table 0 ;;
  let negative_values := filter (fun x => Frac.leb x 0) F in
  Ok (length negative_values =? length F).

Definition find_key_column (simplex_table : table) : result nat :=
  r0 <- PyList.getitem simplex_table 0 ;;
  for_each (range 0 (length r0 - 1))
    (fun key_columns i =>
       a <- cell simplex_table 0 i ;;
       b <- cell simplex_table 0 key_columns ;;
       if Frac.leb (Frac.abs b) (Frac.abs a) then Ok i else Ok key_columns)
    0.

(** [val < min_val], where [None] is [float("inf")] *)
Definition lt_min (val : Q) (min_val : option Q) : bool :=
  match min_val with
  | None => true
  | Some m => Frac.ltb val m
  end.

Definition find_key_row (simplex_table : table) (key_column : nat)
  : result (nat * list string) :=
  '(min_val, key_row) <-
    for_each (range 1 (length simplex_table))
      (fun '(min_val, key_row) i =>
         a <- cell simplex_table i key_column ;;
         if Frac.ltb 0 a then
           b <- cell_last simplex_table i ;;
           a' <- cell simplex_table i key_column ;;
           val <- Frac.div b a' ;;
           if lt_min val min_val then Ok (Some val, i) else Ok (min_val, key_row)
         else Ok (min_val, key_row))
      (None, 0) ;;
  match min_val with
  | None => Raise (ValueError "Unbounded solution")
  | Some m =>
      if Frac.eqb m 0 then Ok (key_row, ["Dengeneracy"%string])
      else Ok (key_row, [])
  end.

Definition normalize_to_pivot (simplex_table : table) (key_row : nat) (pivot : Q)
  : result table :=
  r0 <- PyList.getitem simplex_table 0 ;;
  for_each (range 0 (length r0))
    (fun simplex_table i =>
       x <- cell simplex_table key_row i ;;
       y <- Frac.div x pivot ;;
       set_cell simplex_table key_row i y)
    simplex_table.

Definition make_key_column_zero (simplex_table : table) (key_column key_row : nat)
  : result table :=
  r0 <- PyList.getitem simplex_table 0 ;;
  let num_columns := length r0 in
  for_each (range 0 (length simplex_table))
    (fun simplex_table i =>
       if negb (i =? key_row) then
         factor <- cell simplex_table i key_column ;;
         for_each (range 0 num_columns)
           (fun simplex_table j =>
              x <- cell simplex_table i j ;;
              k <- cell simplex_table key_row j ;;
              set_cell simplex_table i j (Frac.sub x (Frac.mul k factor)))
           simplex_table
       else Ok simplex_table)
    simplex_table.

Definition simplex_step
    (simplex_table : table) (basic_vars : list nat) (key_column key_row : nat)
  : result (table * list nat) :=
  basic_vars <- PyList.setitem basic_vars key_row key_column ;;
  pivot <- cell simplex_table key_row key_column ;;
  simplex_table <- normalize_to_pivot simplex_table key_row pivot ;;
  simplex_table <- make_key_column_zero simplex_table key_column key_row ;;
  Ok (simplex_table, basic_vars).

(** The [while length != non_r_length] loop on one row: a row longer than
    [non_r_length] loses one entry per iteration, a shorter one raises
    [IndexError] in the first, so that [length r + 1] iterations are never
    exceeded; that is the fuel [delete_r_vars] gives it. *)
Fixpoint delete_r_vars_row (fuel : nat) (r : row) (len non_r_length : nat)
  : result row :=
  if negb (len =? non_r_length) then
    match fuel with
    | O => OutOfFuel
    | S fuel' =>
        r' <- PyList.delitem r (non_r_length - 1) ;;
        delete_r_vars_row fuel' r' (len - 1) non_r_length
    end
  else Ok r.

Definition delete_r_vars (simplex_table : table) (num_vars num_s_vars : nat)
  : result table :=
  for_each (range 0 (length simplex_table))
    (fun simplex_table i =>
       let non_r_length := num_vars + num_s_vars + 1 in
       r <- PyList.getitem simplex_table i ;;
       r' <- delete_r_vars_row (S (length r)) r (length r) non_r_length ;;
       PyList.setitem simplex_table i r')
    simplex_table.

(** The body of the [while] loop of [phase1] calls [find_key_column()]
    with no argument, which raises [TypeError] before anything else
    happens: the loop either is not entered or raises. *)
Definition phase1
    (simplex_table : table) (basic_vars : list nat) (r_rows : list nat)
    (num_vars num_s_vars : nat)
  : result (table * list nat * list table) :=
  let simplex_history : list table := [] in
  let r_index := num_vars + num_s_vars in
  r0 <- PyList.getitem simplex_table 0 ;;
  simplex_table <- for_each (range r_index (length r0 - 1))
    (fun simplex_table i => set_cell simplex_table 0 i (Frac.of_int (-1)))
    simplex_table ;;
  '(simplex_table, basic_vars, r_index) <- for_each r_rows
    (fun '(simplex_table, basic_vars, r_index) i =>
       r0 <- PyList.getitem simplex_table 0 ;;
       ri <- PyList.getitem simplex_table i ;;
       s <- sum_rows r0 ri ;;
       simplex_table <- PyList.setitem simplex_table 0 s ;;
       basic_vars <- PyList.setitem basic_vars i r_index ;;
       Ok (simplex_table, basic_vars, r_index + 1))
    (simplex_table, basic_vars, r_index) ;;
  let s_index := num_vars in
  '(basic_vars, s_index) <- for_each (range 1 (length basic_vars))
    (fun '(basic_vars, s_index) i =>
       b <- PyList.getitem basic_vars i ;;
       if b =? 0 then
         basic_vars <- PyList.setitem basic_vars i s_index ;;
         Ok (basic_vars, s_index + 1)
       else Ok (basic_vars, s_index))
    (basic_vars, s_index) ;;
  c <- check_condition simplex_table ;;
  if negb c then Raise TypeError
  else Ok (simplex_table, basic_vars, simplex_history).

(** What the pivot loops thread: the table, the basic variables, the two
    histories, the step counter and the warnings issued so far. *)
Record solver_state : Type := mk_state {
  st_table : table;
  st_basic_vars : list nat;
  st_history : PyDict.dict table;
  st_basic_vars_history : PyDict.dict (list nat);
  st_step : nat;
  st_warnings : list string
}.

Fixpoint simplex_loop (fuel : nat) (st : solver_state) : result solver_state :=
  c <- check_condition (st_table st) ;;
  if negb c then
    match fuel with
    | O => OutOfFuel
    | S fuel' =>
        key_column <- find_key_column (st_table st) ;;
        '(key_row, w) <- find_key_row (st_table st) key_column ;;
        '(simplex_table, basic_vars) <-
          simplex_step (st_table st) (st_basic_vars st) key_column key_row ;;
        let label := ("Simplex-method step " ++ PyStr.str (st_step st))%string in
        simplex_loop fuel'
          (mk_state simplex_table basic_vars
             (PyDict.set (st_history st) label simplex_table)
             (PyDict.set (st_basic_vars_history st) label basic_vars)
             (st_step st + 1)
             (st_warnings st ++ w))
    end
  else Ok st.

(** The [for row, column in enumerate(basic_vars[1:])] loop of
    [simplex_solve], which adds [-simplex_table[0][column]] times
    [simplex_table[row]] to the objective row. *)
Definition renormalize_objective (simplex_table : table) (basic_vars : list nat)
  : result table :=
  for_each (enumerate (PyList.from1 basic_vars))
    (fun simplex_table '(row, column) =>
       c <- cell simplex_table 0 column ;;
       if negb (Frac.eqb c 0) then
         c' <- cell simplex_table 0 column ;;
         let const := Frac.neg c' in
         r <- PyList.getitem simplex_table row ;;
         let result := multiply_const_row const r in
         r0 <- PyList.getitem simplex_table 0 ;;
         s <- sum_rows r0 result ;;
         PyList.setitem simplex_table 0 s
       else Ok simplex_table)
    simplex_table.

(** The four values [simplex_solve] returns, and the warnings issued. *)
Record solve_output : Type := mk_output {
  optimum : Q;
  optimal_plane : PyDict.dict Q;
  out_history : PyDict.dict table;
  out_basic_vars_history : PyDict.dict (list nat);
  out_warnings : list string
}.

Definition simplex_solve
    (fuel : nat) (num_vars : nat) (constraints : list string)
    (objective_function : string * string)
  : result solve_output :=
  '(simplex_table, r_rows, num_s_vars, num_r_vars) <-
    construct_simplex_table constraints num_vars ;;
  let '(objective, objective_function) := objective_function in
  let basic_vars := repeat 0 (length simplex_table) in
  '(simplex_table, basic_vars, _) <-
    phase1 simplex_table basic_vars r_rows num_vars num_s_vars ;;
  let r_index := num_r_vars + num_s_vars in
  _ <- for_each basic_vars
    (fun (_ : unit) i =>
       if r_index <? i then Raise (ValueError "Infeasible solution") else Ok tt)
    tt ;;
  simplex_table <- delete_r_vars simplex_table num_vars num_s_vars ;;
  simplex_table <- update_objective_function simplex_table objective_function objective ;;
  simplex_table <- renormalize_objective simplex_table basic_vars ;;
  let st0 := mk_state simplex_table basic_vars
               [("Initial Simplex-method"%string, simplex_table)]
               [("Initial Simplex-method"%string, basic_vars)]
               1 [] in
  st <- simplex_loop fuel st0 ;;
  optimum <- cell_last (st_table st) 0 ;;
  optimal_plane <- create_solution (st_table st) (st_basic_vars st) num_vars ;;
  Ok (mk_output optimum optimal_plane (st_history st) (st_basic_vars_history st)
        (st_warnings st)).

(** *** gomory_module.py *)

Definition check_integer_condition (simplex_table : table) : result bool :=
  B <- for_each (PyList.from1 simplex_table)
         (fun B x => b <- PyList.getlast x ;; Ok (B ++ [b])) [] ;;
  let integer_values := filter (fun x => (Frac.denominator x =? 1)%Z) B in
  let positive_values := filter (fun x => Frac.leb 0 x) B in
  let condition1 := length positive_values =? length B in
  let condition2 := length integer_values =? length B in
  Ok (condition1 && condition2).

(** [abs(float(simplex_table[i][-1])) % 1] *)
Definition fractional_part (simplex_table : table) (i : nat) : result Q :=
  b <- cell_last simplex_table i ;;
  x <- PyFloat.of_fraction b ;;
  Ok (PyFloat.abs_mod1 x).

Definition find_max_fractional_index (simplex_table : table) : result nat :=
  for_each (range 1 (length simplex_table))
    (fun max_fractional_part_i i =>
       curr_fractional_part <- fractional_part simplex_table i ;;
       max_fractional_part <- fractional_part simplex_table max_fractional_part_i ;;
       if Frac.ltb max_fractional_part curr_fractional_part
       then Ok i else Ok max_fractional_part_i)
    1.

(** [get_fraction(-(coeff.numerator % coeff.denominator), coeff.denominator)] *)
Definition clipping_coeff (coeff : Q) : result Q :=
  get_fraction (- (Frac.numerator coeff mod Frac.denominator coeff))%Z
               (Frac.denominator coeff).

(** The body of [add_clipping] once the source row [index] is known. *)
Definition add_clipping_from
    (index : nat) (simplex_table : table) (basic_vars : list nat)
  : result (table * list nat) :=
  r0 <- PyList.getitem simplex_table 0 ;;
  let simplex_table := simplex_table ++ [repeat (Frac.of_int 0) (length r0)] in
  simplex_table <- for_each (range 0 (length simplex_table))
    (fun t i =>
       r <- PyList.getitem t i ;;
       if i =? length simplex_table - 1
       then PyList.setitem t i (PyList.insert_before_last r (Frac.of_int 1))
       else PyList.setitem t i (PyList.insert_before_last r (Frac.of_int 0)))
    simplex_table ;;
  source <- PyList.getitem simplex_table index ;;
  simplex_table <- for_each (enumerate source)
    (fun t '(j, coeff) =>
       if negb (Frac.eqb coeff 0) then
         v <- clipping_coeff coeff ;;
         set_cell t (length t - 1) j v
       else Ok t)
    simplex_table ;;
  Ok (simplex_table, basic_vars ++ [length simplex_table - 1]).

Definition add_clipping (simplex_table : table) (basic_vars : list nat)
  : result (table * list nat) :=
  index <- find_max_fractional_index simplex_table ;;
  add_clipping_from index simplex_table basic_vars.

Definition get_key_row (simplex_table : table) : result nat :=
  beta <- for_each (PyList.from1 simplex_table)
            (fun beta x =>
               b <- PyList.getlast x ;;
               Ok (beta ++ [if Frac.ltb b 0 then b else Frac.of_int 0])) [] ;;
  key_row <- for_each (range 0 (length beta))
    (fun key_row b =>
       x <- PyList.getitem beta b ;;
       y <- PyList.getitem beta key_row ;;
       if Frac.leb (Frac.abs y) (Frac.abs x) then Ok b else Ok key_row)
    0 ;;
  Ok (key_row + 1).

(** [a <= b] on ratios, where [None] is [float('inf')] *)
Definition le_inf (a b : option Q) : bool :=
  match a, b with
  | _, None => true
  | None, Some _ => false
  | Some x, Some y => Frac.leb x y
  end.

Definition get_key_column (simplex_table : table) (key_row : nat) : result nat :=
  r0 <- PyList.getitem simplex_table 0 ;;
  rk <- PyList.getitem simplex_table key_row ;;
  tetha <- for_each (combine (PyList.drop_last2 r0) (PyList.drop_last2 rk))
             (fun tetha '(x, y) =>
                if Frac.ltb y 0
                then q <- Frac.div x y ;; Ok (tetha ++ [Some q])
                else Ok (tetha ++ [None])) [] ;;
  for_each (range 0 (length tetha))
    (fun key_column t =>
       a <- PyList.getitem tetha t ;;
       b <- PyList.getitem tetha key_column ;;
       if le_inf a b then Ok t else Ok key_column)
    0.

Fixpoint gomory_loop (fuel : nat) (st : solver_state) : result solver_state :=
  c <- check_integer_condition (st_table st) ;;
  if negb c then
    match fuel with
    | O => OutOfFuel
    | S fuel' =>
        '(simplex_table, basic_vars) <- add_clipping (st_table st) (st_basic_vars st) ;;
        key_row <- get_key_row simplex_table ;;
        key_column <- get_key_column simplex_table key_row ;;
        '(simplex_table, basic_vars) <-
          simplex_step simplex_table basic_vars key_column key_row ;;
        let label := ("Gomory method step " ++ PyStr.str (st_step st))%string in
        gomory_loop fuel'
          (mk_state simplex_table basic_vars
             (PyDict.set (st_history st) label simplex_table)
             (PyDict.set (st_basic_vars_history st) label basic_vars)
             (st_step st + 1)
             (st_warnings st))
    end
  else Ok st.

(** [gomory_solve] returns a tuple of two values on one path and of four
    on the other. *)
Inductive gomory_return : Type :=
| Return2 (integer_optimum : Q) (integer_optimal_plane : PyDict.dict Q)
| Return4 (integer_optimum : Q) (integer_optimal_plane : PyDict.dict Q)
          (gomory_history : PyDict.dict table)
          (basic_vars_history : PyDict.dict (list nat)).

(** The working table and basic variables of [gomory_solve] are the very
    objects stored last in the two histories of [simplex_solve]; every
    in-place change of the cut loop is seen through that entry, which is
    therefore written back under its key when the histories are returned. *)
Definition gomory_solve
    (fuel : nat) (num_vars : nat) (constraints : list string)
    (objective_function : string * string)
  : result (gomory_return * list string) :=
  out <- simplex_solve fuel num_vars constraints objective_function ;;
  let simplex_solution := optimal_plane out in
  '(table_key, simplex_table) <- PyDict.last_item (out_history out) ;;
  '(vars_key, basic_vars) <- PyDict.last_item (out_basic_vars_history out) ;;
  let gomory_history := out_history out in
  let basic_vars_history := out_basic_vars_history out in
  c <- check_integer_condition simplex_table ;;
  if c then
    v <- cell_last simplex_table 0 ;;
    Ok (Return2 v simplex_solution, out_warnings out)
  else
    let st0 := mk_state simplex_table basic_vars
                 (PyDict.set gomory_history "Initial Gomory-method" simplex_table)
                 (PyDict.set basic_vars_history "Initial Gomory-method" basic_vars)
                 1 (out_warnings out) in
    st <- gomory_loop fuel st0 ;;
    integer_optimum <- cell_last (st_table st) 0 ;;
    integer_optimal_plane <- create_solution (st_table st) (st_basic_vars st) num_vars ;;
    Ok (Return4 integer_optimum integer_optimal_plane
          (PyDict.set (st_history st) table_key (st_table st))
          (PyDict.set (st_basic_vars_history st) vars_key (st_basic_vars st)),
        st_warnings st).

End FunctionalApproach.

(** ** ObjectOrientedApproach *)

Module ObjectOrientedApproach.

Module F := FunctionalApproach.

(** *** simplex_table.py: class SimplexTable *)

Record SimplexTable : Type := mk_table {
  _coeff_matrix : table;
  _r_rows : list nat;
  _num_s_vars : nat;
  _num_r_vars : nat
}.

(** [self._coeff_matrix[row][col] = Fraction(value_numerator, value_denominator)]
    with the default denominator 1 *)
Definition set_item (m : table) (r : nat) (col : Z) (value_numerator : Z)
  : result table :=
  set_cell_int m r col (Frac.of_int value_numerator).

Definition _update_objective_function
    (m : table) (objective_function objective : string) : result table :=
  let objective_function_coeffs := PyStr.split_ws objective_function in
  for_each (range 0 (length objective_function_coeffs))
    (fun m i =>
       tok <- PyList.getitem objective_function_coeffs i ;;
       if PyStr.contains "_" tok then
         '(coeff, index) <- unpack2 (PyStr.split_char "_"%char tok) ;;
         prev <- token_before objective_function_coeffs i ;;
         k <- int_of_string index ;;
         c <- int_of_string (PyStr.drop_last coeff) ;;
         m1 <- (if String.eqb prev "-"
                then set_item m 0 (k - 1)%Z c
                else set_item m 0 (k - 1)%Z (- c)%Z) ;;
         if PyStr.contains "max" objective
         then scale_cell_at_index m1 0 index (Frac.of_int (-1))
         else Ok m1
       else Ok m)
    m.

(** [SimplexTable.__init__]: the right-hand side is stored once per row,
    after the tokens of the row. *)
Definition SimplexTable_init
    (num_vars : nat) (constraints : list string) (objective objective_function : string)
  : result SimplexTable :=
  let '(num_s_vars, num_r_vars) := count_aux_vars constraints in
  let total_vars := num_vars + num_s_vars + num_r_vars in
  let st0 := mk_fill (zero_matrix (length constraints + 1) (total_vars + 1))
                     num_vars (num_vars + num_s_vars) [] in
  st <- for_each (range 1 (length constraints + 1))
          (fun st i =>
             expr <- PyList.getitem constraints (i - 1) ;;
             let constraint := PyStr.split_char " "%char expr in
             st' <- for_each (range 0 (length constraint))
                      (fun st j => fill_token i constraint st j) st ;;
             fill_rhs i constraint st')
          st0 ;;
  m <- _update_objective_function (coeff_matrix st) objective_function objective ;;
  Ok (mk_table m (r_rows st) num_s_vars num_r_vars).

Definition get_matrix_params (t : SimplexTable) : list nat * nat * nat :=
  (_r_rows t, _num_s_vars t, _num_r_vars t).

Definition add_zero_row (m : table) : result table :=
  r1 <- PyList.getitem m 1 ;;
  let zero_row := repeat (Frac.of_int 0) (length r1) in
  Ok (m ++ [zero_row]).

Definition sum_rows (row_left row_right : row) : result row :=
  for_each (range 0 (length row_left))
    (fun acc i =>
       a <- PyList.getitem row_left i ;;
       b <- PyList.getitem row_right i ;;
       Ok (acc ++ [Frac.add a b]))
    [].

Definition multiply_const_row (m : table) (const : Q) (index : nat) : result row :=
  r <- PyList.getitem m (index + 1) ;;
  Ok (map (fun i => Frac.mul const i) r).

(** *** simplex_method.py: class SimplexMethod, gomory_method.py: class GomoryMethod *)

Record GomoryMethod : Type := mk_obj {
  num_vars : nat;
  simplex_table : SimplexTable;
  basic_vars : list nat;
  simplex_history : PyDict.dict table;
  basic_vars_history : PyDict.dict (list nat);
  clipping_history : list (list Q);
  simplex_vals : Q;
  simplex_solution : PyDict.dict Q;
  warnings : list string
}.

Definition with_state (o : GomoryMethod) (m : table) (bv : list nat) : GomoryMethod :=
  mk_obj (num_vars o)
    (mk_table m (_r_rows (simplex_table o)) (_num_s_vars (simplex_table o))
       (_num_r_vars (simplex_table o)))
    bv (simplex_history o) (basic_vars_history o) (clipping_history o)
    (simplex_vals o) (simplex_solution o) (warnings o).

Definition record_step (o : GomoryMethod) (label : string) (w : list string)
  : GomoryMethod :=
  mk_obj (num_vars o) (simplex_table o) (basic_vars o)
    (PyDict.set (simplex_history o) label (_coeff_matrix (simplex_table o)))
    (PyDict.set (basic_vars_history o) label (basic_vars o))
    (clipping_history o) (simplex_vals o) (simplex_solution o) (warnings o ++ w).

(** The methods below have, with [self.simplex_table] and [self.basic_vars]
    for the arguments, the bodies of the functions of the same name in
    FunctionalApproach. *)
Definition _check_condition := F.check_condition.
Definition _find_key_column := F.find_key_column.
Definition _find_key_row := F.find_key_row.
Definition simplex_step := F.simplex_step.
Definition _delete_r_vars := F.delete_r_vars.
Definition get_solution := F.create_solution.
Definition _check_integer_condition := F.check_integer_condition.
Definition _find_max_fractional_index := F.find_max_fractional_index.
Definition _get_key_row := F.get_key_row.
Definition _get_key_column := F.get_key_column.

(** [SimplexMethod.__init__]; [_phase1] is defined by the class and called
    nowhere, so the basic variables stay the zeros they are created as. *)
Definition SimplexMethod_init
    (num_vars : nat) (constraints : list string) (objective_function : string * string)
  : result GomoryMethod :=
  let '(objective, objective_function) := objective_function in
  t <- SimplexTable_init num_vars constraints objective objective_function ;;
  let '(r_rows, num_s_vars, num_r_vars) := get_matrix_params t in
  let basic_vars := repeat 0 (length (_coeff_matrix t)) in
  let r_index := num_r_vars + num_s_vars in
  _ <- for_each basic_vars
    (fun (_ : unit) i =>
       if r_index <? i then Raise (ValueError "Infeasible solution") else Ok tt)
    tt ;;
  m <- _delete_r_vars (_coeff_matrix t) num_vars num_s_vars ;;
  Ok (mk_obj num_vars (mk_table m r_rows num_s_vars num_r_vars) basic_vars
        [] [] [] (Frac.of_int 0) [] []).

(** The [for row, column in enumerate(self.basic_vars[1:])] loop of [solve]. *)
Definition renormalize_objective (m : table) (basic_vars : list nat) : result table :=
  for_each (enumerate (PyList.from1 basic_vars))
    (fun m '(row, column) =>
       c <- cell m 0 column ;;
       if negb (Frac.eqb c 0) then
         c' <- cell m 0 column ;;
         let const := Frac.neg c' in
         result <- multiply_const_row m const row ;;
         r0 <- PyList.getitem m 0 ;;
         s <- sum_rows r0 result ;;
         PyList.setitem m 0 s
       else Ok m)
    m.

Fixpoint solve_loop (fuel : nat) (step : nat) (o : GomoryMethod) : result GomoryMethod :=
  let m := _coeff_matrix (simplex_table o) in
  c <- _check_condition m ;;
  if negb c then
    match fuel with
    | O => OutOfFuel
    | S fuel' =>
        key_column <- _find_key_column m ;;
        '(key_row, w) <- _find_key_row m key_column ;;
        '(m', bv') <- simplex_step m (basic_vars o) key_column key_row ;;
        solve_loop fuel' (step + 1)
          (record_step (with_state o m' bv')
             ("Simplex-method step " ++ PyStr.str step)%string w)
    end
  else Ok o.

Definition solve (fuel : nat) (o : GomoryMethod)
  : result (Q * PyDict.dict Q * GomoryMethod) :=
  m <- renormalize_objective (_coeff_matrix (simplex_table o)) (basic_vars o) ;;
  let o := record_step (with_state o m (basic_vars o)) "Initial Simplex-method table" [] in
  o <- solve_loop fuel 1 o ;;
  optimum <- cell_last (_coeff_matrix (simplex_table o)) 0 ;;
  optimal_plane <- get_solution (_coeff_matrix (simplex_table o)) (basic_vars o) (num_vars o) ;;
  Ok (optimum, optimal_plane, o).

(** [GomoryMethod.__init__] *)
Definition GomoryMethod_init
    (fuel : nat) (num_vars : nat) (constraints : list string)
    (objective_function : string * string)
  : result GomoryMethod :=
  o <- SimplexMethod_init num_vars constraints objective_function ;;
  '(vals, solution, o) <- solve fuel o ;;
  Ok (mk_obj (ObjectOrientedApproach.num_vars o) (simplex_table o) (basic_vars o)
        (simplex_history o) (basic_vars_history o) []
        vals solution (warnings o)).

Definition _add_clipping (o : GomoryMethod) : result GomoryMethod :=
  let m := _coeff_matrix (simplex_table o) in
  index <- _find_max_fractional_index m ;;
  m <- add_zero_row m ;;
  m <- for_each (range 0 (length m))
    (fun t i =>
       r <- PyList.getitem t i ;;
       if i =? length m - 1
       then PyList.setitem t i (PyList.insert_before_last r (Frac.of_int 1))
       else PyList.setitem t i (PyList.insert_before_last r (Frac.of_int 0)))
    m ;;
  source <- PyList.getitem m index ;;
  '(m, clipping_coeffs) <- for_each (enumerate source)
    (fun '(t, clipping_coeffs) '(j, coeff) =>
       if negb (Frac.eqb coeff 0) then
         v <- Frac.make (- (Frac.numerator coeff mod Frac.denominator coeff))%Z
                        (Frac.denominator coeff) ;;
         t' <- set_cell t (length t - 1) j v ;;
         x <- cell t' (length t' - 1) j ;;
         Ok (t', clipping_coeffs ++ [x])
       else Ok (t, clipping_coeffs))
    (m, []) ;;
  let o' := with_state o m (basic_vars o ++ [length m - 1]) in
  Ok (mk_obj (num_vars o') (simplex_table o') (basic_vars o')
        (simplex_history o') (basic_vars_history o')
        (clipping_history o' ++ [PyList.from1 clipping_coeffs])
        (simplex_vals o') (simplex_solution o') (warnings o')).

Fixpoint integer_loop (fuel : nat) (step : nat) (o : GomoryMethod) : result GomoryMethod :=
  c <- _check_integer_condition (_coeff_matrix (simplex_table o)) ;;
  if negb c then
    match fuel with
    | O => OutOfFuel
    | S fuel' =>
        o <- _add_clipping o ;;
        let m := _coeff_matrix (simplex_table o) in
        key_row <- _get_key_row m ;;
        key_column <- _get_key_column m key_row ;;
        '(m', bv') <- simplex_step m (basic_vars o) key_column key_row ;;
        integer_loop fuel' (step + 1)
          (record_step (with_state o m' bv')
             ("Gomory method step " ++ PyStr.str step)%string [])
    end
  else Ok o.

Definition integer_solve (fuel : nat) (o : GomoryMethod)
  : result (Q * PyDict.dict Q * GomoryMethod) :=
  c <- _check_integer_condition (_coeff_matrix (simplex_table o)) ;;
  if c then
    v <- cell_last (_coeff_matrix (simplex_table o)) 0 ;;
    Ok (v, simplex_solution o, o)
  else
    let o := record_step o "Initial Gomory-method" [] in
    o <- integer_loop fuel 1 o ;;
    integer_optimum <- cell_last (_coeff_matrix (simplex_table o)) 0 ;;
    integer_optimal_plane <-
      get_solution (_coeff_matrix (simplex_table o)) (basic_vars o) (num_vars o) ;;
    Ok (integer_optimum, integer_optimal_plane, o).

End ObjectOrientedApproach.

(** ** FunctionalApproach/main.py

    The script unpacks the result of [gomory_solve] into four names. *)

Module Main.

Module F := FunctionalApproach.

(** [a, b, c, d = gomory_solve(...)] *)
Definition unpack4 (r : F.gomory_return)
  : result (Q * PyDict.dict Q * PyDict.dict table * PyDict.dict (list nat)) :=
  match r with
  | F.Return4 a b c d => Ok (a, b, c, d)
  | F.Return2 _ _ =>
      Raise (ValueError "not enough values to unpack (expected 4, got 2)")
  end.

Definition objective_function : string * string := ("maximize", "8x_1 + 6x_2")%string.
Definition constraints : list string :=
  ["2x_1 + 5x_2 <= 19"; "4x_1 + 1x_2 <= 16"]%string.
Definition num_vars : nat := 2.

(** The [__main__] block up to the printing of the history. *)
Definition main (fuel : nat)
  : result (Q * PyDict.dict Q * PyDict.dict table * PyDict.dict (list nat)) :=
  '(r, _) <- F.gomory_solve fuel num_vars constraints objective_function ;;
  unpack4 r.

End Main.

(** * Vocabulary of the statements *)

Module F := FunctionalApproach.
Module OO := ObjectOrientedApproach.

Local Open Scope Q_scope.

(** ** Tables of known shape *)

(** An entry of the table and the right-hand side of a row, for statements
    about tables whose shape is known. *)
Definition entry (t : table) (i j : nat) : Q := nth j (nth i t []) 0.
Definition rhs (t : table) (i : nat) : Q := last (nth i t []) 0.

(** All rows have the length of row 0; that length is the number of
    columns, the right-hand side included. *)
Definition rectangular (t : table) : Prop :=
  forall i, (i < length t)%nat -> length (nth i t []) = length (nth 0 t []).
Definition columns (t : table) : nat := length (nth 0 t []).

(** Two tables with as many rows, of the same lengths. *)
Definition same_shape (t t' : table) : Prop :=
  length t' = length t /\ forall i, length (nth i t' []) = length (nth i t []).

(** ** The scenario of main.py *)

(** The value a solution gives to a variable. *)
Definition has_value (d : PyDict.dict Q) (k : string) (q : Q) : Prop :=
  exists a, PyDict.get d k = Some a /\ a == q.

(** The scenario of main.py as the specification states it: the relaxation
    optimum [136/5] at [x_1 = 16/5], [x_2 = 11/5], and the integer solution
    [x_1 = 4], [x_2 = 0] of value [32]. *)
Definition relaxation_as_stated : Prop :=
  exists fuel out,
    F.simplex_solve fuel Main.num_vars Main.constraints Main.objective_function = Ok out /\
    F.optimum out == 136 # 5 /\
    has_value (F.optimal_plane out) "x_1" (16 # 5) /\
    has_value (F.optimal_plane out) "x_2" (11 # 5).

Definition integer_solution_as_stated : Prop :=
  exists fuel ret w,
    F.gomory_solve fuel Main.num_vars Main.constraints Main.objective_function
      = Ok (ret, w) /\
    match ret with
    | F.Return2 v plane | F.Return4 v plane _ _ =>
        v == 32 # 1 /\ has_value plane "x_1" (4 # 1) /\ has_value plane "x_2" (0 # 1)
    end.

Definition scenario_as_stated : Prop :=
  relaxation_as_stated /\ integer_solution_as_stated.

(** The first table of phase 2 on the input of main.py. *)
Definition main_table : table :=
  [[8; 6; 0; 0; 0]; [2; 5; 1; 0; 19]; [4; 1; 0; 1; 16]].

(** ** The two implementations *)

(** The input on which the two implementations are compared. *)
Definition c4_constraints : list string := ["1x_1 <= 2"; "1x_1 <= 5"]%string.
Definition c4_objective : string * string := ("max", "1x_1")%string.
Definition c4_table : table := [[1; 0; 0; 0]; [1; 1; 0; 2]; [1; 0; 1; 5]].

(** ** The optimality test *)

(** The optimality test as the specification states it: the entries of the
    objective row other than the right-hand side are at most zero. *)
Definition optimal_without_rhs (t : table) : Prop :=
  Forall (fun x => x <= 0) (removelast (nth 0 t [])).

(** A table on which the two readings of the optimality test differ. *)
Definition c3_table : table := [[0; -1 # 1; 3]; [1; 2; 4]].

(** ** The histories *)

(** The keys [simplex_solve] has used when its step counter is [n]. *)
Definition simplex_label (n : nat) (k : string) : Prop :=
  k = "Initial Simplex-method"%string \/
  exists j, (j < n)%nat /\ k = ("Simplex-method step " ++ PyStr.str j)%string.

(** A history whose last entry is the current value [v]. *)
Definition history_tracks {V : Type} (d : PyDict.dict V) (v : V) (n : nat) : Prop :=
  (exists k, PyDict.last_item d = Ok (k, v)) /\
  Forall (fun kv => simplex_label n (fst kv)) d.

(** ** The minimum-ratio test *)

Definition ratio (t : table) (key_column i : nat) : Q :=
  rhs t i / entry t i key_column.

(** The state of the loop of [find_key_row] before row [k]. *)
Definition key_row_inv (t : table) (key_column : nat) (k : nat) (s : option Q * nat)
  : Prop :=
  match s with
  | (None, _) => forall i, (1 <= i < k)%nat -> ~ 0 < entry t i key_column
  | (Some m, r) =>
      (1 <= r < k)%nat /\ 0 < entry t r key_column /\
      m = Qred (ratio t key_column r) /\
      forall i, (1 <= i < k)%nat -> 0 < entry t i key_column ->
                ratio t key_column r <= ratio t key_column i /\
                ((i < r)%nat -> ratio t key_column r < ratio t key_column i)
  end.

(** ** The key row of the Gomory step *)

(** The entry of [beta] that [get_key_row] computes from a right-hand side,
    and the list [beta] of a table. *)
Definition beta_of (b : Q) : Q := if Frac.ltb b 0 then b else Frac.of_int 0.
Definition beta_list (t : table) : list Q :=
  map (fun x => beta_of (last x 0)) (PyList.from1 t).

(** The state of the second loop of [get_key_row] before index [k]: the
    last index of greatest absolute value so far. *)
Definition last_max_inv (beta : list Q) (k : nat) (key_row : nat) : Prop :=
  (k = 0%nat -> key_row = 0%nat) /\
  ((0 < k)%nat -> (key_row < k)%nat) /\
  forall i, (i < k)%nat ->
            Qabs (nth i beta 0) <= Qabs (nth key_row beta 0) /\
            ((key_row < i)%nat -> Qabs (nth i beta 0) < Qabs (nth key_row beta 0)).

(** The Gomory key row as the specification states it: of most negative
    right-hand side, and the earliest such row. *)
Definition key_row_as_stated (t : table) (r : nat) : Prop :=
  (1 <= r < length t)%nat /\ rhs t r < 0 /\
  (forall i, (1 <= i < length t)%nat -> rhs t r <= rhs t i) /\
  (forall i, (1 <= i < r)%nat -> rhs t r < rhs t i).

(** A table with two rows of the same negative right-hand side. *)
Definition c6_table : table :=
  [[0; 0; -2 # 1; -40 # 1]; [1; 0; 1; -1 # 2]; [0; 1; -3 # 1; -1 # 2]].

(** ** The pivot *)

(** The table before iteration [k] of [normalize_to_pivot]. *)
Definition normalize_inv (t : table) (key_row : nat) (pivot : Q) (k : nat) (tk : table)
  : Prop :=
  same_shape t tk /\
  forall i j,
    entry tk i j =
    if ((i =? key_row) && (j <? k))%nat
    then Qred (entry t key_row j / pivot) else entry t i j.

(** The table before iteration [j0] of the inner loop of
    [make_key_column_zero] on row [i], started on [t0]. *)
Definition eliminate_row_inv (t0 : table) (key_row key_column i : nat) (j0 : nat)
    (tw : table) : Prop :=
  same_shape t0 tw /\
  forall i' j,
    entry tw i' j =
    if ((i' =? i) && (j <? j0))%nat
    then Frac.sub (entry t0 i j) (Frac.mul (entry t0 key_row j) (entry t0 i key_column))
    else entry t0 i' j.

(** The table before iteration [i0] of the outer loop of
    [make_key_column_zero], started on [tn]. *)
Definition eliminate_inv (tn : table) (key_row key_column : nat) (i0 : nat) (tz : table)
  : Prop :=
  same_shape tn tz /\
  forall i j,
    entry tz i j =
    if ((i <? i0) && negb (i =? key_row) && (j <? columns tn))%nat
    then Frac.sub (entry tn i j) (Frac.mul (entry tn key_row j) (entry tn i key_column))
    else entry tn i j.

(** ** The cut *)

(** The coefficient a cut takes from the coefficient [a] of its source row:
    [Fraction(-(a.numerator % a.denominator), a.denominator)]. *)
Definition gomory_coefficient (a : Q) : Q :=
  Qred ((- (Frac.numerator a mod Frac.denominator a))%Z # Qden (Qred a)).

(** What the first loop of [add_clipping] does to row [i] of a table of
    [n] rows. *)
Definition widen (n : nat) (i : nat) (r : row) : row :=
  if (i =? n - 1)%nat
  then PyList.insert_before_last r (Frac.of_int 1)
  else PyList.insert_before_last r (Frac.of_int 0).

(** The table before iteration [k] of the first loop of [add_clipping],
    started on [t1]. *)
Definition widen_inv (t1 : table) (k : nat) (tk : table) : Prop :=
  length tk = length t1 /\
  forall i, nth i tk [] = if (i <? k)%nat then widen (length t1) i (nth i t1 [])
                          else nth i t1 [].

(** The table before iteration [j0] of the second loop of [add_clipping],
    started on [t2] with the source row [index]. *)
Definition cut_inv (t2 : table) (index : nat) (j0 : nat) (tk : table) : Prop :=
  same_shape t2 tk /\
  forall i j,
    entry tk i j =
    if ((i =? length t2 - 1) && (j <? j0))%nat && negb (Frac.eqb (entry t2 index j) 0)
    then gomory_coefficient (entry t2 index j) else entry t2 i j.

(** ** More vocabulary: the remaining functions *)

(** The list [B] of right-hand sides that [check_integer_condition] reads. *)
Definition rhs_list (t : table) : list Q :=
  map (fun x => last x 0) (PyList.from1 t).

(** A fraction whose value is an integer. *)
Definition integral (x : Q) : Prop := exists z : Z, x == inject_Z z.

(** An objective row whose entry of greatest absolute value is negative,
    and a table with that row. *)
Definition mixed_row : row := [3; -5 # 1; 5; 0].
Definition mixed_table : table := [mixed_row; [1; 1; 1; 4]].

(** The entry-wise sum of two rows, over the length of the first. *)
Definition pointwise_sum (row1 row2 : row) : row :=
  map (fun i => Frac.add (nth i row1 0) (nth i row2 0)) (seq 0 (length row1)).

(** The accumulator of [table_tools.sum_rows] before index [k]. *)
Definition sum_rows_inv (row1 row2 : row) (k : nat) (row_sum : row) : Prop :=
  length row_sum = length row1 /\
  forall i, nth i row_sum 0 =
            if (i <? k)%nat then Frac.add (nth i row1 0) (nth i row2 0) else 0.

(** The accumulator of [SimplexTable.sum_rows] before index [k]. *)
Definition sum_rows_acc_inv (row1 row2 : row) (k : nat) (acc : row) : Prop :=
  acc = map (fun i => Frac.add (nth i row1 0) (nth i row2 0)) (seq 0 k).

(** What [delete_r_vars] leaves of a row: its first [non_r_length - 1]
    entries and its last one. *)
Definition keep_non_r (non_r_length : nat) (r : row) : row :=
  firstn (non_r_length - 1) r ++ skipn (length r - 1) r.

(** The table before iteration [k] of [delete_r_vars], started on [t]. *)
Definition delete_inv (t : table) (non_r_length : nat) (k : nat) (tk : table) : Prop :=
  length tk = length t /\
  (forall i, (i < k)%nat -> (i < length t)%nat ->
             (non_r_length <= length (nth i t []))%nat) /\
  forall i, nth i tk [] = if (i <? k)%nat then keep_non_r non_r_length (nth i t [])
                          else nth i t [].

(** ** The key column of the Gomory step *)

(** The order of [<=] on ratios in which [None], for [float('inf')], is the
    greatest element. *)
Definition inf_le (a b : option Q) : Prop :=
  match a, b with
  | _, None => True
  | None, Some _ => False
  | Some x, Some y => x <= y
  end.

(** The entry of [tetha] that [get_key_column] computes from an entry [x]
    of row 0 and the entry [y] of the key row below it. *)
Definition theta_of (xy : Q * Q) : option Q :=
  if Frac.ltb (snd xy) 0 then Some (Qred (fst xy / snd xy)) else None.

(** The state of the second loop of [get_key_column] before index [k]:
    the last index of least ratio so far. *)
Definition last_min_inv (tetha : list (option Q)) (k : nat) (key_column : nat)
  : Prop :=
  (k = 0%nat -> key_column = 0%nat) /\
  ((0 < k)%nat -> (key_column < k)%nat) /\
  forall i, (i < k)%nat ->
            inf_le (nth key_column tetha None) (nth i tetha None) /\
            ((key_column < i)%nat ->
             ~ inf_le (nth i tetha None) (nth key_column tetha None)).

(** A table after a cut was added, on which the key column is read. *)
Definition cut_row0 : row := [0; 0; 2; 3; 0; 10].
Definition cut_row2 : row := [0; 0; - (1 # 2); - (1 # 2); 1; - (1 # 2)].
Definition cut_table : table := [cut_row0; [1; 0; 1; 0; 0; 3]; cut_row2].

(** ** The source row of a cut *)

(** The fractional part that [find_max_fractional_index] compares: that of
    the binary64 value of the right-hand side of row [i]. *)
Definition fractional_value (t : table) (i : nat) : Q :=
  match F.fractional_part t i with
  | Ok x => x
  | _ => 0
  end.

(** The state of the loop of [find_max_fractional_index] before row [k]:
    the first row of greatest fractional part so far. *)
Definition first_max_inv (t : table) (k : nat) (m : nat) : Prop :=
  ((k <= 1)%nat -> m = 1%nat) /\
  ((1 < k)%nat -> (1 <= m < k)%nat) /\
  forall i, (1 <= i < k)%nat ->
            fractional_value t i <= fractional_value t m /\
            ((i < m)%nat -> fractional_value t i < fractional_value t m).

(** A table with two rows of the same greatest fractional part. *)
Definition fraction_table : table :=
  [[0; 0; - (3 # 1)]; [1; 0; 5 # 2]; [0; 1; 7 # 4]; [1; 1; 11 # 4]].

(** ** The solution read off a table *)

(** The keys that the first loop of [create_solution] has written before
    position [k] of [basic_vars[1:]], and the values under them: the
    right-hand side of the row of the last position of each variable. *)
Definition basic_key (bvs : list nat) (num_vars k : nat) (key : string) : Prop :=
  exists i, (i < k)%nat /\ (nth i bvs 0 < num_vars)%nat /\
            key = F.var_label (nth i bvs 0%nat).
Definition basic_values (t : table) (bvs : list nat) (num_vars k : nat)
    (sol : PyDict.dict Q) : Prop :=
  forall i, (i < k)%nat -> (nth i bvs 0 < num_vars)%nat ->
            (forall i', (i < i' < k)%nat -> nth i' bvs 0%nat <> nth i bvs 0%nat) ->
            PyDict.get sol (F.var_label (nth i bvs 0%nat)) = Some (rhs t (i + 1)).
Definition solution_basic_inv (t : table) (bvs : list nat) (num_vars k : nat)
    (sol : PyDict.dict Q) : Prop :=
  NoDup (map fst sol) /\
  (forall key, In key (map fst sol) <-> basic_key bvs num_vars k key) /\
  basic_values t bvs num_vars k sol.

(** The keys that the second loop has written before variable [k], and the
    state of that loop. *)
Definition free_key (bvs : list nat) (k : nat) (key : string) : Prop :=
  exists v, (v < k)%nat /\ ~ In v bvs /\ key = F.var_label v.
Definition solution_free_inv (t : table) (bvs : list nat) (num_vars k : nat)
    (sol : PyDict.dict Q) : Prop :=
  NoDup (map fst sol) /\
  (forall key, In key (map fst sol) <->
               basic_key bvs num_vars (length bvs) key \/ free_key bvs k key) /\
  basic_values t bvs num_vars (length bvs) sol /\
  forall v, (v < k)%nat -> ~ In v bvs ->
            PyDict.get sol (F.var_label v) = Some (Frac.of_int 0).

(** A table and basic variables with a slack variable in the basis. *)
Definition solved_table : table :=
  [[0; 0; 2; 1; 36]; [1; 0; 1; 0; 3]; [0; 0; 1; 1; 2]].

(** ** The plan returned by [gomory_solve] *)

(** The second component of either tuple that [gomory_solve] returns. *)
Definition plan_of (r : F.gomory_return) : PyDict.dict Q :=
  match r with
  | F.Return2 _ plan => plan
  | F.Return4 _ plan _ _ => plan
  end.

(** ** The initial table *)

(** What the filling loops of [construct_simplex_table] keep of the zero
    matrix [m0] they start from, while they fill the rows of [n]
    constraints: its shape and its row 0; and the rows they record. *)
Definition fill_inv (m0 : table) (n : nat) (st : fill_state) : Prop :=
  same_shape m0 (coeff_matrix st) /\
  nth 0 (coeff_matrix st) [] = nth 0 m0 [] /\
  forall r, In r (r_rows st) -> (1 <= r <= n)%nat.

(** A table whose column 0 has no positive entry below row 0. *)
Definition unbounded_table : table := [[1; 0; 0]; [- (1 # 1); 1; 2]; [0; 1; 3]].

(** ** The objective row in the two implementations *)

(** Two outcomes that agree: the same value, or exceptions of the same
    class (the message of a [ValueError] left aside). *)
Definition same_class (e1 e2 : exn) : Prop :=
  match e1, e2 with
  | ValueError _, ValueError _ => True
  | _, _ => e1 = e2
  end.
Definition same_outcome {A : Type} (r1 r2 : result A) : Prop :=
  match r1, r2 with
  | Ok a, Ok b => a = b
  | Raise e1, Raise e2 => same_class e1 e2
  | OutOfFuel, OutOfFuel => True
  | _, _ => False
  end.

(** Two outcomes that return the same value or both raise. *)
Definition same_return {A : Type} (r1 r2 : result A) : Prop :=
  match r1, r2 with
  | Ok a, Ok b => a = b
  | Raise _, Raise _ => True
  | OutOfFuel, OutOfFuel => True
  | _, _ => False
  end.

(** ** The equations of a table *)

(** [f 0 + ... + f (n - 1)] *)
Fixpoint qsum (f : nat -> Q) (n : nat) : Q :=
  match n with
  | O => 0
  | S k => qsum f k + f k
  end.

(** Row [i] of a table read as an equation in the variables of its columns
    but the last: the left-hand side at the point [x], and the equation. *)
Definition lhs (t : table) (i : nat) (x : nat -> Q) : Q :=
  qsum (fun j => entry t i j * x j) (columns t - 1).
Definition satisfies_row (t : table) (i : nat) (x : nat -> Q) : Prop :=
  lhs t i x == rhs t i.

(** ** The cut and the integer points *)

(** The fractional part [a - floor a] of a fraction. *)
Definition fractional (a : Q) : Q := a - inject_Z (Qfloor a).

(** The point [x] with the value [s] for variable [n]. *)
Definition extend (x : nat -> Q) (n : nat) (s : Q) : nat -> Q :=
  fun j => if (j =? n)%nat then s else x j.

(** Entry [j] of row [i] of [t] once a zero is inserted before its last
    entry. *)
Definition widened_entry (t : table) (i j : nat) : Q :=
  if (j <? columns t - 1)%nat then entry t i j
  else if (j =? columns t - 1)%nat then 0 else entry t i (j - 1).

(** The table on which the simplex method ends for the problem of the
    main script, and an integer point of its row 1. *)
Definition relaxed_table : table :=
  [[0; 0; - (8 # 9); - (14 # 9); - (376 # 9)];
   [0; 1; 2 # 9; - (1 # 9); 22 # 9];
   [1; 0; - (1 # 18); 5 # 18; 61 # 18]].
Definition row1_point : nat -> Q :=
  fun j => match j with
           | 1%nat => 2
           | 2%nat => 2
           | _ => 0
           end.

(** ** The infeasibility test of the class *)

(** An outcome other than [ValueError("Infeasible solution")]. *)
Definition not_infeasible {A : Type} (r : result A) : Prop :=
  r <> Raise (ValueError "Infeasible solution").

(** The table [construct_simplex_table] builds for two constraints
    [1x_1 <= 2] and [1x_1 <= 5] on one variable. *)
Definition c4_start_table : table :=
  [[0; 0; 0; 0; 0; 0]; [1; 1; 0; 0; 0; 2]; [1; 0; 1; 0; 0; 5]].

(** ** Literals with white space *)

(** One constraint whose right-hand side is written after a tab, and the
    table [construct_simplex_table] builds for it. *)
Definition padded_constraints : list string :=
  [("1x_1 <= " ++ String (ascii_of_nat 9) "2")%string].
Definition padded_table : table := [[0; 0; 0; 0]; [1; 1; 0; 2]].

(** ** The re-optimization step, as stated *)

(** A stop of the cut loop with no pivot recorded. *)
Definition stops_without_pivot (st : F.solver_state) : Prop :=
  exists fuel st',
    F.gomory_loop fuel st = Ok st' /\ F.st_step st' = F.st_step st.

(** The problem [max x_1 + x_2], [x_1 <= 3], [2 x_2 <= 2^61 + 1], the table
    on which the simplex method ends for it, and the state in which the cut
    loop starts: the right-hand side [2^60 + 1/2] is no integer and its
    binary64 value has no fractional part. *)
Definition half_integer_constraints : list string :=
  ["1x_1 <= 3"; "2x_2 <= 2305843009213693953"]%string.
Definition half_integer_objective : string * string :=
  ("max", "1x_1 + 1x_2")%string.
Definition half_integer_table : table :=
  [[0; 0; - (1 # 1); - (1 # 2); - (2305843009213693959 # 2)];
   [1; 0; 1; 0; 3];
   [0; 1; 0; 1 # 2; 2305843009213693953 # 2]].
Definition half_integer_state : F.solver_state :=
  F.mk_state half_integer_table [0; 0; 1]%nat
    [("Initial Gomory-method"%string, half_integer_table)]
    [("Initial Gomory-method"%string, [0; 0; 1]%nat)] 1 [].

(** The state in which the cut loop starts for the problem of the main
    script. *)
Definition main_cut_state : F.solver_state :=
  F.mk_state relaxed_table [0; 1; 0]%nat
    [("Initial Gomory-method"%string, relaxed_table)]
    [("Initial Gomory-method"%string, [0; 1; 0]%nat)] 1 [].

(** ** The shapes of the result, as stated *)

(** A caller that unpacks four values, as the main script does. *)
Definition unpack_four (fuel num_vars : nat) (constraints : list string)
    (objective_function : string * string)
  : result (Q * PyDict.dict Q * PyDict.dict table * PyDict.dict (list nat)) :=
  '(r, _) <- F.gomory_solve fuel num_vars constraints objective_function ;;
  Main.unpack4 r.

Definition relaxation_integral (num_vars : nat) (constraints : list string)
    (objective_function : string * string) : Prop :=
  exists fuel out key t,
    F.simplex_solve fuel num_vars constraints objective_function = Ok out /\
    PyDict.last_item (F.out_history out) = Ok (key, t) /\
    F.check_integer_condition t = Ok true.

Definition returns_two (num_vars : nat) (constraints : list string)
    (objective_function : string * string) : Prop :=
  exists fuel a b w,
    F.gomory_solve fuel num_vars constraints objective_function
    = Ok (F.Return2 a b, w).

Definition returns_four (num_vars : nat) (constraints : list string)
    (objective_function : string * string) : Prop :=
  exists fuel a b c d w,
    F.gomory_solve fuel num_vars constraints objective_function
    = Ok (F.Return4 a b c d, w).

Definition caller_fails (num_vars : nat) (constraints : list string)
    (objective_function : string * string) : Prop :=
  exists fuel e,
    unpack_four fuel num_vars constraints objective_function = Raise e.

Definition tuple_size_as_stated (num_vars : nat) (constraints : list string)
    (objective_function : string * string) : Prop :=
  (relaxation_integral num_vars constraints objective_function ->
   returns_two num_vars constraints objective_function) /\
  (~ relaxation_integral num_vars constraints objective_function ->
   returns_four num_vars constraints objective_function) /\
  (caller_fails num_vars constraints objective_function <->
   relaxation_integral num_vars constraints objective_function).

(** The problem [min x_1], [x_1 <= -1], [x_1 <= 5], and what
    [simplex_solve] returns for it. *)
Definition negative_rhs_constraints : list string :=
  ["1x_1 <= -1"; "1x_1 <= 5"]%string.
Definition negative_rhs_objective : string * string := ("min", "1x_1")%string.
Definition negative_rhs_table : table :=
  [[- (1 # 1); 0; 0; 0]; [1; 1; 0; - (1 # 1)]; [1; 0; 1; 5]].
Definition negative_rhs_output : F.solve_output :=
  F.mk_output 0 [("x_1"%string, 0)]
    [("Initial Simplex-method"%string, negative_rhs_table)]
    [("Initial Simplex-method"%string, [0; 1; 2]%nat)] [].

(** * Properties *)

(** ** Fuel: a loop that returns with some fuel returns the same with more *)

Lemma simplex_loop_unfold (fuel : nat) (st : F.solver_state) :
  F.simplex_loop fuel st =
  (c <- F.check_condition (F.st_table st) ;;
   if negb c then
     match fuel with
     | O => OutOfFuel
     | S fuel' =>
         key_column <- F.find_key_column (F.st_table st) ;;
         '(key_row, w) <- F.find_key_row (F.st_table st) key_column ;;
         '(simplex_table, basic_vars) <-
           F.simplex_step (F.st_table st) (F.st_basic_vars st) key_column key_row ;;
         let label := ("Simplex-method step " ++ PyStr.str (F.st_step st))%string in
         F.simplex_loop fuel'
           (F.mk_state simplex_table basic_vars
              (PyDict.set (F.st_history st) label simplex_table)
              (PyDict.set (F.st_basic_vars_history st) label basic_vars)
              (F.st_step st + 1)
              (F.st_warnings st ++ w))
     end
   else Ok st).
Proof. destruct fuel; reflexivity. Qed.

Lemma gomory_loop_unfold (fuel : nat) (st : F.solver_state) :
  F.gomory_loop fuel st =
  (c <- F.check_integer_condition (F.st_table st) ;;
   if negb c then
     match fuel with
     | O => OutOfFuel
     | S fuel' =>
         '(simplex_table, basic_vars) <- F.add_clipping (F.st_table st) (F.st_basic_vars st) ;;
         key_row <- F.get_key_row simplex_table ;;
         key_column <- F.get_key_column simplex_table key_row ;;
         '(simplex_table, basic_vars) <-
           F.simplex_step simplex_table basic_vars key_column key_row ;;
         let label := ("Gomory method step " ++ PyStr.str (F.st_step st))%string in
         F.gomory_loop fuel'
           (F.mk_state simplex_table basic_vars
              (PyDict.set (F.st_history st) label simplex_table)
              (PyDict.set (F.st_basic_vars_history st) label basic_vars)
              (F.st_step st + 1)
              (F.st_warnings st))
     end
   else Ok st).
Proof. destruct fuel; reflexivity. Qed.

Lemma simplex_loop_more (n k : nat) :
  forall st st', F.simplex_loop n st = Ok st' -> F.simplex_loop (n + k) st = Ok st'.
Proof.
  induction n as [| n IH]; intros st st' H;
    rewrite simplex_loop_unfold in H; rewrite simplex_loop_unfold.
  - destruct (F.check_condition (F.st_table st)) as [[|] | e |];
      cbn [bind negb] in *; try discriminate; assumption.
  - destruct (F.check_condition (F.st_table st)) as [[|] | e |];
      cbn [bind negb] in *; try discriminate; try assumption.
    cbn [Nat.add].
    destruct (F.find_key_column (F.st_table st)) as [kc | e |];
      cbn [bind] in *; try discriminate.
    destruct (F.find_key_row (F.st_table st) kc) as [[kr w] | e |];
      cbn [bind] in *; try discriminate.
    destruct (F.simplex_step (F.st_table st) (F.st_basic_vars st) kc kr)
      as [[t' bv'] | e |]; cbn [bind] in *; try discriminate.
    apply IH; assumption.
Qed.

Lemma gomory_loop_more (n k : nat) :
  forall st st', F.gomory_loop n st = Ok st' -> F.gomory_loop (n + k) st = Ok st'.
Proof.
  induction n as [| n IH]; intros st st' H;
    rewrite gomory_loop_unfold in H; rewrite gomory_loop_unfold.
  - destruct (F.check_integer_condition (F.st_table st)) as [[|] | e |];
      cbn [bind negb] in *; try discriminate; assumption.
  - destruct (F.check_integer_condition (F.st_table st)) as [[|] | e |];
      cbn [bind negb] in *; try discriminate; try assumption.
    cbn [Nat.add].
    destruct (F.add_clipping (F.st_table st) (F.st_basic_vars st)) as [[t1 bv1] | e |];
      cbn [bind] in *; try discriminate.
    destruct (F.get_key_row t1) as [kr | e |]; cbn [bind] in *; try discriminate.
    destruct (F.get_key_column t1 kr) as [kc | e |]; cbn [bind] in *; try discriminate.
    destruct (F.simplex_step t1 bv1 kc kr) as [[t' bv'] | e |];
      cbn [bind] in *; try discriminate.
    apply IH; assumption.
Qed.

Lemma simplex_solve_more (n k num_vars : nat) (constraints : list string)
      (objective_function : string * string) (out : F.solve_output) :
  F.simplex_solve n num_vars constraints objective_function = Ok out ->
  F.simplex_solve (n + k) num_vars constraints objective_function = Ok out.
Proof.
  unfold F.simplex_solve.
  destruct (F.construct_simplex_table constraints num_vars)
    as [[[[t0 rr] ns] nr] | e |]; cbn [bind]; try discriminate.
  destruct objective_function as [objective objf].
  destruct (F.phase1 t0 _ rr num_vars ns) as [[[t1 bv] h] | e |];
    cbn [bind]; try discriminate.
  destruct (for_each bv _ tt) as [u | e |]; cbn [bind]; try discriminate.
  destruct (F.delete_r_vars t1 num_vars ns) as [t2 | e |]; cbn [bind]; try discriminate.
  destruct (F.update_objective_function t2 objf objective) as [t3 | e |];
    cbn [bind]; try discriminate.
  destruct (F.renormalize_objective t3 bv) as [t4 | e |]; cbn [bind]; try discriminate.
  intros H.
  destruct (F.simplex_loop n _) as [st | e |] eqn:Hl; cbn [bind] in H; try discriminate.
  rewrite (simplex_loop_more n k _ _ Hl). cbn [bind]. exact H.
Qed.

Lemma gomory_solve_more (n k num_vars : nat) (constraints : list string)
      (objective_function : string * string) (r : F.gomory_return * list string) :
  F.gomory_solve n num_vars constraints objective_function = Ok r ->
  F.gomory_solve (n + k) num_vars constraints objective_function = Ok r.
Proof.
  unfold F.gomory_solve. intros H.
  destruct (F.simplex_solve n num_vars constraints objective_function)
    as [out | e |] eqn:Hs; cbn [bind] in H; try discriminate.
  rewrite (simplex_solve_more n k _ _ _ _ Hs). cbn [bind].
  destruct (PyDict.last_item (F.out_history out)) as [[tk t] | e |];
    cbn [bind] in *; try discriminate.
  destruct (PyDict.last_item (F.out_basic_vars_history out)) as [[vk bv] | e |];
    cbn [bind] in *; try discriminate.
  destruct (F.check_integer_condition t) as [[|] | e |];
    cbn [bind] in *; try discriminate; try assumption.
  destruct (F.gomory_loop n _) as [st | e |] eqn:Hl; cbn [bind] in H; try discriminate.
  rewrite (gomory_loop_more n k _ _ Hl). cbn [bind]. exact H.
Qed.

(** ** The scenario of main.py *)


(** The run of [simplex_solve] on the input of main.py: two pivots. *)
Lemma main_relaxation :
  exists out,
    F.simplex_solve 2 Main.num_vars Main.constraints Main.objective_function = Ok out /\
    F.optimum out = (-376) # 9 /\
    F.optimal_plane out = [("x_2"%string, 22 # 9); ("x_1"%string, 61 # 18)] /\
    exists key t,
      PyDict.last_item (F.out_history out) = Ok (key, t) /\
      F.check_integer_condition t = Ok false.
Proof.
  eexists. split; [vm_compute; reflexivity |].
  split; [reflexivity |]. split; [reflexivity |].
  eexists. eexists. split; vm_compute; reflexivity.
Qed.

Lemma main_relaxation_any_fuel (fuel : nat) (out : F.solve_output) :
  F.simplex_solve fuel Main.num_vars Main.constraints Main.objective_function = Ok out ->
  F.optimum out = (-376) # 9.
Proof.
  destruct main_relaxation as (out0 & Hrun & Hopt & _).
  destruct fuel as [| [| k]]; intros H.
  - vm_compute in H; discriminate.
  - vm_compute in H; discriminate.
  - change (S (S k)) with (2 + k)%nat in H.
    rewrite (simplex_solve_more 2 k _ _ _ _ Hrun) in H.
    injection H as <-. exact Hopt.
Qed.

(** The run of [gomory_solve] on the input of main.py: six cuts. *)
Lemma main_integer :
  exists hist bvh,
    F.gomory_solve 6 Main.num_vars Main.constraints Main.objective_function =
    Ok (F.Return4 (-36 # 1) [("x_2"%string, 2 # 1); ("x_1"%string, 3 # 1)] hist bvh, []).
Proof. eexists. eexists. vm_compute. reflexivity. Qed.


Lemma main_integer_any_fuel (fuel : nat) (ret : F.gomory_return) (w : list string) :
  F.gomory_solve fuel Main.num_vars Main.constraints Main.objective_function
    = Ok (ret, w) ->
  exists hist bvh,
    ret = F.Return4 (-36 # 1) [("x_2"%string, 2 # 1); ("x_1"%string, 3 # 1)] hist bvh.
Proof.
  destruct main_integer as (hist & bvh & Hrun).
  do 6 (destruct fuel as [| fuel]; [intros H; vm_compute in H; discriminate |]).
  intros H.
  change (S (S (S (S (S (S fuel)))))) with (6 + fuel)%nat in H.
  rewrite (gomory_solve_more 6 fuel _ _ _ _ Hrun) in H.
  injection H as <- _. exists hist, bvh. reflexivity.
Qed.

(** C1, counterexample: on the input of main.py no amount of fuel makes
    [simplex_solve] return [136/5], nor [gomory_solve] return [32]: neither
    half of the scenario as stated occurs. *)
Lemma scenario_as_stated_fails :
  ~ relaxation_as_stated /\ ~ integer_solution_as_stated /\ ~ scenario_as_stated.
Proof.
  assert (H1 : ~ relaxation_as_stated).
  { intros H. destruct H as (fuel & out & Hs & Hopt & _).
    pose proof (main_relaxation_any_fuel fuel out Hs) as E.
    rewrite E in Hopt. vm_compute in Hopt. discriminate. }
  assert (H2 : ~ integer_solution_as_stated).
  { intros H. destruct H as (fuel & ret & w & Hg & Hret).
    destruct (main_integer_any_fuel fuel ret w Hg) as (hist & bvh & E).
    subst ret. clear Hg. cbv beta iota in Hret.
    destruct Hret as [Hv _]. vm_compute in Hv. discriminate. }
  split; [exact H1 |]. split; [exact H2 |].
  intros [H _]. exact (H1 H).
Qed.

(** C1, amended: on the input of main.py ([num_vars = 2], constraints
    [2x_1 + 5x_2 <= 19] and [4x_1 + 1x_2 <= 16], maximize [8x_1 + 6x_2])
    [simplex_solve] returns, after two pivots, the objective-row value
    [-376/9] at [x_1 = 61/18], [x_2 = 22/9]; that table is not
    integer-feasible, and [gomory_solve] returns, after six cuts, a four-tuple
    with the value [-36] at [x_1 = 3], [x_2 = 2]. *)
Theorem scenario_of_main (k : nat) :
  exists out key t hist bvh,
    F.simplex_solve (2 + k) Main.num_vars Main.constraints Main.objective_function
      = Ok out /\
    F.optimum out = (-376) # 9 /\
    F.optimal_plane out = [("x_2"%string, 22 # 9); ("x_1"%string, 61 # 18)] /\
    PyDict.last_item (F.out_history out) = Ok (key, t) /\
    F.check_integer_condition t = Ok false /\
    F.gomory_solve (6 + k) Main.num_vars Main.constraints Main.objective_function
      = Ok (F.Return4 (-36 # 1) [("x_2"%string, 2 # 1); ("x_1"%string, 3 # 1)] hist bvh,
            []) /\
    Main.main (6 + k)
      = Ok (-36 # 1, [("x_2"%string, 2 # 1); ("x_1"%string, 3 # 1)], hist, bvh).
Proof.
  destruct main_relaxation as (out & Hrun & Hopt & Hplane & key & t & Hlast & Hint).
  destruct main_integer as (hist & bvh & Hg).
  exists out, key, t, hist, bvh.
  split; [apply simplex_solve_more; exact Hrun |].
  repeat (split; [assumption |]).
  pose proof (gomory_solve_more 6 k _ _ _ _ Hg) as Hg'.
  split; [exact Hg' |].
  unfold Main.main. rewrite Hg'. reflexivity.
Qed.

(** ** Counting the auxiliary variables *)

(** C2, the code on two single constraints: for
    [1x_1 <= 2] both constructors count one artificial variable and build
    four columns, although the row receives a surplus variable only; for
    [1x_1 >= 5] they count no artificial variable and build three columns,
    so that the artificial coefficient of the row is stored in the last
    column and replaced there by the right-hand side. *)
Theorem construct_simplex_table_swaps_counts :
  F.construct_simplex_table ["1x_1 <= 2"%string] 1
    = Ok ([[0; 0; 0; 0]; [1; 1; 0; 2]], [], 1%nat, 1%nat) /\
  F.construct_simplex_table ["1x_1 >= 5"%string] 1
    = Ok ([[0; 0; 0]; [1; -1 # 1; 5]], [1%nat], 1%nat, 0%nat) /\
  OO.SimplexTable_init 1 ["1x_1 <= 2"%string] "max" "1x_1"
    = Ok (OO.mk_table [[1; 0; 0; 0]; [1; 1; 0; 2]] [] 1 1) /\
  OO.SimplexTable_init 1 ["1x_1 >= 5"%string] "max" "1x_1"
    = Ok (OO.mk_table [[1; 0; 0]; [1; -1 # 1; 5]] [1%nat] 1 0).
Proof. repeat split; vm_compute; reflexivity. Qed.

(** ** An infeasible problem *)

(** C5, the code on an infeasible problem: for [x_1 >= 5] with [x_1 <= 2]
    [simplex_solve] raises [TypeError] out of [phase1], whatever the
    objective and the fuel. *)
Theorem infeasible_example_raises_TypeError
    (fuel : nat) (objective_function : string * string) :
  F.simplex_solve fuel 1 ["1x_1 >= 5"; "1x_1 <= 2"]%string objective_function
    = Raise TypeError.
Proof. destruct objective_function as [objective f]. reflexivity. Qed.

(** ** The two implementations *)


(** C4, the code on one problem: for [max x_1] under [x_1 <= 2] and
    [x_1 <= 5] the functional pipeline returns [x_1 = 2] and the classes
    return [x_1 = 5], both with the value [-2]; and on one and the same
    table the two re-normalization loops add different rows to row 0. *)
Theorem functional_and_classes_disagree :
  (forall k, F.gomory_solve (1 + k) 1 c4_constraints c4_objective
             = Ok (F.Return2 (-2 # 1) [("x_1"%string, 2 # 1)], [])) /\
  (forall fuel, exists o o',
      OO.GomoryMethod_init fuel 1 c4_constraints c4_objective = Ok o /\
      OO.simplex_vals o = -2 # 1 /\
      OO.simplex_solution o = [("x_1"%string, 5 # 1)] /\
      OO.integer_solve fuel o = Ok (-2 # 1, [("x_1"%string, 5 # 1)], o')) /\
  F.renormalize_objective c4_table [0; 0; 0]%nat
    = Ok [[0; 0; 0; 0]; [1; 1; 0; 2]; [1; 0; 1; 5]] /\
  OO.renormalize_objective c4_table [0; 0; 0]%nat
    = Ok [[0; -1 # 1; 0; -2 # 1]; [1; 1; 0; 2]; [1; 0; 1; 5]].
Proof.
  split; [| split; [| split]].
  - intros k. apply gomory_solve_more. vm_compute. reflexivity.
  - intros fuel. destruct fuel; eexists; eexists;
      (split; [vm_compute; reflexivity |]);
      (split; [reflexivity |]); (split; [reflexivity |]);
      vm_compute; reflexivity.
  - vm_compute. reflexivity.
  - vm_compute. reflexivity.
Qed.

(** ** Lists *)

Lemma getitem_nth {A : Type} (l : list A) (i : nat) (d : A) :
  (i < length l)%nat -> PyList.getitem l i = Ok (nth i l d).
Proof.
  intros H. unfold PyList.getitem.
  rewrite (nth_error_nth' l d H). reflexivity.
Qed.

Lemma nth_pred_length_last {A : Type} (l : list A) (d : A) :
  nth (length l - 1) l d = last l d.
Proof.
  induction l as [| a l IH]; [reflexivity |].
  destruct l as [| b l']; [reflexivity |].
  simpl length in *. simpl last.
  replace (S (S (length l')) - 1)%nat with (S (S (length l') - 1)) by lia.
  exact IH.
Qed.

Lemma getlast_last {A : Type} (l : list A) (d : A) :
  l <> [] -> PyList.getlast l = Ok (last l d).
Proof.
  intros H. destruct l as [| a l']; [contradiction |].
  unfold PyList.getlast.
  rewrite (getitem_nth (a :: l') _ d) by (simpl; lia).
  rewrite nth_pred_length_last. reflexivity.
Qed.

Lemma length_replace {A : Type} (l : list A) (i : nat) (v : A) :
  length (PyList.replace l i v) = length l.
Proof.
  revert i; induction l as [| a l IH]; intros [| i]; simpl; auto.
Qed.

Lemma nth_replace_eq {A : Type} (l : list A) (i : nat) (v d : A) :
  (i < length l)%nat -> nth i (PyList.replace l i v) d = v.
Proof.
  revert i; induction l as [| a l IH]; intros [| i]; simpl; intros H;
    try lia; auto.
  apply IH. lia.
Qed.

Lemma nth_replace_neq {A : Type} (l : list A) (i j : nat) (v d : A) :
  i <> j -> nth j (PyList.replace l i v) d = nth j l d.
Proof.
  revert i j; induction l as [| a l IH]; intros [| i] [| j] H; simpl; auto;
    try contradiction.
Qed.

Lemma setitem_Ok {A : Type} (l : list A) (i : nat) (v : A) :
  (i < length l)%nat -> PyList.setitem l i v = Ok (PyList.replace l i v).
Proof.
  intros H. unfold PyList.setitem.
  destruct (Nat.ltb_spec i (length l)); [reflexivity | lia].
Qed.

Lemma filter_all_length {A : Type} (f : A -> bool) (l : list A) :
  (length (filter f l) =? length l)%nat = forallb f l.
Proof.
  induction l as [| a l IH]; [reflexivity |].
  simpl. destruct (f a); simpl.
  - exact IH.
  - apply Nat.eqb_neq. pose proof (filter_length_le f l). lia.
Qed.

(** ** Loops *)

(** A [for] loop over [range(a, a + n)] keeps an invariant that each
    iteration keeps, and returns. *)
Lemma for_each_seq_inv {S : Type} (I : nat -> S -> Prop) (body : S -> nat -> result S) :
  forall (n a : nat) (s0 : S),
    I a s0 ->
    (forall k s, (a <= k < a + n)%nat -> I k s ->
                 exists s', body s k = Ok s' /\ I (Datatypes.S k) s') ->
    exists s', for_each (seq a n) body s0 = Ok s' /\ I (a + n)%nat s'.
Proof.
  induction n as [| n IH]; intros a s0 H0 Hstep.
  - exists s0. rewrite Nat.add_0_r. split; [reflexivity | exact H0].
  - destruct (Hstep a s0 ltac:(lia) H0) as (s1 & Hb & H1).
    destruct (IH (Datatypes.S a) s1 H1) as (s' & Hf & H').
    + intros k s Hk. apply Hstep. lia.
    + exists s'. simpl. rewrite Hb. simpl. split; [exact Hf |].
      replace (a + Datatypes.S n)%nat with (Datatypes.S a + n)%nat by lia. exact H'.
Qed.

(** ** The optimality test *)

Lemma check_condition_forallb (t : table) (r0 : row) :
  nth_error t 0 = Some r0 ->
  F.check_condition t = Ok (forallb (fun x => Frac.leb x 0) r0).
Proof.
  intros H. unfold F.check_condition, PyList.getitem. rewrite H. simpl.
  rewrite filter_all_length. reflexivity.
Qed.

Lemma check_condition_true (t : table) (r0 : row) :
  nth_error t 0 = Some r0 ->
  (F.check_condition t = Ok true <-> Forall (fun x => x <= 0) r0).
Proof.
  intros H. rewrite (check_condition_forallb t r0 H).
  rewrite Forall_forall. split.
  - intros [= Hall] x Hx. rewrite forallb_forall in Hall.
    apply Qle_bool_iff. exact (Hall x Hx).
  - intros Hall. f_equal. apply forallb_forall. intros x Hx.
    apply Qle_bool_iff. exact (Hall x Hx).
Qed.

Lemma simplex_loop_stops (fuel : nat) (st : F.solver_state) :
  F.check_condition (F.st_table st) = Ok true -> F.simplex_loop fuel st = Ok st.
Proof. intros H. rewrite simplex_loop_unfold, H. reflexivity. Qed.

Lemma simplex_loop_exit (fuel : nat) :
  forall st st', F.simplex_loop fuel st = Ok st' ->
                 F.check_condition (F.st_table st') = Ok true.
Proof.
  induction fuel as [| fuel IH]; intros st st' H; rewrite simplex_loop_unfold in H.
  - destruct (F.check_condition (F.st_table st)) as [[|] | e |] eqn:E;
      cbn [bind negb] in H; try discriminate.
    injection H as <-. exact E.
  - destruct (F.check_condition (F.st_table st)) as [[|] | e |] eqn:E;
      cbn [bind negb] in H; try discriminate.
    + injection H as <-. exact E.
    + destruct (F.find_key_column (F.st_table st)) as [kc | e |];
        cbn [bind] in H; try discriminate.
      destruct (F.find_key_row (F.st_table st) kc) as [[kr w] | e |];
        cbn [bind] in H; try discriminate.
      destruct (F.simplex_step (F.st_table st) (F.st_basic_vars st) kc kr)
        as [[t' bv'] | e |]; cbn [bind] in H; try discriminate.
      exact (IH _ _ H).
Qed.

(** C3, counterexample: on a table whose objective row is [0, -1, 3] the
    entries other than the right-hand side are at most zero and
    [check_condition] is [False]. *)
Lemma check_condition_counts_rhs :
  ~ (F.check_condition c3_table = Ok true <-> optimal_without_rhs c3_table).
Proof.
  intros [_ H].
  assert (Hopt : optimal_without_rhs c3_table).
  { unfold optimal_without_rhs, c3_table. simpl.
    repeat constructor; discriminate. }
  specialize (H Hopt). vm_compute in H. discriminate.
Qed.

(** C3, amended: [check_condition] is [True] if and only if every entry of
    the objective row, the right-hand side included, is at most zero; the
    pivot loop of phase 2 returns at once on a table where that holds, and
    whenever it returns it does so on such a table. *)
Theorem check_condition_whole_row
    (st : F.solver_state) (r0 : row) (H : nth_error (F.st_table st) 0 = Some r0) :
  (F.check_condition (F.st_table st) = Ok true <-> Forall (fun x => x <= 0) r0) /\
  (Forall (fun x => x <= 0) r0 -> forall fuel, F.simplex_loop fuel st = Ok st) /\
  (forall fuel st', F.simplex_loop fuel st = Ok st' ->
     exists r0', nth_error (F.st_table st') 0 = Some r0' /\
                 Forall (fun x => x <= 0) r0').
Proof.
  split; [apply check_condition_true; exact H |].
  split.
  - intros Hall fuel. apply simplex_loop_stops.
    apply (check_condition_true _ r0 H). exact Hall.
  - intros fuel st' Hl. apply simplex_loop_exit in Hl.
    destruct (nth_error (F.st_table st') 0) as [r0' |] eqn:E.
    + exists r0'. split; [reflexivity |].
      apply (check_condition_true _ r0' E). exact Hl.
    + unfold F.check_condition, PyList.getitem in Hl. rewrite E in Hl. discriminate.
Qed.

Lemma check_condition_whole_row_witness :
  let st := F.mk_state [[-1 # 1; 0; -2 # 1]; [1; 1; 2]] [0; 0]%nat [] [] 1 [] in
  (F.check_condition (F.st_table st) = Ok true <->
   Forall (fun x => x <= 0) [-1 # 1; 0; -2 # 1]) /\
  (Forall (fun x => x <= 0) [-1 # 1; 0; -2 # 1] ->
   forall fuel, F.simplex_loop fuel st = Ok st) /\
  (forall fuel st', F.simplex_loop fuel st = Ok st' ->
     exists r0', nth_error (F.st_table st') 0 = Some r0' /\
                 Forall (fun x => x <= 0) r0').
Proof.
  intros st.
  apply (check_condition_whole_row st [-1 # 1; 0; -2 # 1]).
  reflexivity.
Defined.

(** ** The two shapes of the result of [gomory_solve] *)

Lemma str_inj (a b : nat) : PyStr.str a = PyStr.str b -> a = b.
Proof.
  unfold PyStr.str. intros H.
  apply DecimalNat.Unsigned.to_uint_inj.
  assert (Hs : Some (Nat.to_uint a) = Some (Nat.to_uint b))
    by (rewrite <- !NilEmpty.usu, H; reflexivity).
  congruence.
Qed.

Lemma append_inj_r (p a b : string) : (p ++ a = p ++ b)%string -> a = b.
Proof. induction p as [| c p IH]; simpl; intros H; [exact H | injection H; auto]. Qed.

Lemma simplex_label_fresh (n : nat) (k : string) :
  simplex_label n k -> k <> ("Simplex-method step " ++ PyStr.str n)%string.
Proof.
  intros [-> | (j & Hj & ->)] E.
  - simpl in E. discriminate.
  - apply append_inj_r, str_inj in E. lia.
Qed.

Lemma simplex_label_mono (n m : nat) (k : string) :
  (n <= m)%nat -> simplex_label n k -> simplex_label m k.
Proof.
  intros Hnm [-> | (j & Hj & ->)]; [left; reflexivity |].
  right. exists j. split; [lia | reflexivity].
Qed.

Lemma dict_set_fresh {V : Type} (d : PyDict.dict V) (k : string) (v : V) :
  Forall (fun kv => fst kv <> k) d -> PyDict.set d k v = d ++ [(k, v)].
Proof.
  induction 1 as [| [k' v'] d Hk _ IH]; [reflexivity |].
  simpl in *. destruct (String.eqb_spec k' k); [contradiction |].
  rewrite IH. reflexivity.
Qed.

Lemma last_item_snoc {V : Type} (d : PyDict.dict V) (x : string * V) :
  PyDict.last_item (d ++ [x]) = Ok x.
Proof.
  unfold PyDict.last_item.
  rewrite (getlast_last _ x) by (destruct d; discriminate).
  rewrite last_last. reflexivity.
Qed.

Lemma history_tracks_step {V : Type} (d : PyDict.dict V) (v v' : V) (n : nat) :
  history_tracks d v n ->
  history_tracks
    (PyDict.set d ("Simplex-method step " ++ PyStr.str n)%string v') v' (n + 1).
Proof.
  intros [_ Hkeys].
  rewrite dict_set_fresh.
  - split.
    + eexists. apply last_item_snoc.
    + apply Forall_app. split.
      * eapply Forall_impl; [| exact Hkeys].
        intros kv. apply simplex_label_mono. lia.
      * constructor; [| constructor].
        right. exists n. split; [lia | reflexivity].
  - eapply Forall_impl; [| exact Hkeys].
    intros kv. apply simplex_label_fresh.
Qed.

Lemma simplex_loop_tracks (fuel : nat) :
  forall st st',
    history_tracks (F.st_history st) (F.st_table st) (F.st_step st) ->
    history_tracks (F.st_basic_vars_history st) (F.st_basic_vars st) (F.st_step st) ->
    F.simplex_loop fuel st = Ok st' ->
    history_tracks (F.st_history st') (F.st_table st') (F.st_step st') /\
    history_tracks (F.st_basic_vars_history st') (F.st_basic_vars st') (F.st_step st').
Proof.
  induction fuel as [| fuel IH]; intros st st' Ht Hb H; rewrite simplex_loop_unfold in H;
    destruct (F.check_condition (F.st_table st)) as [[|] | e |];
    cbn [bind negb] in H; try discriminate;
    try (injection H as <-; split; assumption).
  destruct (F.find_key_column (F.st_table st)) as [kc | e |];
    cbn [bind] in H; try discriminate.
  destruct (F.find_key_row (F.st_table st) kc) as [[kr w] | e |];
    cbn [bind] in H; try discriminate.
  destruct (F.simplex_step (F.st_table st) (F.st_basic_vars st) kc kr)
    as [[t' bv'] | e |]; cbn [bind] in H; try discriminate.
  apply IH in H; [exact H | |]; cbn [F.st_history F.st_table F.st_step
    F.st_basic_vars_history F.st_basic_vars]; eapply history_tracks_step; eassumption.
Qed.

(** What [simplex_solve] returns is read off the table stored last in its
    history, which satisfies the optimality test. *)
Lemma simplex_solve_last (fuel num_vars : nat) (constraints : list string)
      (objective_function : string * string) (out : F.solve_output) :
  F.simplex_solve fuel num_vars constraints objective_function = Ok out ->
  exists key t key' bv,
    PyDict.last_item (F.out_history out) = Ok (key, t) /\
    PyDict.last_item (F.out_basic_vars_history out) = Ok (key', bv) /\
    F.check_condition t = Ok true /\
    cell_last t 0 = Ok (F.optimum out) /\
    F.create_solution t bv num_vars = Ok (F.optimal_plane out).
Proof.
  unfold F.simplex_solve.
  destruct (F.construct_simplex_table constraints num_vars)
    as [[[[t0 rr] ns] nr] | e |]; cbn [bind]; try discriminate.
  destruct objective_function as [objective objf].
  destruct (F.phase1 t0 _ rr num_vars ns) as [[[t1 bv] h] | e |];
    cbn [bind]; try discriminate.
  destruct (for_each bv _ tt) as [u | e |]; cbn [bind]; try discriminate.
  destruct (F.delete_r_vars t1 num_vars ns) as [t2 | e |]; cbn [bind]; try discriminate.
  destruct (F.update_objective_function t2 objf objective) as [t3 | e |];
    cbn [bind]; try discriminate.
  destruct (F.renormalize_objective t3 bv) as [t4 | e |]; cbn [bind]; try discriminate.
  destruct (F.simplex_loop fuel _) as [st | e |] eqn:Hl; cbn [bind]; try discriminate.
  destruct (cell_last (F.st_table st) 0) as [v | e |] eqn:Hv; cbn [bind]; try discriminate.
  destruct (F.create_solution (F.st_table st) (F.st_basic_vars st) num_vars)
    as [plane | e |] eqn:Hp; cbn [bind]; try discriminate.
  intros [= <-]. cbn [F.out_history F.out_basic_vars_history F.optimum F.optimal_plane].
  pose proof (simplex_loop_exit _ _ _ Hl) as Hc.
  apply simplex_loop_tracks in Hl.
  - destruct Hl as [[[key Hk] _] [[key' Hk'] _]].
    exists key, (F.st_table st), key', (F.st_basic_vars st). auto.
  - split; [eexists; reflexivity |].
    constructor; [left; reflexivity | constructor].
  - split; [eexists; reflexivity |].
    constructor; [left; reflexivity | constructor].
Qed.

(** ** Comparisons of fractions *)

Lemma ltb_true (a b : Q) : Frac.ltb a b = true <-> a < b.
Proof.
  unfold Frac.ltb. rewrite negb_true_iff. split.
  - intros H. apply Qnot_le_lt. intros Hle.
    apply Qle_bool_iff in Hle. congruence.
  - intros H. destruct (Qle_bool b a) eqn:E; [| reflexivity].
    apply Qle_bool_iff in E. exfalso. exact (Qlt_not_le _ _ H E).
Qed.

Lemma ltb_false (a b : Q) : Frac.ltb a b = false <-> b <= a.
Proof.
  unfold Frac.ltb. rewrite negb_false_iff. apply Qle_bool_iff.
Qed.

Lemma leb_true (a b : Q) : Frac.leb a b = true <-> a <= b.
Proof. apply Qle_bool_iff. Qed.

Lemma leb_false (a b : Q) : Frac.leb a b = false <-> b < a.
Proof.
  unfold Frac.leb. split.
  - intros H. apply Qnot_le_lt. intros Hle. apply Qle_bool_iff in Hle. congruence.
  - intros H. destruct (Qle_bool a b) eqn:E; [| reflexivity].
    apply Qle_bool_iff in E. exfalso. exact (Qlt_not_le _ _ H E).
Qed.

Lemma eqb_true (a b : Q) : Frac.eqb a b = true <-> a == b.
Proof. apply Qeq_bool_iff. Qed.

Lemma eqb_false (a b : Q) : Frac.eqb a b = false <-> ~ a == b.
Proof.
  unfold Frac.eqb. split.
  - intros H E. apply Qeq_bool_iff in E. congruence.
  - intros H. destruct (Qeq_bool a b) eqn:E; [| reflexivity].
    apply Qeq_bool_iff in E. contradiction.
Qed.

Lemma div_Ok (a b : Q) : ~ b == 0 -> Frac.div a b = Ok (Qred (a / b)).
Proof.
  intros H. unfold Frac.div. rewrite (proj2 (eqb_false b 0) H). reflexivity.
Qed.

(** ** Reading a table of known shape *)

Lemma cell_entry (t : table) (i j : nat) :
  (i < length t)%nat -> (j < length (nth i t []))%nat -> cell t i j = Ok (entry t i j).
Proof.
  intros Hi Hj. unfold cell, entry.
  rewrite (getitem_nth t i []) by exact Hi. cbn [bind].
  apply getitem_nth. exact Hj.
Qed.

Lemma cell_last_rhs (t : table) (i : nat) :
  (i < length t)%nat -> nth i t [] <> [] -> cell_last t i = Ok (rhs t i).
Proof.
  intros Hi Hne. unfold cell_last, rhs.
  rewrite (getitem_nth t i []) by exact Hi. cbn [bind].
  apply getlast_last. exact Hne.
Qed.

(** ** The minimum-ratio test *)

Section KeyRow.

Variable t : table.
Variable key_column : nat.
Hypothesis Hwf :
  forall i, (1 <= i < length t)%nat -> (key_column < length (nth i t []))%nat.

Let body : option Q * nat -> nat -> result (option Q * nat) :=
  fun '(min_val, key_row) i =>
    a <- cell t i key_column ;;
    if Frac.ltb 0 a then
      b <- cell_last t i ;;
      a' <- cell t i key_column ;;
      val <- Frac.div b a' ;;
      if F.lt_min val min_val then Ok (Some val, i) else Ok (min_val, key_row)
    else Ok (min_val, key_row).

Lemma key_row_body (k : nat) (s : option Q * nat) :
  (1 <= k < length t)%nat ->
  key_row_inv t key_column k s ->
  exists s', body s k = Ok s' /\ key_row_inv t key_column (S k) s'.
Proof.
  intros Hk Hinv. destruct s as [mv r]. unfold body.
  pose proof (Hwf k Hk) as Hlen.
  rewrite (cell_entry t k key_column) by lia. cbn [bind].
  destruct (Frac.ltb 0 (entry t k key_column)) eqn:Epos.
  - apply ltb_true in Epos.
    rewrite (cell_last_rhs t k) by (try lia; intros E; rewrite E in Hlen; simpl in Hlen; lia).
    cbn [bind].
    rewrite div_Ok by (intros E; rewrite E in Epos; exact (Qlt_irrefl 0 Epos)).
    cbn [bind]. fold (ratio t key_column k).
    destruct mv as [m |]; cbn [F.lt_min].
    + destruct Hinv as (Hr & Hrpos & Hm & Hmin).
      destruct (Frac.ltb (Qred (ratio t key_column k)) m) eqn:Elt.
      * apply ltb_true in Elt. rewrite Hm, !Qred_correct in Elt.
        eexists. split; [reflexivity |]. cbn.
        split; [lia |]. split; [exact Epos |]. split; [reflexivity |].
        intros i Hi Hipos.
        destruct (Nat.eq_dec i k) as [-> | Hne].
        -- split; [apply Qle_refl | lia].
        -- destruct (Hmin i ltac:(lia) Hipos) as [Hle _].
           assert (Hlt : ratio t key_column k < ratio t key_column i)
             by (eapply Qlt_le_trans; eassumption).
           split; [apply Qlt_le_weak; exact Hlt | intros _; exact Hlt].
      * apply ltb_false in Elt. rewrite Hm, !Qred_correct in Elt.
        eexists. split; [reflexivity |]. cbn.
        split; [lia |]. split; [exact Hrpos |]. split; [exact Hm |].
        intros i Hi Hipos.
        destruct (Nat.eq_dec i k) as [-> | Hne].
        -- split; [exact Elt | lia].
        -- apply Hmin; [lia | exact Hipos].
    + eexists. split; [reflexivity |]. cbn.
      split; [lia |]. split; [exact Epos |]. split; [reflexivity |].
      intros i Hi Hipos.
      destruct (Nat.eq_dec i k) as [-> | Hne].
      * split; [apply Qle_refl | lia].
      * exfalso. apply (Hinv i); [lia | exact Hipos].
  - apply ltb_false in Epos.
    eexists. split; [reflexivity |].
    destruct mv as [m |]; cbn in *.
    + destruct Hinv as (Hr & Hrpos & Hm & Hmin).
      split; [lia |]. split; [exact Hrpos |]. split; [exact Hm |].
      intros i Hi Hipos.
      destruct (Nat.eq_dec i k) as [-> | Hne].
      * exfalso. exact (Qlt_not_le _ _ Hipos Epos).
      * apply Hmin; [lia | exact Hipos].
    + intros i Hi Hipos.
      destruct (Nat.eq_dec i k) as [-> | Hne].
      * exact (Qlt_not_le _ _ Hipos Epos).
      * apply (Hinv i); [lia | exact Hipos].
Qed.

Lemma key_row_loop :
  exists s,
    for_each (range 1 (length t)) body (None, 0%nat) = Ok s /\
    key_row_inv t key_column (1 + (length t - 1)) s.
Proof.
  unfold range.
  apply (for_each_seq_inv (key_row_inv t key_column) body).
  - intros i Hi. lia.
  - intros k s Hk. apply key_row_body. lia.
Qed.

End KeyRow.



(** ** The key row of the Gomory step *)

Lemma beta_loop (xs : list row) :
  (forall x, In x xs -> x <> []) ->
  forall acc,
    for_each xs
      (fun beta x =>
         b <- PyList.getlast x ;;
         Ok (beta ++ [if Frac.ltb b 0 then b else Frac.of_int 0])) acc
    = Ok (acc ++ map (fun x => beta_of (last x 0)) xs).
Proof.
  induction xs as [| x xs IH]; intros Hin acc; simpl.
  - rewrite app_nil_r. reflexivity.
  - rewrite (getlast_last x 0) by (apply Hin; left; reflexivity). cbn [bind].
    rewrite IH by (intros y Hy; apply Hin; right; exact Hy).
    rewrite <- app_assoc. reflexivity.
Qed.

Lemma beta_list_computed (t : table) :
  (forall i, (1 <= i < length t)%nat -> nth i t [] <> []) ->
  for_each (PyList.from1 t)
    (fun beta x =>
       b <- PyList.getlast x ;;
       Ok (beta ++ [if Frac.ltb b 0 then b else Frac.of_int 0])) []
  = Ok (beta_list t).
Proof.
  intros Hne. apply (beta_loop (PyList.from1 t)).
  intros x Hx. destruct t as [| r0 t']; [contradiction |]. simpl in Hx.
  destruct (In_nth _ _ [] Hx) as (i & Hi & <-).
  apply (Hne (S i)). simpl. lia.
Qed.

Lemma beta_list_length (t : table) : length (beta_list t) = (length t - 1)%nat.
Proof. unfold beta_list. rewrite length_map. destruct t; simpl; lia. Qed.

Lemma beta_list_nth (t : table) (i : nat) :
  (i < length t - 1)%nat -> nth i (beta_list t) 0 = beta_of (rhs t (S i)).
Proof.
  intros Hi. unfold beta_list, rhs.
  destruct t as [| r0 t']; simpl in *; [lia |].
  rewrite (nth_indep _ 0 (beta_of (last [] 0))) by (rewrite length_map; lia).
  rewrite (map_nth (fun x => beta_of (last x 0)) t' [] i). reflexivity.
Qed.

Lemma abs_beta_neg (b : Q) : b < 0 -> Qabs (beta_of b) == - b.
Proof.
  intros H. unfold beta_of. rewrite (proj2 (ltb_true b 0) H).
  apply Qabs_neg. apply Qlt_le_weak. exact H.
Qed.

Lemma abs_beta_nonneg (b : Q) : 0 <= b -> Qabs (beta_of b) == 0.
Proof.
  intros H. unfold beta_of. rewrite (proj2 (ltb_false b 0) H). reflexivity.
Qed.

Lemma last_max_body (beta : list Q) (k key_row : nat) :
  (k < length beta)%nat ->
  last_max_inv beta k key_row ->
  exists key_row',
    (x <- PyList.getitem beta k ;;
     y <- PyList.getitem beta key_row ;;
     if Frac.leb (Frac.abs y) (Frac.abs x) then Ok k else Ok key_row) = Ok key_row' /\
    last_max_inv beta (S k) key_row'.
Proof.
  intros Hk (H0 & Hlt & Hmax).
  assert (Hkr : (key_row < length beta)%nat).
  { destruct k; [rewrite H0 by reflexivity; lia |].
    specialize (Hlt ltac:(lia)). lia. }
  rewrite (getitem_nth beta k 0 Hk). cbn [bind].
  rewrite (getitem_nth beta key_row 0 Hkr). cbn [bind].
  destruct (Frac.leb (Frac.abs (nth key_row beta 0)) (Frac.abs (nth k beta 0))) eqn:E.
  - apply leb_true in E. unfold Frac.abs in E. rewrite !Qred_correct in E.
    exists k. split; [reflexivity |].
    split; [discriminate |]. split; [lia |].
    intros i Hi. destruct (Nat.eq_dec i k) as [-> | Hne].
    + split; [apply Qle_refl | lia].
    + split; [| lia].
      destruct (Hmax i ltac:(lia)) as [Hle _].
      eapply Qle_trans; eassumption.
  - apply leb_false in E. unfold Frac.abs in E. rewrite !Qred_correct in E.
    exists key_row. split; [reflexivity |].
    split; [discriminate |].
    split.
    { intros _. destruct k; [rewrite H0 by reflexivity; lia |].
      specialize (Hlt ltac:(lia)). lia. }
    intros i Hi. destruct (Nat.eq_dec i k) as [-> | Hne].
    + split; [apply Qlt_le_weak; exact E | intros _; exact E].
    + apply Hmax. lia.
Qed.

Lemma last_max_loop (beta : list Q) :
  exists key_row,
    for_each (range 0 (length beta))
      (fun key_row b =>
         x <- PyList.getitem beta b ;;
         y <- PyList.getitem beta key_row ;;
         if Frac.leb (Frac.abs y) (Frac.abs x) then Ok b else Ok key_row)
      0%nat = Ok key_row /\
    last_max_inv beta (length beta) key_row.
Proof.
  unfold range. rewrite Nat.sub_0_r.
  apply (for_each_seq_inv (last_max_inv beta)
           (fun key_row b =>
              x <- PyList.getitem beta b ;;
              y <- PyList.getitem beta key_row ;;
              if Frac.leb (Frac.abs y) (Frac.abs x) then Ok b else Ok key_row)
           (length beta) 0 0%nat).
  - split; [reflexivity |]. split; [lia |]. intros i Hi. lia.
  - intros k s Hk. apply last_max_body. lia.
Qed.

(** ** Writing into a table of known shape *)

Lemma same_shape_refl (t : table) : same_shape t t.
Proof. split; reflexivity. Qed.

Lemma same_shape_trans (t1 t2 t3 : table) :
  same_shape t1 t2 -> same_shape t2 t3 -> same_shape t1 t3.
Proof.
  intros [H1 H1'] [H2 H2']. split; [congruence |].
  intros i. rewrite H2', H1'. reflexivity.
Qed.

Lemma rectangular_same_shape (t t' : table) :
  rectangular t -> same_shape t t' -> rectangular t' /\ columns t' = columns t.
Proof.
  intros Hr [Hl Hrows]. unfold rectangular, columns. split.
  - intros i Hi. rewrite !Hrows. apply Hr. lia.
  - apply Hrows.
Qed.

Lemma set_cell_spec (t : table) (i j : nat) (v : Q) :
  (i < length t)%nat -> (j < length (nth i t []))%nat ->
  exists t',
    set_cell t i j v = Ok t' /\ same_shape t t' /\
    forall i' j', entry t' i' j' = if ((i' =? i) && (j' =? j))%nat then v else entry t i' j'.
Proof.
  intros Hi Hj.
  exists (PyList.replace t i (PyList.replace (nth i t []) j v)).
  split; [| split].
  - unfold set_cell. rewrite (getitem_nth t i []) by exact Hi. cbn [bind].
    rewrite setitem_Ok by exact Hj. cbn [bind].
    apply setitem_Ok. exact Hi.
  - split; [apply length_replace |].
    intros i'. destruct (Nat.eq_dec i' i) as [-> | Hne].
    + rewrite nth_replace_eq by exact Hi. apply length_replace.
    + rewrite nth_replace_neq by congruence. reflexivity.
  - intros i' j'. unfold entry.
    destruct (Nat.eqb_spec i' i) as [-> | Hne]; cbn [andb].
    + rewrite nth_replace_eq by exact Hi.
      destruct (Nat.eqb_spec j' j) as [-> | Hne'].
      * apply nth_replace_eq. exact Hj.
      * apply nth_replace_neq. congruence.
    + rewrite nth_replace_neq by congruence. reflexivity.
Qed.

(** ** The pivot *)

Lemma shape_row_length (t t' : table) (i : nat) :
  rectangular t -> same_shape t t' -> (i < length t)%nat ->
  length (nth i t' []) = columns t.
Proof.
  intros Hrect [_ Hrows] Hi. rewrite Hrows. apply Hrect. exact Hi.
Qed.

Lemma row0_columns (t t' : table) :
  rectangular t -> (0 < length t)%nat -> same_shape t t' ->
  PyList.getitem t' 0 = Ok (nth 0 t' []) /\ length (nth 0 t' []) = columns t.
Proof.
  intros Hrect Hpos Hs. split.
  - apply getitem_nth. destruct Hs as [Hl _]. lia.
  - apply shape_row_length; assumption.
Qed.

Section Pivot.

Variable t : table.
Variable key_row : nat.
Hypothesis Hrect : rectangular t.
Hypothesis Hrow : (key_row < length t)%nat.

Variable pivot : Q.
Hypothesis Hpivot : ~ pivot == 0.

Lemma normalize_body (k : nat) (tk : table) :
  (k < columns t)%nat ->
  normalize_inv t key_row pivot k tk ->
  exists tk',
    (x <- cell tk key_row k ;;
     y <- Frac.div x pivot ;;
     set_cell tk key_row k y) = Ok tk' /\
    normalize_inv t key_row pivot (S k) tk'.
Proof.
  intros Hk [Hs He].
  assert (Hlen : length (nth key_row tk []) = columns t)
    by (apply shape_row_length; assumption).
  assert (Hl : length tk = length t) by apply Hs.
  rewrite cell_entry by lia. cbn [bind].
  rewrite div_Ok by exact Hpivot. cbn [bind].
  destruct (set_cell_spec tk key_row k (Qred (entry tk key_row k / pivot)))
    as (tk' & Hset & Hs' & He'); [lia | lia |].
  exists tk'. split; [exact Hset |].
  split; [eapply same_shape_trans; eassumption |].
  intros i j. rewrite He', !He.
  destruct (Nat.eqb_spec i key_row) as [-> | Hi]; cbn [andb]; [| reflexivity].
  destruct (Nat.eqb_spec j k) as [-> | Hj].
  - rewrite Nat.eqb_refl. cbn [andb].
    rewrite (proj2 (Nat.ltb_ge k k)) by lia.
    rewrite (proj2 (Nat.ltb_lt k (S k))) by lia. reflexivity.
  - destruct (Nat.ltb_spec j k); destruct (Nat.ltb_spec j (S k)); try lia; reflexivity.
Qed.

Lemma normalize_to_pivot_spec :
  exists tn,
    F.normalize_to_pivot t key_row pivot = Ok tn /\
    normalize_inv t key_row pivot (columns t) tn.
Proof.
  unfold F.normalize_to_pivot.
  destruct (row0_columns t t Hrect ltac:(lia) (same_shape_refl t)) as [Hg Hc].
  rewrite Hg. cbn [bind].
  unfold range. rewrite Nat.sub_0_r, Hc.
  apply (for_each_seq_inv (normalize_inv t key_row pivot)
           (fun simplex_table i =>
              x <- cell simplex_table key_row i ;;
              y <- Frac.div x pivot ;;
              set_cell simplex_table key_row i y)
           (columns t) 0 t).
  - split; [apply same_shape_refl |]. intros i j.
    rewrite (proj2 (Nat.ltb_ge j 0)) by lia. rewrite andb_false_r. reflexivity.
  - intros k s Hk. apply normalize_body. lia.
Qed.

End Pivot.

Section EliminateRow.

Variable t0 : table.
Variables key_row key_column i : nat.
Hypothesis Hrect : rectangular t0.
Hypothesis Hrow : (key_row < length t0)%nat.
Hypothesis Hi : (i < length t0)%nat.
Hypothesis Hne : i <> key_row.

Let factor : Q := entry t0 i key_column.

Let inner : table -> nat -> result table :=
  fun simplex_table j =>
    x <- cell simplex_table i j ;;
    k <- cell simplex_table key_row j ;;
    set_cell simplex_table i j (Frac.sub x (Frac.mul k factor)).

Lemma eliminate_row_body (j0 : nat) (tw : table) :
  (j0 < columns t0)%nat ->
  eliminate_row_inv t0 key_row key_column i j0 tw ->
  exists tw', inner tw j0 = Ok tw' /\
              eliminate_row_inv t0 key_row key_column i (S j0) tw'.
Proof.
  intros Hj [Hs He]. unfold inner.
  assert (Hl : length tw = length t0) by apply Hs.
  assert (Hli : length (nth i tw []) = columns t0)
    by (apply shape_row_length; assumption).
  assert (Hlr : length (nth key_row tw []) = columns t0)
    by (apply shape_row_length; assumption).
  rewrite (cell_entry tw i j0) by lia. cbn [bind].
  rewrite (cell_entry tw key_row j0) by lia. cbn [bind].
  destruct (set_cell_spec tw i j0
              (Frac.sub (entry tw i j0) (Frac.mul (entry tw key_row j0) factor)))
    as (tw' & Hset & Hs' & He'); [lia | lia |].
  exists tw'. split; [exact Hset |].
  split; [eapply same_shape_trans; eassumption |].
  intros i' j. rewrite He', !He.
  rewrite Nat.eqb_refl. rewrite (proj2 (Nat.ltb_ge j0 j0)) by lia.
  rewrite (proj2 (Nat.eqb_neq key_row i)) by congruence. cbn [andb].
  destruct (Nat.eqb_spec i' i) as [-> | Hi']; cbn [andb]; [| reflexivity].
  destruct (Nat.eqb_spec j j0) as [-> | Hj'].
  - rewrite (proj2 (Nat.ltb_lt j0 (S j0))) by lia. reflexivity.
  - destruct (Nat.ltb_spec j j0); destruct (Nat.ltb_spec j (S j0)); try lia; reflexivity.
Qed.

Lemma eliminate_row_loop :
  exists tw,
    for_each (range 0 (columns t0)) inner t0 = Ok tw /\
    eliminate_row_inv t0 key_row key_column i (columns t0) tw.
Proof.
  unfold range. rewrite Nat.sub_0_r.
  apply (for_each_seq_inv (eliminate_row_inv t0 key_row key_column i) inner
           (columns t0) 0 t0).
  - split; [apply same_shape_refl |]. intros i' j.
    rewrite (proj2 (Nat.ltb_ge j 0)) by lia. rewrite andb_false_r. reflexivity.
  - intros k s Hk. apply eliminate_row_body. lia.
Qed.

End EliminateRow.

Section Eliminate.

Variable tn : table.
Variables key_row key_column : nat.
Hypothesis Hrect : rectangular tn.
Hypothesis Hrow : (key_row < length tn)%nat.
Hypothesis Hcol : (key_column < columns tn)%nat.

Let outer : table -> nat -> result table :=
  fun simplex_table i =>
    if negb (i =? key_row)%nat then
      factor <- cell simplex_table i key_column ;;
      for_each (range 0 (columns tn))
        (fun simplex_table j =>
           x <- cell simplex_table i j ;;
           k <- cell simplex_table key_row j ;;
           set_cell simplex_table i j (Frac.sub x (Frac.mul k factor)))
        simplex_table
    else Ok simplex_table.

Lemma eliminate_body (i : nat) (tz : table) :
  (i < length tn)%nat ->
  eliminate_inv tn key_row key_column i tz ->
  exists tz', outer tz i = Ok tz' /\ eliminate_inv tn key_row key_column (S i) tz'.
Proof.
  intros Hi [Hs He]. unfold outer.
  destruct (rectangular_same_shape tn tz Hrect Hs) as [Hrz Hcz].
  assert (Hl : length tz = length tn) by apply Hs.
  destruct (Nat.eqb_spec i key_row) as [-> | Hne]; cbn [negb].
  - exists tz. split; [reflexivity |]. split; [exact Hs |].
    intros i j. rewrite He.
    destruct (Nat.eqb_spec i key_row) as [-> | Hi'].
    + rewrite !andb_false_r. reflexivity.
    + destruct (Nat.ltb_spec i key_row); destruct (Nat.ltb_spec i (S key_row));
        try lia; reflexivity.
  - rewrite (cell_entry tz i key_column)
      by (try lia; rewrite (shape_row_length tn tz i Hrect Hs Hi); exact Hcol).
    cbn [bind]. rewrite <- Hcz.
    destruct (eliminate_row_loop tz key_row key_column i Hrz ltac:(lia) ltac:(lia) Hne)
      as (tw & Hloop & Hs' & He').
    exists tw. split; [exact Hloop |].
    split; [eapply same_shape_trans; eassumption |].
    intros i' j. rewrite He'. rewrite !He. rewrite Hcz.
    rewrite !Nat.eqb_refl, Nat.ltb_irrefl.
    cbn [andb negb]. rewrite !andb_false_r. cbn [andb negb].
    destruct (Nat.eqb_spec i' i) as [-> | Hi'].
    + rewrite (proj2 (Nat.ltb_lt i (S i))) by lia.
      rewrite (proj2 (Nat.eqb_neq i key_row)) by exact Hne.
      rewrite Nat.ltb_irrefl. cbn [andb negb].
      destruct (j <? columns tn)%nat; reflexivity.
    + cbn [andb].
      destruct (Nat.ltb_spec i' i); destruct (Nat.ltb_spec i' (S i)); try lia; reflexivity.
Qed.

Lemma make_key_column_zero_spec :
  exists tz,
    F.make_key_column_zero tn key_column key_row = Ok tz /\
    eliminate_inv tn key_row key_column (length tn) tz.
Proof.
  unfold F.make_key_column_zero.
  destruct (row0_columns tn tn Hrect ltac:(lia) (same_shape_refl tn)) as [Hg Hc].
  rewrite Hg. cbn [bind]. change (length (nth 0 tn [])) with (columns tn).
  unfold range at 1. rewrite Nat.sub_0_r.
  apply (for_each_seq_inv (eliminate_inv tn key_row key_column) outer (length tn) 0 tn).
  - split; [apply same_shape_refl |]. intros i j.
    rewrite (proj2 (Nat.ltb_ge i 0)) by lia. reflexivity.
  - intros k s Hk. apply eliminate_body. lia.
Qed.

End Eliminate.

Lemma Qred_div_self (p : Q) : ~ p == 0 -> Qred (p / p) = 1.
Proof.
  intros H. change 1 with (Qred 1). apply Qred_complete.
  apply Qmult_inv_r. exact H.
Qed.

Lemma sub_mul_one (a : Q) : Frac.sub a (Frac.mul 1 a) = 0.
Proof.
  unfold Frac.sub, Frac.mul. change 0 with (Qred 0). apply Qred_complete.
  rewrite Qred_correct. ring.
Qed.

(** C7: on a rectangular table, with one basic variable per row, a pivot
    position whose entry is not zero makes [simplex_step] return a table of
    the same shape whose key column is 1 in the key row and 0 in every other
    row, and basic variables that map the key row to the key column and are
    otherwise unchanged. *)
Theorem simplex_step_unit_column
    (t : table) (basic_vars : list nat) (key_column key_row : nat)
    (Hrect : rectangular t)
    (Hrow : (key_row < length t)%nat)
    (Hcol : (key_column < columns t)%nat)
    (Hvars : length basic_vars = length t)
    (Hpivot : ~ entry t key_row key_column == 0) :
  exists t' basic_vars',
    F.simplex_step t basic_vars key_column key_row = Ok (t', basic_vars') /\
    same_shape t t' /\
    entry t' key_row key_column = 1 /\
    (forall i, (i < length t')%nat -> i <> key_row -> entry t' i key_column = 0) /\
    nth key_row basic_vars' 0%nat = key_column /\
    length basic_vars' = length basic_vars /\
    (forall i, i <> key_row -> nth i basic_vars' 0%nat = nth i basic_vars 0%nat).
Proof.
  destruct (normalize_to_pivot_spec t key_row Hrect Hrow _ Hpivot)
    as (tn & Hnorm & Hsn & Hen).
  destruct (rectangular_same_shape t tn Hrect Hsn) as [Hrn Hcn].
  assert (Hln : length tn = length t) by apply Hsn.
  destruct (make_key_column_zero_spec tn key_row key_column Hrn
              ltac:(lia) ltac:(lia)) as (tz & Hzero & Hsz & Hez).
  assert (Hlz : length tz = length tn) by apply Hsz.
  assert (Hone : entry tn key_row key_column = 1).
  { rewrite Hen, Nat.eqb_refl, (proj2 (Nat.ltb_lt key_column (columns t))) by exact Hcol.
    cbn [andb]. apply Qred_div_self. exact Hpivot. }
  exists tz, (PyList.replace basic_vars key_row key_column).
  split.
  { unfold F.simplex_step.
    rewrite setitem_Ok by lia. cbn [bind].
    rewrite cell_entry by (try lia; rewrite Hrect by lia; exact Hcol). cbn [bind].
    rewrite Hnorm. cbn [bind]. rewrite Hzero. reflexivity. }
  split; [eapply same_shape_trans; eassumption |].
  split.
  { rewrite Hez, Nat.eqb_refl. cbn [negb]. rewrite andb_false_r. cbn [andb].
    exact Hone. }
  split.
  { intros i Hi Hne. rewrite Hez.
    rewrite (proj2 (Nat.ltb_lt i (length tn))) by lia.
    rewrite (proj2 (Nat.eqb_neq i key_row)) by exact Hne.
    rewrite (proj2 (Nat.ltb_lt key_column (columns tn))) by lia.
    cbn [andb negb]. rewrite Hone. apply sub_mul_one. }
  split; [apply nth_replace_eq; lia |].
  split; [apply length_replace |].
  intros i Hne. apply nth_replace_neq. congruence.
Qed.

Lemma simplex_step_unit_column_witness :
  exists t' basic_vars',
    F.simplex_step main_table [0; 2; 3]%nat 0 2 = Ok (t', basic_vars') /\
    same_shape main_table t' /\
    entry t' 2 0 = 1 /\
    (forall i, (i < length t')%nat -> i <> 2%nat -> entry t' i 0 = 0) /\
    nth 2 basic_vars' 0%nat = 0%nat /\
    length basic_vars' = length [0; 2; 3]%nat /\
    (forall i, i <> 2%nat -> nth i basic_vars' 0%nat = nth i [0; 2; 3]%nat 0%nat).
Proof.
  apply (simplex_step_unit_column main_table [0; 2; 3]%nat 0 2).
  - intros i Hi. simpl in Hi. destruct i as [| [| [| i]]]; simpl; try lia; reflexivity.
  - simpl. lia.
  - unfold columns. simpl. lia.
  - reflexivity.
  - vm_compute. discriminate.
Defined.

(** ** The cut *)

Lemma for_each_ext {A St : Type} (xs : list A) (f g : St -> A -> result St) :
  (forall s x, In x xs -> f s x = g s x) ->
  forall s, for_each xs f s = for_each xs g s.
Proof.
  induction xs as [| x xs IH]; intros Hfg s; [reflexivity |].
  simpl. rewrite (Hfg s x (or_introl eq_refl)).
  destruct (g s x); cbn [bind]; try reflexivity.
  apply IH. intros s' y Hy. apply Hfg. right. exact Hy.
Qed.

Lemma for_each_enumerate_from {A St : Type} (d : A) (body : St -> nat * A -> result St) :
  forall (xs : list A) (a : nat) (s : St),
    for_each (combine (seq a (length xs)) xs) body s
    = for_each (seq a (length xs)) (fun s j => body s (j, nth (j - a) xs d)) s.
Proof.
  induction xs as [| x xs IH]; intros a s; [reflexivity |].
  simpl. rewrite Nat.sub_diag.
  destruct (body s (a, x)) as [s' | e |]; cbn [bind]; try reflexivity.
  rewrite IH. apply for_each_ext.
  intros s0 j Hj. apply in_seq in Hj.
  replace (j - a)%nat with (S (j - S a)) by lia. reflexivity.
Qed.

Lemma for_each_enumerate {A St : Type} (d : A) (body : St -> nat * A -> result St)
      (xs : list A) (s : St) :
  for_each (enumerate xs) body s
  = for_each (seq 0 (length xs)) (fun s j => body s (j, nth j xs d)) s.
Proof.
  unfold enumerate. rewrite (for_each_enumerate_from d).
  apply for_each_ext. intros s0 j _. rewrite Nat.sub_0_r. reflexivity.
Qed.

Lemma length_insert_before_last {A : Type} (r : list A) (v : A) :
  length (PyList.insert_before_last r v) = S (length r).
Proof.
  unfold PyList.insert_before_last.
  rewrite length_app. simpl. rewrite length_firstn, length_skipn. lia.
Qed.

Lemma nth_insert_before_last {A : Type} (r : list A) (v d : A) (j : nat) :
  nth j (PyList.insert_before_last r v) d =
  if (j <? length r - 1)%nat then nth j r d
  else if (j =? length r - 1)%nat then v else nth (j - 1) r d.
Proof.
  unfold PyList.insert_before_last.
  assert (Hf : length (firstn (length r - 1) r) = (length r - 1)%nat)
    by (rewrite length_firstn; lia).
  destruct (Nat.ltb_spec j (length r - 1)) as [Hlt | Hge].
  - rewrite app_nth1 by lia. rewrite nth_firstn.
    rewrite (proj2 (Nat.ltb_lt j (length r - 1))) by exact Hlt. reflexivity.
  - rewrite app_nth2 by lia. rewrite Hf.
    destruct (Nat.eqb_spec j (length r - 1)) as [-> | Hne].
    + rewrite Nat.sub_diag. reflexivity.
    + destruct (Nat.eq_dec (length r) 0) as [Hz | Hnz].
      * apply length_zero_iff_nil in Hz. subst r. simpl in *.
        destruct j as [| [| j']]; [lia | reflexivity | reflexivity].
      * replace (j - (length r - 1))%nat with (S (j - length r)) by lia.
        cbn [nth]. rewrite nth_skipn. f_equal. lia.
Qed.

Lemma widen_body (t1 : table) (k : nat) (tk : table) :
  (k < length t1)%nat ->
  widen_inv t1 k tk ->
  exists tk',
    (r <- PyList.getitem tk k ;;
     if (k =? length t1 - 1)%nat
     then PyList.setitem tk k (PyList.insert_before_last r (Frac.of_int 1))
     else PyList.setitem tk k (PyList.insert_before_last r (Frac.of_int 0))) = Ok tk' /\
    widen_inv t1 (S k) tk'.
Proof.
  intros Hk [Hl Hrows].
  rewrite (getitem_nth tk k []) by lia. cbn [bind].
  exists (PyList.replace tk k (widen (length t1) k (nth k tk []))).
  split.
  - unfold widen. destruct (k =? length t1 - 1)%nat; apply setitem_Ok; lia.
  - split; [rewrite length_replace; exact Hl |].
    intros i. destruct (Nat.eq_dec i k) as [-> | Hne].
    + rewrite nth_replace_eq by lia.
      rewrite (proj2 (Nat.ltb_lt k (S k))) by lia.
      rewrite Hrows, Nat.ltb_irrefl. reflexivity.
    + rewrite nth_replace_neq by congruence. rewrite Hrows.
      destruct (Nat.ltb_spec i k); destruct (Nat.ltb_spec i (S k)); try lia; reflexivity.
Qed.

Lemma widen_loop (t1 : table) :
  exists t2,
    for_each (range 0 (length t1))
      (fun t i =>
         r <- PyList.getitem t i ;;
         if (i =? length t1 - 1)%nat
         then PyList.setitem t i (PyList.insert_before_last r (Frac.of_int 1))
         else PyList.setitem t i (PyList.insert_before_last r (Frac.of_int 0)))
      t1 = Ok t2 /\
    widen_inv t1 (length t1) t2.
Proof.
  unfold range. rewrite Nat.sub_0_r.
  apply (for_each_seq_inv (widen_inv t1)
           (fun t i =>
              r <- PyList.getitem t i ;;
              if (i =? length t1 - 1)%nat
              then PyList.setitem t i (PyList.insert_before_last r (Frac.of_int 1))
              else PyList.setitem t i (PyList.insert_before_last r (Frac.of_int 0)))
           (length t1) 0 t1).
  - split; [reflexivity |]. intros i. reflexivity.
  - intros k s Hk. apply widen_body. lia.
Qed.

Lemma clipping_coeff_Ok (coeff : Q) :
  F.clipping_coeff coeff = Ok (gomory_coefficient coeff).
Proof. reflexivity. Qed.

Lemma gomory_coefficient_value (a : Q) :
  gomory_coefficient a ==
    inject_Z (- (Frac.numerator a mod Frac.denominator a)) / inject_Z (Frac.denominator a)
  /\ (0 <= Frac.numerator a mod Frac.denominator a < Frac.denominator a)%Z
  /\ gomory_coefficient a <= 0.
Proof.
  assert (Hmod : (0 <= Frac.numerator a mod Frac.denominator a < Frac.denominator a)%Z)
    by (apply Z.mod_pos_bound; reflexivity).
  unfold gomory_coefficient. split; [| split; [exact Hmod |]].
  - rewrite Qred_correct. unfold Frac.denominator. rewrite <- Qmake_Qdiv. reflexivity.
  - rewrite Qred_correct. unfold Qle. simpl. lia.
Qed.

Lemma for_each_seq_inv_Ok {St : Type} (I : nat -> St -> Prop)
      (body : St -> nat -> result St) :
  forall (n a : nat) (s0 s' : St),
    I a s0 ->
    (forall k s s1, (a <= k < a + n)%nat -> I k s -> body s k = Ok s1 -> I (S k) s1) ->
    for_each (seq a n) body s0 = Ok s' -> I (a + n)%nat s'.
Proof.
  induction n as [| n IH]; intros a s0 s' H0 Hstep Hrun.
  - injection Hrun as <-. rewrite Nat.add_0_r. exact H0.
  - simpl in Hrun. destruct (body s0 a) as [s1 | e |] eqn:Hb; cbn [bind] in Hrun;
      try discriminate.
    replace (a + S n)%nat with (S a + n)%nat by lia.
    apply (IH (S a) s1 s').
    + apply (Hstep a s0 s1); [lia | exact H0 | exact Hb].
    + intros k s s2 Hk. apply Hstep. lia.
    + exact Hrun.
Qed.

Lemma find_max_fractional_index_range (t : table) (r : nat) :
  (2 <= length t)%nat ->
  F.find_max_fractional_index t = Ok r -> (1 <= r < length t)%nat.
Proof.
  intros Hrows Hrun. unfold F.find_max_fractional_index, range in Hrun.
  apply (for_each_seq_inv_Ok (fun _ idx => (1 <= idx < length t)%nat)) in Hrun;
    [exact Hrun | lia |].
  intros k s s1 Hk Hs Hb.
  destruct (F.fractional_part t k); cbn [bind] in Hb; try discriminate.
  destruct (F.fractional_part t s); cbn [bind] in Hb; try discriminate.
  destruct (Frac.ltb _ _); injection Hb as <-; lia.
Qed.

Section Cut.

Variable t2 : table.
Variable index : nat.
Hypothesis Hrect : rectangular t2.
Hypothesis Hpos : (0 < length t2)%nat.
Hypothesis Hindex : (index < length t2)%nat.

Let cut_step : table -> nat * Q -> result table :=
  fun t '(j, coeff) =>
    if negb (Frac.eqb coeff 0) then
      v <- F.clipping_coeff coeff ;;
      set_cell t (length t - 1) j v
    else Ok t.

Lemma cut_body (j0 : nat) (tk : table) :
  (j0 < columns t2)%nat ->
  cut_inv t2 index j0 tk ->
  exists tk', cut_step tk (j0, entry t2 index j0) = Ok tk' /\
              cut_inv t2 index (S j0) tk'.
Proof.
  intros Hj [Hs He]. unfold cut_step.
  assert (Hl : length tk = length t2) by apply Hs.
  destruct (Frac.eqb (entry t2 index j0) 0) eqn:Ez; cbn [negb].
  - exists tk. split; [reflexivity |]. split; [exact Hs |].
    intros i j. rewrite He.
    destruct (Nat.eqb_spec j j0) as [-> | Hne].
    + rewrite Ez. cbn [negb]. rewrite !andb_false_r. reflexivity.
    + destruct (Nat.ltb_spec j j0); destruct (Nat.ltb_spec j (S j0)); try lia; reflexivity.
  - rewrite clipping_coeff_Ok. cbn [bind].
    destruct (set_cell_spec tk (length tk - 1) j0 (gomory_coefficient (entry t2 index j0)))
      as (tk' & Hset & Hs' & He').
    + lia.
    + rewrite (shape_row_length t2 tk _ Hrect Hs) by lia. exact Hj.
    + exists tk'. split; [exact Hset |].
      split; [eapply same_shape_trans; eassumption |].
      intros i j. rewrite He', He, Hl.
      destruct (Nat.eqb_spec i (length t2 - 1)) as [-> | Hi]; cbn [andb]; [| reflexivity].
      destruct (Nat.eqb_spec j j0) as [-> | Hne].
      * rewrite (proj2 (Nat.ltb_lt j0 (S j0))) by lia. rewrite Ez. reflexivity.
      * destruct (Nat.ltb_spec j j0); destruct (Nat.ltb_spec j (S j0)); try lia;
          reflexivity.
Qed.

Lemma cut_loop :
  exists t3,
    for_each (enumerate (nth index t2 [])) cut_step t2 = Ok t3 /\
    cut_inv t2 index (columns t2) t3.
Proof.
  rewrite (for_each_enumerate 0).
  rewrite (Hrect index Hindex). fold (columns t2).
  apply (for_each_seq_inv (cut_inv t2 index)
           (fun s j => cut_step s (j, nth j (nth index t2 []) 0)) (columns t2) 0 t2).
  - split; [apply same_shape_refl |]. intros i j.
    rewrite (proj2 (Nat.ltb_ge j 0)) by lia. rewrite andb_false_r. reflexivity.
  - intros k s Hk. apply cut_body. lia.
Qed.

End Cut.

(** The table after the first loop of [add_clipping], in terms of the
    table [t] it was given: a zero before the last entry of every row of
    [t], and a new row of zeros with a one before its last entry. *)
Lemma widened_table (t t2 : table) :
  rectangular t -> (1 <= length t)%nat ->
  widen_inv (t ++ [repeat (Frac.of_int 0) (columns t)]) (S (length t)) t2 ->
  length t2 = S (length t) /\
  rectangular t2 /\ columns t2 = S (columns t) /\
  (forall i j, (i < length t)%nat ->
     entry t2 i j = if (j <? columns t - 1)%nat then entry t i j
                    else if (j =? columns t - 1)%nat then 0 else entry t i (j - 1)) /\
  (forall j, entry t2 (length t) j = if (j =? columns t - 1)%nat then 1 else 0).
Proof.
  intros Hrect Hrows [Hl Hw].
  rewrite last_length in Hl, Hw.
  assert (Hrow : forall i, (i < length t)%nat ->
             nth i t2 [] = PyList.insert_before_last (nth i t []) (Frac.of_int 0)).
  { intros i Hi. rewrite Hw. rewrite (proj2 (Nat.ltb_lt i (S (length t)))) by lia.
    unfold widen. rewrite (proj2 (Nat.eqb_neq i (S (length t) - 1))) by lia.
    rewrite app_nth1 by lia. reflexivity. }
  assert (Hcut : nth (length t) t2 [] =
                 PyList.insert_before_last (repeat (Frac.of_int 0) (columns t))
                   (Frac.of_int 1)).
  { rewrite Hw. rewrite (proj2 (Nat.ltb_lt (length t) (S (length t)))) by lia.
    unfold widen. rewrite (proj2 (Nat.eqb_eq (length t) (S (length t) - 1))) by lia.
    rewrite app_nth2 by lia. rewrite Nat.sub_diag. reflexivity. }
  assert (Hlen : forall i, (i < S (length t))%nat -> length (nth i t2 []) = S (columns t)).
  { intros i Hi. destruct (Nat.eq_dec i (length t)) as [-> | Hne].
    - rewrite Hcut, length_insert_before_last, repeat_length. reflexivity.
    - rewrite Hrow by lia. rewrite length_insert_before_last.
      f_equal. apply Hrect. lia. }
  split; [exact Hl |].
  split; [intros i Hi; rewrite !Hlen by lia; reflexivity |].
  split; [apply Hlen; lia |].
  split.
  - intros i j Hi. unfold entry. rewrite Hrow by exact Hi.
    rewrite nth_insert_before_last. rewrite (Hrect i Hi). reflexivity.
  - intros j. unfold entry. rewrite Hcut.
    rewrite nth_insert_before_last, repeat_length.
    change (Frac.of_int 0) with 0. rewrite !nth_repeat.
    destruct (Nat.ltb_spec j (columns t - 1)); destruct (Nat.eqb_spec j (columns t - 1));
      try lia; reflexivity.
Qed.

(** C8: on a rectangular table with at least one constraint row, whose
    source row [r] has been selected, [add_clipping] returns the table with
    one more column and one more row, in which every old row keeps its
    entries around a zero in the new column, the new row has a one in the
    new column, the coefficient [-(a.numerator mod a.denominator) /
    a.denominator] wherever the entry [a] of the source row is not zero,
    and a right-hand side that is at most zero. *)
Theorem add_clipping_cut_row
    (t : table) (basic_vars : list nat) (r : nat)
    (Hrect : rectangular t)
    (Hrows : (2 <= length t)%nat)
    (Hcols : (1 <= columns t)%nat)
    (Hsrc : F.find_max_fractional_index t = Ok r) :
  exists t' basic_vars',
    F.add_clipping t basic_vars = Ok (t', basic_vars') /\
    (1 <= r < length t)%nat /\
    length t' = S (length t) /\
    (forall i, (i <= length t)%nat -> length (nth i t' []) = S (columns t)) /\
    basic_vars' = basic_vars ++ [length t] /\
    (forall i j, (i < length t)%nat -> (j < columns t - 1)%nat ->
                 entry t' i j = entry t i j) /\
    (forall i, (i < length t)%nat -> rhs t' i = rhs t i) /\
    (forall i, (i < length t)%nat -> entry t' i (columns t - 1) = 0) /\
    entry t' (length t) (columns t - 1) = 1 /\
    (forall j, (j <= columns t)%nat -> ~ entry t' r j == 0 ->
               entry t' (length t) j = gomory_coefficient (entry t' r j)) /\
    (forall j, (j <= columns t)%nat -> j <> (columns t - 1)%nat ->
               entry t' r j == 0 -> entry t' (length t) j = 0) /\
    rhs t' (length t) <= 0 /\
    (forall a,
        gomory_coefficient a ==
          inject_Z (- (Frac.numerator a mod Frac.denominator a))
          / inject_Z (Frac.denominator a) /\
        (0 <= Frac.numerator a mod Frac.denominator a < Frac.denominator a)%Z).
Proof.
  pose proof (find_max_fractional_index_range t r Hrows Hsrc) as Hr.
  unfold F.add_clipping. rewrite Hsrc. cbn [bind]. unfold F.add_clipping_from.
  rewrite (getitem_nth t 0 []) by lia. cbn [bind]. fold (columns t).
  destruct (widen_loop (t ++ [repeat (Frac.of_int 0) (columns t)])) as (t2 & Hloop & Hw).
  rewrite Hloop. cbn [bind]. clear Hloop.
  rewrite last_length in Hw.
  destruct (widened_table t t2 Hrect ltac:(lia) Hw) as (Hl2 & Hrect2 & Hc2 & Hold & Hnew).
  rewrite (getitem_nth t2 r []) by lia. cbn [bind].
  destruct (cut_loop t2 r Hrect2 ltac:(lia) ltac:(lia)) as (t3 & Hcut & Hs3 & He3).
  rewrite Hcut. cbn [bind]. clear Hcut.
  assert (Hl3 : length t3 = S (length t)) by (destruct Hs3 as [Hl3 _]; lia).
  rewrite Hl2, Hc2 in He3.
  replace (S (length t) - 1)%nat with (length t) in He3 by lia.
  assert (Hkeep : forall i j, (i < length t)%nat -> entry t3 i j = entry t2 i j).
  { intros i j Hi. rewrite He3.
    rewrite (proj2 (Nat.eqb_neq i (length t))) by lia. reflexivity. }
  assert (Hrhs : forall t0 i, length (nth i t0 []) = S (columns t) ->
                              rhs t0 i = entry t0 i (columns t)).
  { intros t0 i Hlen. unfold rhs, entry.
    rewrite <- nth_pred_length_last, Hlen. f_equal. lia. }
  assert (Hlen3 : forall i, (i <= length t)%nat -> length (nth i t3 []) = S (columns t)).
  { intros i Hi. rewrite <- Hc2. apply (shape_row_length t2 t3 i Hrect2 Hs3). lia. }
  exists t3, (basic_vars ++ [length t]).
  split; [rewrite Hl3; repeat f_equal; lia |].
  split; [exact Hr |].
  split; [exact Hl3 |].
  split; [exact Hlen3 |].
  split; [reflexivity |].
  split.
  { intros i j Hi Hj. rewrite Hkeep, Hold by exact Hi.
    rewrite (proj2 (Nat.ltb_lt j (columns t - 1))) by exact Hj. reflexivity. }
  split.
  { intros i Hi. rewrite (Hrhs t3 i) by (apply Hlen3; lia).
    rewrite Hkeep, Hold by exact Hi.
    rewrite (proj2 (Nat.ltb_ge (columns t) (columns t - 1))) by lia.
    rewrite (proj2 (Nat.eqb_neq (columns t) (columns t - 1))) by lia.
    unfold rhs, entry. rewrite <- nth_pred_length_last, (Hrect i Hi). reflexivity. }
  split.
  { intros i Hi. rewrite Hkeep, Hold by exact Hi.
    rewrite Nat.ltb_irrefl, Nat.eqb_refl. reflexivity. }
  assert (Hsrc0 : entry t2 r (columns t - 1) = 0).
  { rewrite Hold by lia. rewrite Nat.ltb_irrefl, Nat.eqb_refl. reflexivity. }
  split.
  { rewrite He3, Hsrc0. change (Frac.eqb 0 0) with true. cbn [negb].
    rewrite andb_false_r. rewrite Hnew, Nat.eqb_refl. reflexivity. }
  split.
  { intros j Hj Hnz. rewrite (Hkeep r j) in * by lia. rewrite He3.
    rewrite Nat.eqb_refl, (proj2 (Nat.ltb_lt j (S (columns t)))) by lia.
    rewrite (proj2 (eqb_false _ 0) Hnz). reflexivity. }
  split.
  { intros j Hj Hne Hz. rewrite (Hkeep r j) in * by lia. rewrite He3.
    rewrite (proj2 (eqb_true _ 0) Hz). cbn [negb]. rewrite andb_false_r.
    rewrite Hnew. rewrite (proj2 (Nat.eqb_neq j (columns t - 1))) by exact Hne.
    reflexivity. }
  split.
  { rewrite (Hrhs t3 (length t)) by (apply Hlen3; lia). rewrite He3.
    destruct ((length t =? length t)%nat && (columns t <? S (columns t))%nat
              && negb (Frac.eqb (entry t2 r (columns t)) 0)).
    - apply gomory_coefficient_value.
    - rewrite Hnew. rewrite (proj2 (Nat.eqb_neq (columns t) (columns t - 1))) by lia.
      apply Qle_refl. }
  intros a. destruct (gomory_coefficient_value a) as (Hv & Hm & _). split; assumption.
Qed.

Lemma add_clipping_cut_row_witness :
  let t := [[0; 0; -8 # 9; -14 # 9; -376 # 9];
            [0; 1; 2 # 9; -1 # 9; 22 # 9];
            [1; 0; -1 # 18; 5 # 18; 61 # 18]] in
  exists t' basic_vars',
    F.add_clipping t [0; 1; 0]%nat = Ok (t', basic_vars') /\
    (1 <= 1 < length t)%nat /\
    length t' = S (length t) /\
    (forall i, (i <= length t)%nat -> length (nth i t' []) = S (columns t)) /\
    basic_vars' = [0; 1; 0]%nat ++ [length t] /\
    (forall i j, (i < length t)%nat -> (j < columns t - 1)%nat ->
                 entry t' i j = entry t i j) /\
    (forall i, (i < length t)%nat -> rhs t' i = rhs t i) /\
    (forall i, (i < length t)%nat -> entry t' i (columns t - 1) = 0) /\
    entry t' (length t) (columns t - 1) = 1 /\
    (forall j, (j <= columns t)%nat -> ~ entry t' 1 j == 0 ->
               entry t' (length t) j = gomory_coefficient (entry t' 1 j)) /\
    (forall j, (j <= columns t)%nat -> j <> (columns t - 1)%nat ->
               entry t' 1 j == 0 -> entry t' (length t) j = 0) /\
    rhs t' (length t) <= 0 /\
    (forall a,
        gomory_coefficient a ==
          inject_Z (- (Frac.numerator a mod Frac.denominator a))
          / inject_Z (Frac.denominator a) /\
        (0 <= Frac.numerator a mod Frac.denominator a < Frac.denominator a)%Z).
Proof.
  intros t.
  apply (add_clipping_cut_row t [0; 1; 0]%nat 1).
  - intros i Hi. simpl in Hi. destruct i as [| [| [| i]]]; simpl; try lia; reflexivity.
  - simpl. lia.
  - unfold columns. simpl. lia.
  - vm_compute. reflexivity.
Defined.

(** * Further properties of the code *)

(** ** Generic facts about loops and rows *)

Lemma for_each_inv_Ok {A St : Type} (I : St -> Prop) (body : St -> A -> result St) :
  forall (xs : list A) (s0 s' : St),
    I s0 ->
    (forall s x s1, In x xs -> I s -> body s x = Ok s1 -> I s1) ->
    for_each xs body s0 = Ok s' -> I s'.
Proof.
  induction xs as [| x xs IH]; intros s0 s' H0 Hstep Hrun.
  - injection Hrun as <-. exact H0.
  - simpl in Hrun. destruct (body s0 x) as [s1 | e |] eqn:Hb; cbn [bind] in Hrun;
      try discriminate.
    apply (IH s1 s').
    + apply (Hstep s0 x s1); [left; reflexivity | exact H0 | exact Hb].
    + intros s y s2 Hy. apply Hstep. right. exact Hy.
    + exact Hrun.
Qed.

Lemma from1_rows (t : table) (x : row) :
  In x (PyList.from1 t) <-> exists i, (1 <= i < length t)%nat /\ nth i t [] = x.
Proof.
  destruct t as [| r0 t']; simpl.
  - split; [contradiction | intros (i & Hi & _); lia].
  - split.
    + intros Hx. destruct (In_nth _ _ [] Hx) as (i & Hi & <-).
      exists (S i). split; [lia | reflexivity].
    + intros (i & Hi & <-). destruct i as [| i]; [lia |].
      apply nth_In. lia.
Qed.

Lemma rhs_loop (xs : list row) :
  (forall x, In x xs -> x <> []) ->
  forall acc,
    for_each xs (fun B x => b <- PyList.getlast x ;; Ok (B ++ [b])) acc
    = Ok (acc ++ map (fun x => last x 0) xs).
Proof.
  induction xs as [| x xs IH]; intros Hin acc; simpl.
  - rewrite app_nil_r. reflexivity.
  - rewrite (getlast_last x 0) by (apply Hin; left; reflexivity). cbn [bind].
    rewrite IH by (intros y Hy; apply Hin; right; exact Hy).
    rewrite <- app_assoc. reflexivity.
Qed.

Lemma rhs_loop_raise (xs : list row) :
  In [] xs ->
  forall acc,
    for_each xs (fun B x => b <- PyList.getlast x ;; Ok (B ++ [b])) acc
    = Raise IndexError.
Proof.
  induction xs as [| x xs IH]; intros Hin acc; [contradiction |].
  simpl. destruct x as [| a x'].
  - reflexivity.
  - rewrite (getlast_last (a :: x') 0) by discriminate. cbn [bind].
    apply IH. destruct Hin as [E | Hin]; [discriminate | exact Hin].
Qed.

(** ** The integer test *)

Lemma Qred_integer (z : Z) : Qred (inject_Z z) = inject_Z z.
Proof. apply Qcanon.Qred_identity. simpl. apply Z.gcd_1_r. Qed.

Lemma denominator_one (x : Q) :
  (Frac.denominator x =? 1)%Z = true <-> integral x.
Proof.
  unfold Frac.denominator, integral. rewrite Z.eqb_eq. split.
  - intros H. exists (Qnum (Qred x)).
    rewrite <- (Qred_correct x) at 1.
    destruct (Qred x) as [n d]. simpl in *. injection H as ->. reflexivity.
  - intros [z Hz]. rewrite (Qred_complete _ _ Hz), Qred_integer. reflexivity.
Qed.

Lemma check_integer_condition_value (t : table) :
  (forall i, (1 <= i < length t)%nat -> nth i t [] <> []) ->
  F.check_integer_condition t
  = Ok (forallb (fun x => Frac.leb 0 x) (rhs_list t)
        && forallb (fun x => (Frac.denominator x =? 1)%Z) (rhs_list t)).
Proof.
  intros Hne. unfold F.check_integer_condition.
  rewrite (rhs_loop (PyList.from1 t)).
  - cbn [bind app]. fold (rhs_list t). rewrite !filter_all_length. reflexivity.
  - intros x Hx. apply from1_rows in Hx. destruct Hx as (i & Hi & <-).
    apply Hne. exact Hi.
Qed.

Lemma rhs_list_forall (t : table) (P : Q -> Prop) :
  Forall P (rhs_list t) <-> forall i, (1 <= i < length t)%nat -> P (rhs t i).
Proof.
  unfold rhs_list, rhs. rewrite Forall_map, Forall_forall. split.
  - intros H i Hi. apply H. apply from1_rows. exists i. auto.
  - intros H x Hx. apply from1_rows in Hx. destruct Hx as (i & Hi & <-). apply H. exact Hi.
Qed.

Lemma check_integer_condition_true (t : table) :
  (forall i, (1 <= i < length t)%nat -> nth i t [] <> []) ->
  (F.check_integer_condition t = Ok true <->
   forall i, (1 <= i < length t)%nat -> 0 <= rhs t i /\ integral (rhs t i)).
Proof.
  intros Hne. rewrite (check_integer_condition_value t Hne).
  split.
  - intros [= H]. apply andb_true_iff in H. destruct H as [Hp Hi].
    rewrite forallb_forall in Hp, Hi.
    apply (rhs_list_forall t (fun x => 0 <= x /\ integral x)).
    apply Forall_forall. intros x Hx. split.
    + apply Qle_bool_iff. apply Hp. exact Hx.
    + apply denominator_one. apply Hi. exact Hx.
  - intros H. apply (rhs_list_forall t (fun x => 0 <= x /\ integral x)) in H.
    rewrite Forall_forall in H. f_equal. apply andb_true_iff. split.
    + apply forallb_forall. intros x Hx. apply Qle_bool_iff. apply (H x Hx).
    + apply forallb_forall. intros x Hx. apply denominator_one. apply (H x Hx).
Qed.

(** X1: on a table whose constraint rows are not empty,
    [check_integer_condition] returns, and it is [True] exactly when the
    right-hand side of every row from 1 on is at least zero and an integer;
    the objective row is not looked at, so a table without constraint rows
    passes.  An empty constraint row raises [IndexError]. *)
Theorem check_integer_condition_integer_feasible (t : table) :
  ((forall i, (1 <= i < length t)%nat -> nth i t [] <> []) ->
   exists b,
     F.check_integer_condition t = Ok b /\
     (b = true <->
      forall i, (1 <= i < length t)%nat -> 0 <= rhs t i /\ integral (rhs t i))) /\
  ((length t <= 1)%nat -> F.check_integer_condition t = Ok true) /\
  ((exists i, (1 <= i < length t)%nat /\ nth i t [] = []) ->
   F.check_integer_condition t = Raise IndexError).
Proof.
  split; [| split].
  - intros Hne. pose proof (check_integer_condition_true t Hne) as Htrue.
    destruct (F.check_integer_condition t) as [b | e |] eqn:E;
      try (rewrite (check_integer_condition_value t Hne) in E; discriminate).
    exists b. split; [reflexivity |]. rewrite <- Htrue.
    split; [intros ->; reflexivity | intros [= ->]; reflexivity].
  - intros Hl. destruct t as [| r0 [| r1 t']]; simpl in Hl; try lia; reflexivity.
  - intros (i & Hi & Hrow). unfold F.check_integer_condition.
    rewrite rhs_loop_raise; [reflexivity |].
    apply from1_rows. exists i. auto.
Qed.

(** ** The key column *)

Lemma cell_row0 (t : table) (r0 : row) (j : nat) :
  nth_error t 0 = Some r0 -> cell t 0 j = PyList.getitem r0 j.
Proof. intros H. unfold cell, PyList.getitem at 1. rewrite H. reflexivity. Qed.

Lemma find_key_column_loop (t : table) (r0 : row) :
  nth_error t 0 = Some r0 ->
  exists c,
    F.find_key_column t = Ok c /\ last_max_inv r0 (length r0 - 1) c.
Proof.
  intros H. unfold F.find_key_column. unfold PyList.getitem at 1. rewrite H.
  cbn [bind]. unfold range. rewrite Nat.sub_0_r.
  rewrite (for_each_ext _ _
             (fun key_row b =>
                x <- PyList.getitem r0 b ;;
                y <- PyList.getitem r0 key_row ;;
                if Frac.leb (Frac.abs y) (Frac.abs x) then Ok b else Ok key_row))
    by (intros s x _; rewrite !(cell_row0 t r0 _ H); reflexivity).
  apply (for_each_seq_inv (last_max_inv r0)
           (fun key_row b =>
              x <- PyList.getitem r0 b ;;
              y <- PyList.getitem r0 key_row ;;
              if Frac.leb (Frac.abs y) (Frac.abs x) then Ok b else Ok key_row)
           (length r0 - 1) 0 0%nat).
  - split; [reflexivity |]. split; [lia |]. intros i Hi. lia.
  - intros k s Hk. apply last_max_body. lia.
Qed.

(** X2: [find_key_column] returns, among the columns of the objective row
    other than the last one, the column whose entry is greatest in absolute
    value, and the latest of them when several are: the sign of the entry
    plays no part.  On an objective row of one entry or none it returns 0. *)
Theorem find_key_column_last_largest
    (t : table) (r0 : row) (H : nth_error t 0 = Some r0) :
  exists c,
    F.find_key_column t = Ok c /\
    ((length r0 <= 1)%nat -> c = 0%nat) /\
    ((2 <= length r0)%nat ->
     (c < length r0 - 1)%nat /\
     forall j, (j < length r0 - 1)%nat ->
               Qabs (nth j r0 0) <= Qabs (nth c r0 0) /\
               ((c < j)%nat -> Qabs (nth j r0 0) < Qabs (nth c r0 0))).
Proof.
  destruct (find_key_column_loop t r0 H) as (c & Hrun & H0 & Hlt & Hmax).
  exists c. split; [exact Hrun |]. split.
  - intros Hl. apply H0. lia.
  - intros Hl. split; [apply Hlt; lia | exact Hmax].
Qed.

Lemma find_key_column_last_largest_witness :
  exists c,
    F.find_key_column mixed_table = Ok c /\
    ((length mixed_row <= 1)%nat -> c = 0%nat) /\
    ((2 <= length mixed_row)%nat ->
     (c < length mixed_row - 1)%nat /\
     forall j, (j < length mixed_row - 1)%nat ->
               Qabs (nth j mixed_row 0) <= Qabs (nth c mixed_row 0) /\
               ((c < j)%nat -> Qabs (nth j mixed_row 0) < Qabs (nth c mixed_row 0))).
Proof.
  apply (find_key_column_last_largest mixed_table mixed_row).
  reflexivity.
Defined.

(** ** The pivot on a zero entry *)

(** X3: when the entry at a pivot position inside the table is zero,
    [simplex_step] raises [ZeroDivisionError]: nothing guards the division
    of the key row. *)
Theorem simplex_step_zero_pivot
    (t : table) (basic_vars : list nat) (key_column key_row : nat)
    (Hvars : (key_row < length basic_vars)%nat)
    (Hrow : (key_row < length t)%nat)
    (Hcol : (key_column < length (nth key_row t []))%nat)
    (Hcols : (1 <= columns t)%nat)
    (Hzero : entry t key_row key_column == 0) :
  F.simplex_step t basic_vars key_column key_row = Raise ZeroDivisionError.
Proof.
  unfold F.simplex_step. rewrite setitem_Ok by exact Hvars. cbn [bind].
  rewrite cell_entry by assumption. cbn [bind].
  unfold F.normalize_to_pivot.
  rewrite (getitem_nth t 0 []) by lia. cbn [bind].
  unfold range. rewrite Nat.sub_0_r. fold (columns t).
  destruct (columns t) as [| n]; [lia |]. simpl.
  rewrite cell_entry by (try assumption; lia). cbn [bind].
  unfold Frac.div. rewrite (proj2 (eqb_true _ 0) Hzero). reflexivity.
Qed.

Lemma simplex_step_zero_pivot_witness :
  F.simplex_step main_table [0; 2; 3]%nat 2 2 = Raise ZeroDivisionError.
Proof.
  apply simplex_step_zero_pivot.
  - simpl. lia.
  - simpl. lia.
  - simpl. lia.
  - unfold columns. simpl. lia.
  - reflexivity.
Defined.

(** ** Sums of rows *)

Lemma for_each_seq_raise {St : Type} (I : nat -> St -> Prop)
      (body : St -> nat -> result St) (e : exn) :
  forall (n a : nat) (s0 : St) (k : nat),
    (a <= k < a + n)%nat ->
    I a s0 ->
    (forall j s, (a <= j < k)%nat -> I j s ->
                 exists s', body s j = Ok s' /\ I (S j) s') ->
    (forall s, I k s -> body s k = Raise e) ->
    for_each (seq a n) body s0 = Raise e.
Proof.
  induction n as [| n IH]; intros a s0 k Hk H0 Hstep Hraise; [lia |].
  simpl. destruct (Nat.eq_dec a k) as [-> | Hne].
  - rewrite (Hraise s0 H0). reflexivity.
  - destruct (Hstep a s0 ltac:(lia) H0) as (s1 & Hb & H1). rewrite Hb. cbn [bind].
    apply (IH (S a) s1 k); [lia | exact H1 | | exact Hraise].
    intros j s Hj. apply Hstep. lia.
Qed.

Lemma getitem_out {A : Type} (l : list A) (i : nat) :
  (length l <= i)%nat -> PyList.getitem l i = Raise IndexError.
Proof.
  intros H. unfold PyList.getitem.
  rewrite (proj2 (nth_error_None l i) H). reflexivity.
Qed.

Lemma nth_map_in {A B : Type} (f : A -> B) (l : list A) (i : nat) (d : B) (d' : A) :
  (i < length l)%nat -> nth i (map f l) d = f (nth i l d').
Proof.
  intros Hi. rewrite (nth_indep (map f l) d (f d')) by (rewrite length_map; lia).
  apply map_nth.
Qed.

Lemma nth_map_seq {A : Type} (f : nat -> A) (n i : nat) (d : A) :
  (i < n)%nat -> nth i (map f (seq 0 n)) d = f i.
Proof.
  intros Hi. rewrite (nth_indep _ d (f 0%nat)) by (rewrite length_map, length_seq; lia).
  rewrite (map_nth f (seq 0 n) 0%nat i). rewrite seq_nth by lia. reflexivity.
Qed.

Lemma sum_rows_body (row1 row2 : row) (k : nat) (row_sum : row) :
  (k < length row1)%nat -> (k < length row2)%nat ->
  sum_rows_inv row1 row2 k row_sum ->
  exists row_sum',
    (a <- PyList.getitem row1 k ;;
     b <- PyList.getitem row2 k ;;
     PyList.setitem row_sum k (Frac.add a b)) = Ok row_sum' /\
    sum_rows_inv row1 row2 (S k) row_sum'.
Proof.
  intros H1 H2 [Hl He].
  rewrite (getitem_nth row1 k 0 H1). cbn [bind].
  rewrite (getitem_nth row2 k 0 H2). cbn [bind].
  rewrite setitem_Ok by lia. eexists. split; [reflexivity |].
  split; [rewrite length_replace; exact Hl |].
  intros i. destruct (Nat.eq_dec i k) as [-> | Hne].
  - rewrite nth_replace_eq by lia.
    rewrite (proj2 (Nat.ltb_lt k (S k))) by lia. reflexivity.
  - rewrite nth_replace_neq by congruence. rewrite He.
    destruct (Nat.ltb_spec i k); destruct (Nat.ltb_spec i (S k)); try lia; reflexivity.
Qed.

Lemma sum_rows_inv_init (row1 row2 : row) :
  sum_rows_inv row1 row2 0 (repeat (Frac.of_int 0) (length row1)).
Proof.
  split; [apply repeat_length |]. intros i.
  change (Frac.of_int 0) with 0. rewrite nth_repeat. reflexivity.
Qed.

Lemma sum_rows_Ok (row1 row2 : row) :
  (length row1 <= length row2)%nat ->
  F.sum_rows row1 row2 = Ok (pointwise_sum row1 row2).
Proof.
  intros Hl. unfold F.sum_rows, range. rewrite Nat.sub_0_r.
  destruct (for_each_seq_inv (sum_rows_inv row1 row2)
              (fun row_sum i =>
                 a <- PyList.getitem row1 i ;;
                 b <- PyList.getitem row2 i ;;
                 PyList.setitem row_sum i (Frac.add a b))
              (length row1) 0 (repeat (Frac.of_int 0) (length row1)))
    as (rs & Hrun & Hlen & He).
  - apply sum_rows_inv_init.
  - intros k s Hk. apply sum_rows_body; lia.
  - rewrite Hrun. f_equal. unfold pointwise_sum.
    apply (nth_ext _ _ 0 0).
    + rewrite length_map, length_seq. exact Hlen.
    + intros i Hi. rewrite He.
      rewrite (proj2 (Nat.ltb_lt i (0 + length row1))) by lia.
      rewrite nth_map_seq by lia. reflexivity.
Qed.

Lemma sum_rows_Raise (row1 row2 : row) :
  (length row2 < length row1)%nat ->
  F.sum_rows row1 row2 = Raise IndexError.
Proof.
  intros Hl. unfold F.sum_rows, range. rewrite Nat.sub_0_r.
  apply (for_each_seq_raise (sum_rows_inv row1 row2) _ IndexError
           (length row1) 0 _ (length row2)).
  - lia.
  - apply sum_rows_inv_init.
  - intros j s Hj. apply sum_rows_body; lia.
  - intros s _. rewrite (getitem_nth row1 _ 0) by lia. cbn [bind].
    rewrite getitem_out by lia. reflexivity.
Qed.

Lemma sum_rows_acc_body (row1 row2 : row) (k : nat) (acc : row) :
  (k < length row1)%nat -> (k < length row2)%nat ->
  sum_rows_acc_inv row1 row2 k acc ->
  exists acc',
    (a <- PyList.getitem row1 k ;;
     b <- PyList.getitem row2 k ;;
     Ok (acc ++ [Frac.add a b])) = Ok acc' /\
    sum_rows_acc_inv row1 row2 (S k) acc'.
Proof.
  intros H1 H2 ->.
  rewrite (getitem_nth row1 k 0 H1). cbn [bind].
  rewrite (getitem_nth row2 k 0 H2). cbn [bind].
  eexists. split; [reflexivity |].
  unfold sum_rows_acc_inv. rewrite seq_S, map_app. reflexivity.
Qed.

Lemma class_sum_rows_Ok (row1 row2 : row) :
  (length row1 <= length row2)%nat ->
  OO.sum_rows row1 row2 = Ok (pointwise_sum row1 row2).
Proof.
  intros Hl. unfold OO.sum_rows, range. rewrite Nat.sub_0_r.
  destruct (for_each_seq_inv (sum_rows_acc_inv row1 row2)
              (fun acc i =>
                 a <- PyList.getitem row1 i ;;
                 b <- PyList.getitem row2 i ;;
                 Ok (acc ++ [Frac.add a b]))
              (length row1) 0 []) as (acc & Hrun & Hacc).
  - reflexivity.
  - intros k s Hk. apply sum_rows_acc_body; lia.
  - rewrite Hrun, Hacc. reflexivity.
Qed.

Lemma class_sum_rows_Raise (row1 row2 : row) :
  (length row2 < length row1)%nat ->
  OO.sum_rows row1 row2 = Raise IndexError.
Proof.
  intros Hl. unfold OO.sum_rows, range. rewrite Nat.sub_0_r.
  apply (for_each_seq_raise (sum_rows_acc_inv row1 row2) _ IndexError
           (length row1) 0 _ (length row2)).
  - lia.
  - reflexivity.
  - intros j s Hj. apply sum_rows_acc_body; lia.
  - intros s _. rewrite (getitem_nth row1 _ 0) by lia. cbn [bind].
    rewrite getitem_out by lia. reflexivity.
Qed.

(** X4: [sum_rows] of [table_tools.py] returns the entry-wise sum over the
    length of its first row when the second row is at least as long (what
    the second row has beyond is ignored), and raises [IndexError] when the
    second row is shorter. *)
Theorem sum_rows_pointwise (row1 row2 : row) :
  ((length row1 <= length row2)%nat ->
   F.sum_rows row1 row2 = Ok (pointwise_sum row1 row2)) /\
  ((length row2 < length row1)%nat -> F.sum_rows row1 row2 = Raise IndexError).
Proof. split; [apply sum_rows_Ok | apply sum_rows_Raise]. Qed.

(** X5: the method [SimplexTable.sum_rows], which appends to a list, and
    the function [sum_rows], which fills a list of zeros, return the same
    on all rows, errors included. *)
Theorem sum_rows_same_in_both (row1 row2 : row) :
  OO.sum_rows row1 row2 = F.sum_rows row1 row2.
Proof.
  destruct (Nat.le_gt_cases (length row1) (length row2)) as [Hl | Hl].
  - rewrite class_sum_rows_Ok, sum_rows_Ok by exact Hl. reflexivity.
  - rewrite class_sum_rows_Raise, sum_rows_Raise by exact Hl. reflexivity.
Qed.

(** ** Dropping the artificial columns *)

Lemma delete_r_vars_row_spec (non_r_length : nat) :
  (1 <= non_r_length)%nat ->
  forall (fuel : nat) (r : row),
    (length r - non_r_length < fuel)%nat ->
    F.delete_r_vars_row fuel r (length r) non_r_length
    = if (non_r_length <=? length r)%nat then Ok (keep_non_r non_r_length r)
      else Raise IndexError.
Proof.
  intros Hpos. induction fuel as [| fuel IH]; intros r Hfuel; [lia |].
  cbn [F.delete_r_vars_row].
  destruct (Nat.eqb_spec (length r) non_r_length) as [E | Hne]; cbn [negb].
  - rewrite (proj2 (Nat.leb_le non_r_length (length r))) by lia.
    unfold keep_non_r. rewrite <- E. rewrite firstn_skipn. reflexivity.
  - unfold PyList.delitem.
    destruct (Nat.ltb_spec (non_r_length - 1) (length r)) as [Hlt | Hge]; cbn [bind].
    + assert (Hlen : length (firstn (non_r_length - 1) r
                             ++ skipn (S (non_r_length - 1)) r) = (length r - 1)%nat)
        by (rewrite length_app, length_firstn, length_skipn; lia).
      rewrite <- Hlen. rewrite IH by (rewrite Hlen; lia). rewrite Hlen.
      rewrite (proj2 (Nat.leb_le non_r_length (length r - 1))) by lia.
      rewrite (proj2 (Nat.leb_le non_r_length (length r))) by lia.
      f_equal. unfold keep_non_r. rewrite Hlen.
      assert (Hf : length (firstn (non_r_length - 1) r) = (non_r_length - 1)%nat)
        by (rewrite length_firstn; lia).
      rewrite firstn_app, Hf, Nat.sub_diag, firstn_O, app_nil_r, firstn_firstn.
      rewrite Nat.min_id.
      rewrite skipn_app, Hf, skipn_skipn.
      rewrite (skipn_all2 (n := length r - 1 - 1)) by lia.
      cbn [app]. f_equal. f_equal. lia.
    + rewrite (proj2 (Nat.leb_gt non_r_length (length r))) by lia. reflexivity.
Qed.

Lemma delete_body (t : table) (num_vars num_s_vars k : nat) (tk : table) :
  (k < length t)%nat ->
  delete_inv t (num_vars + num_s_vars + 1) k tk ->
  ((num_vars + num_s_vars + 1 <= length (nth k t []))%nat /\
   exists tk',
     (r <- PyList.getitem tk k ;;
      r' <- F.delete_r_vars_row (S (length r)) r (length r) (num_vars + num_s_vars + 1) ;;
      PyList.setitem tk k r') = Ok tk' /\
     delete_inv t (num_vars + num_s_vars + 1) (S k) tk') \/
  ((length (nth k t []) < num_vars + num_s_vars + 1)%nat /\
   (r <- PyList.getitem tk k ;;
    r' <- F.delete_r_vars_row (S (length r)) r (length r) (num_vars + num_s_vars + 1) ;;
    PyList.setitem tk k r') = Raise IndexError).
Proof.
  intros Hk (Hl & Hlong & Hrows).
  rewrite (getitem_nth tk k []) by lia. cbn [bind].
  rewrite Hrows, Nat.ltb_irrefl.
  rewrite delete_r_vars_row_spec by lia.
  destruct (Nat.leb_spec (num_vars + num_s_vars + 1) (length (nth k t []))) as [Hle | Hgt].
  - left. split; [exact Hle |]. cbn [bind]. rewrite setitem_Ok by lia.
    eexists. split; [reflexivity |].
    split; [rewrite length_replace; exact Hl |]. split.
    + intros i Hi Hi'. destruct (Nat.eq_dec i k) as [-> | Hne]; [exact Hle |].
      apply Hlong; lia.
    + intros i. destruct (Nat.eq_dec i k) as [-> | Hne].
      * rewrite nth_replace_eq by lia.
        rewrite (proj2 (Nat.ltb_lt k (S k))) by lia. reflexivity.
      * rewrite nth_replace_neq by congruence. rewrite Hrows.
        destruct (Nat.ltb_spec i k); destruct (Nat.ltb_spec i (S k)); try lia; reflexivity.
  - right. split; [exact Hgt | reflexivity].
Qed.

Lemma for_each_seq_or_raise {St : Type} (I : nat -> St -> Prop)
      (body : St -> nat -> result St) (e : exn) :
  forall (n a : nat) (s0 : St),
    I a s0 ->
    (forall j s, (a <= j < a + n)%nat -> I j s ->
                 (exists s', body s j = Ok s' /\ I (S j) s') \/ body s j = Raise e) ->
    (exists s', for_each (seq a n) body s0 = Ok s' /\ I (a + n)%nat s') \/
    for_each (seq a n) body s0 = Raise e.
Proof.
  induction n as [| n IH]; intros a s0 H0 Hstep.
  - left. exists s0. rewrite Nat.add_0_r. split; [reflexivity | exact H0].
  - simpl. destruct (Hstep a s0 ltac:(lia) H0) as [(s1 & Hb & H1) | Hb].
    + rewrite Hb. cbn [bind].
      replace (a + S n)%nat with (S a + n)%nat by lia.
      apply IH; [exact H1 |]. intros j s Hj. apply Hstep. lia.
    + right. rewrite Hb. reflexivity.
Qed.

Lemma delete_r_vars_outcome (t : table) (num_vars num_s_vars : nat) :
  (exists t',
      F.delete_r_vars t num_vars num_s_vars = Ok t' /\
      delete_inv t (num_vars + num_s_vars + 1) (length t) t') \/
  F.delete_r_vars t num_vars num_s_vars = Raise IndexError.
Proof.
  unfold F.delete_r_vars, range. rewrite Nat.sub_0_r.
  apply (for_each_seq_or_raise (delete_inv t (num_vars + num_s_vars + 1))
           (fun simplex_table i =>
              r <- PyList.getitem simplex_table i ;;
              r' <- F.delete_r_vars_row (S (length r)) r (length r)
                      (num_vars + num_s_vars + 1) ;;
              PyList.setitem simplex_table i r')
           IndexError (length t) 0 t).
  - split; [reflexivity |]. split; [intros i Hi; lia | intros i; reflexivity].
  - intros j s Hj Hinv.
    destruct (delete_body t num_vars num_s_vars j s ltac:(lia) Hinv)
      as [(_ & Hok) | (_ & Hraise)]; [left; exact Hok | right; exact Hraise].
Qed.

Lemma length_keep_non_r (non_r_length : nat) (r : row) :
  (1 <= non_r_length <= length r)%nat -> length (keep_non_r non_r_length r) = non_r_length.
Proof.
  intros H. unfold keep_non_r. rewrite length_app, length_firstn, length_skipn. lia.
Qed.

(** X6: [delete_r_vars] keeps of every row its first
    [num_vars + num_s_vars] entries and its last entry, so that every row
    ends with [num_vars + num_s_vars + 1] entries, when every row has at
    least that many; a shorter row makes it raise [IndexError]. *)
Theorem delete_r_vars_keeps (t : table) (num_vars num_s_vars : nat) :
  ((forall i, (i < length t)%nat ->
              (num_vars + num_s_vars + 1 <= length (nth i t []))%nat) ->
   F.delete_r_vars t num_vars num_s_vars
     = Ok (map (keep_non_r (num_vars + num_s_vars + 1)) t) /\
   forall r, In r (map (keep_non_r (num_vars + num_s_vars + 1)) t) ->
             length r = (num_vars + num_s_vars + 1)%nat) /\
  ((exists i, (i < length t)%nat /\
              (length (nth i t []) < num_vars + num_s_vars + 1)%nat) ->
   F.delete_r_vars t num_vars num_s_vars = Raise IndexError).
Proof.
  destruct (delete_r_vars_outcome t num_vars num_s_vars)
    as [(t' & Hrun & Hl & Hlong & Hrows) | Hraise].
  - split.
    + intros Hall. split.
      * rewrite Hrun. f_equal. apply (nth_ext _ _ [] []).
        -- rewrite length_map. exact Hl.
        -- intros i Hi. rewrite Hrows.
           rewrite (proj2 (Nat.ltb_lt i (length t))) by lia.
           rewrite (nth_map_in _ t i [] []) by lia. reflexivity.
      * intros r Hr. apply in_map_iff in Hr. destruct Hr as (r1 & <- & Hr1).
        destruct (In_nth _ _ [] Hr1) as (i & Hi & <-).
        apply length_keep_non_r. specialize (Hall i Hi). lia.
    + intros (i & Hi & Hshort). specialize (Hlong i Hi Hi). lia.
  - split.
    + intros Hall. exfalso.
      (* with every row long enough the loop cannot raise *)
      revert Hraise. unfold F.delete_r_vars, range. rewrite Nat.sub_0_r.
      destruct (for_each_seq_inv (delete_inv t (num_vars + num_s_vars + 1))
                  (fun simplex_table i =>
                     r <- PyList.getitem simplex_table i ;;
                     r' <- F.delete_r_vars_row (S (length r)) r (length r)
                             (num_vars + num_s_vars + 1) ;;
                     PyList.setitem simplex_table i r')
                  (length t) 0 t) as (t' & Hrun & _).
      * split; [reflexivity |]. split; [intros i Hi; lia | intros i; reflexivity].
      * intros k s Hk Hinv.
        destruct (delete_body t num_vars num_s_vars k s ltac:(lia) Hinv)
          as [(_ & Hok) | (Hshort & _)]; [exact Hok |].
        specialize (Hall k ltac:(lia)). lia.
      * rewrite Hrun. discriminate.
    + intros _. exact Hraise.
Qed.

(** ** The pivot as a Gauss-Jordan step *)

Lemma simplex_step_entries
    (t : table) (basic_vars : list nat) (key_column key_row : nat) :
  rectangular t ->
  (key_row < length t)%nat ->
  (key_column < columns t)%nat ->
  length basic_vars = length t ->
  ~ entry t key_row key_column == 0 ->
  exists t',
    F.simplex_step t basic_vars key_column key_row
      = Ok (t', PyList.replace basic_vars key_row key_column) /\
    same_shape t t' /\
    forall i j, (i < length t)%nat -> (j < columns t)%nat ->
      entry t' i j =
      if (i =? key_row)%nat
      then Qred (entry t key_row j / entry t key_row key_column)
      else Frac.sub (entry t i j)
             (Frac.mul (Qred (entry t key_row j / entry t key_row key_column))
                (entry t i key_column)).
Proof.
  intros Hrect Hrow Hcol Hvars Hpivot.
  destruct (normalize_to_pivot_spec t key_row Hrect Hrow _ Hpivot)
    as (tn & Hnorm & Hsn & Hen).
  destruct (rectangular_same_shape t tn Hrect Hsn) as [Hrn Hcn].
  assert (Hln : length tn = length t) by apply Hsn.
  destruct (make_key_column_zero_spec tn key_row key_column Hrn
              ltac:(lia) ltac:(lia)) as (tz & Hzero & Hsz & Hez).
  exists tz. split.
  { unfold F.simplex_step.
    rewrite setitem_Ok by lia. cbn [bind].
    rewrite cell_entry by (try lia; rewrite Hrect by lia; exact Hcol). cbn [bind].
    rewrite Hnorm. cbn [bind]. rewrite Hzero. reflexivity. }
  split; [eapply same_shape_trans; eassumption |].
  intros i j Hi Hj. rewrite Hez, Hcn, Hln.
  rewrite (proj2 (Nat.ltb_lt i (length t))) by exact Hi.
  rewrite (proj2 (Nat.ltb_lt j (columns t))) by exact Hj.
  rewrite !Hen. rewrite Nat.eqb_refl.
  rewrite (proj2 (Nat.ltb_lt j (columns t))) by exact Hj.
  rewrite (proj2 (Nat.ltb_lt key_column (columns t))) by exact Hcol.
  destruct (Nat.eqb_spec i key_row) as [-> | Hne]; cbn [andb negb]; reflexivity.
Qed.





(** ** The minimum-ratio test keeps the right-hand sides feasible *)

Lemma last_as_nth (l : list Q) (d : Q) : last l d = nth (length l - 1) l d.
Proof.
  induction l as [| a l IH]; [reflexivity |].
  destruct l as [| b l]; [reflexivity |].
  change (last (a :: b :: l) d) with (last (b :: l) d). rewrite IH.
  replace (length (a :: b :: l) - 1)%nat with (S (length (b :: l) - 1))
    by (cbn [length]; lia).
  reflexivity.
Qed.

Lemma rhs_as_entry (t : table) (i : nat) :
  rectangular t -> (i < length t)%nat -> rhs t i = entry t i (columns t - 1).
Proof.
  intros Hrect Hi. unfold rhs, entry. rewrite last_as_nth.
  rewrite (Hrect i Hi). reflexivity.
Qed.

Lemma find_key_row_Ok (t : table) (key_column key_row : nat) (w : list string) :
  rectangular t ->
  (key_column < columns t)%nat ->
  F.find_key_row t key_column = Ok (key_row, w) ->
  (1 <= key_row < length t)%nat /\
  0 < entry t key_row key_column /\
  forall i, (1 <= i < length t)%nat -> 0 < entry t i key_column ->
            ratio t key_column key_row <= ratio t key_column i.
Proof.
  intros Hrect Hcol Hrun.
  assert (Hwf : forall i, (1 <= i < length t)%nat ->
                          (key_column < length (nth i t []))%nat).
  { intros i Hi. rewrite Hrect by lia. exact Hcol. }
  destruct (key_row_loop t key_column Hwf) as (s & Hloop & Hinv).
  unfold F.find_key_row in Hrun. rewrite Hloop in Hrun. cbn [bind] in Hrun.
  destruct s as [[m |] r]; [| discriminate Hrun].
  assert (Hr : r = key_row).
  { destruct (Frac.eqb m 0); inversion Hrun; reflexivity. }
  subst r. unfold key_row_inv in Hinv.
  destruct Hinv as (Hk & Hpos & _ & Hmin).
  split; [lia |]. split; [exact Hpos |].
  intros i Hi Hipos. apply (Hmin i); [lia | exact Hipos].
Qed.

Lemma pivot_rhs_nonneg (b bi p a : Q) :
  0 < p -> 0 <= b -> 0 <= bi ->
  (0 < a -> b / p <= bi / a) ->
  0 <= bi - b / p * a.
Proof.
  intros Hp Hb Hbi Hmin.
  assert (Hq : 0 <= b / p).
  { apply Qle_shift_div_l; [exact Hp |]. rewrite Qmult_0_l. exact Hb. }
  destruct (Qlt_le_dec 0 a) as [Ha | Ha].
  - assert (H : b / p * a <= bi).
    { apply Qle_trans with (bi / a * a).
      - apply Qmult_le_compat_r; [exact (Hmin Ha) | apply Qlt_le_weak; exact Ha].
      - assert (E : bi / a * a == bi).
        { field. intros E. rewrite E in Ha. exact (Qlt_irrefl 0 Ha). }
        rewrite E. apply Qle_refl. }
    rewrite <- (Qplus_opp_r (b / p * a)).
    apply Qplus_le_compat; [exact H | apply Qle_refl].
  - assert (H : 0 <= b / p * - a).
    { apply Qmult_le_0_compat; [exact Hq |].
      rewrite <- (Qplus_opp_r a). rewrite <- (Qplus_0_l (- a)) at 2.
      apply Qplus_le_compat; [exact Ha | apply Qle_refl]. }
    assert (E : bi - b / p * a == bi + b / p * - a) by ring.
    rewrite E. rewrite <- (Qplus_0_l 0).
    apply Qplus_le_compat; assumption.
Qed.

(** X9: on a rectangular table whose constraint rows have nonnegative
    right-hand sides, the pivot on the row that [find_key_row] returns for
    a column succeeds and leaves every constraint row with a nonnegative
    right-hand side. *)
Theorem simplex_step_keeps_feasible
    (t : table) (basic_vars : list nat) (key_column key_row : nat)
    (w : list string)
    (Hrect : rectangular t)
    (Hcol : (key_column < columns t)%nat)
    (Hvars : length basic_vars = length t)
    (Hfeasible : forall i, (1 <= i < length t)%nat -> 0 <= rhs t i)
    (Hkey : F.find_key_row t key_column = Ok (key_row, w)) :
  exists t' basic_vars',
    F.simplex_step t basic_vars key_column key_row = Ok (t', basic_vars') /\
    length t' = length t /\
    forall i, (1 <= i < length t)%nat -> 0 <= rhs t' i.
Proof.
  destruct (find_key_row_Ok t key_column key_row w Hrect Hcol Hkey)
    as (Hrow & Hpos & Hmin).
  assert (Hpivot : ~ entry t key_row key_column == 0).
  { intros E. rewrite E in Hpos. exact (Qlt_irrefl 0 Hpos). }
  destruct (simplex_step_entries t basic_vars key_column key_row
              Hrect ltac:(lia) Hcol Hvars Hpivot) as (t' & Hrun & Hshape & He).
  destruct (rectangular_same_shape t t' Hrect Hshape) as [Hrect' Hcols'].
  assert (Hlen : length t' = length t) by apply Hshape.
  exists t', (PyList.replace basic_vars key_row key_column).
  split; [exact Hrun |]. split; [exact Hlen |].
  intros i Hi.
  rewrite (rhs_as_entry t' i Hrect') by lia. rewrite Hcols'.
  rewrite (He i (columns t - 1)%nat) by lia.
  pose proof (rhs_as_entry t key_row Hrect ltac:(lia)) as Ek.
  pose proof (rhs_as_entry t i Hrect ltac:(lia)) as Ei.
  rewrite <- Ek.
  destruct (Nat.eqb_spec i key_row) as [-> | Hne].
  - rewrite Qred_correct. apply Qle_shift_div_l; [exact Hpos |].
    rewrite Qmult_0_l. apply Hfeasible. lia.
  - rewrite <- Ei. unfold Frac.sub, Frac.mul. rewrite !Qred_correct.
    apply pivot_rhs_nonneg.
    + exact Hpos.
    + apply Hfeasible. lia.
    + apply Hfeasible. lia.
    + intros Ha. apply (Hmin i Hi Ha).
Qed.

Lemma simplex_step_keeps_feasible_witness :
  exists t' basic_vars',
    F.simplex_step main_table [0; 2; 3]%nat 0 2 = Ok (t', basic_vars') /\
    length t' = length main_table /\
    forall i, (1 <= i < length main_table)%nat -> 0 <= rhs t' i.
Proof.
  apply (simplex_step_keeps_feasible main_table [0; 2; 3]%nat 0 2 []).
  - intros i Hi. simpl in Hi. destruct i as [| [| [| i]]]; simpl; try lia; reflexivity.
  - unfold columns. simpl. lia.
  - reflexivity.
  - intros i Hi. simpl in Hi.
    destruct i as [| [| [| i]]]; try lia; vm_compute; discriminate.
  - vm_compute. reflexivity.
Defined.

(** ** The key column of the Gomory step *)

Lemma le_inf_spec (a b : option Q) : F.le_inf a b = true <-> inf_le a b.
Proof.
  destruct a as [x |], b as [y |]; cbn [F.le_inf inf_le];
    try (split; [intros _; exact I | reflexivity]).
  - apply leb_true.
  - split; [discriminate | intros []].
Qed.

Lemma inf_le_trans (a b c : option Q) : inf_le a b -> inf_le b c -> inf_le a c.
Proof.
  destruct a as [x |], b as [y |], c as [z |]; cbn [inf_le]; try tauto.
  apply Qle_trans.
Qed.

Lemma inf_le_total (a b : option Q) : ~ inf_le a b -> inf_le b a.
Proof.
  destruct a as [x |], b as [y |]; cbn [inf_le]; try tauto.
  intros H. apply Qlt_le_weak. apply Qnot_le_lt. exact H.
Qed.

Lemma inf_le_refl (a : option Q) : inf_le a a.
Proof. destruct a; cbn [inf_le]; [apply Qle_refl | exact I]. Qed.

Lemma for_each_append_map {A B : Type} (f : A -> B) (body : list B -> A -> result (list B)) :
  (forall acc x, body acc x = Ok (acc ++ [f x])) ->
  forall xs acc, for_each xs body acc = Ok (acc ++ map f xs).
Proof.
  intros Hbody. induction xs as [| x xs IH]; intros acc.
  - simpl. rewrite app_nil_r. reflexivity.
  - simpl. rewrite Hbody. cbn [bind]. rewrite IH, <- app_assoc. reflexivity.
Qed.

Lemma theta_loop (xys : list (Q * Q)) :
  for_each xys
    (fun tetha '(x, y) =>
       if Frac.ltb y 0
       then q <- Frac.div x y ;; Ok (tetha ++ [Some q])
       else Ok (tetha ++ [None])) []
  = Ok (map theta_of xys).
Proof.
  rewrite (for_each_append_map theta_of); [reflexivity |].
  intros acc [x y]. unfold theta_of. cbn [fst snd].
  destruct (Frac.ltb y 0) eqn:E; [| reflexivity].
  apply ltb_true in E.
  rewrite div_Ok; [reflexivity |].
  intros Hz. rewrite Hz in E. exact (Qlt_irrefl 0 E).
Qed.

Lemma last_min_body (tetha : list (option Q)) (k key_column : nat) :
  (k < length tetha)%nat ->
  last_min_inv tetha k key_column ->
  exists key_column',
    (a <- PyList.getitem tetha k ;;
     b <- PyList.getitem tetha key_column ;;
     if F.le_inf a b then Ok k else Ok key_column) = Ok key_column' /\
    last_min_inv tetha (S k) key_column'.
Proof.
  intros Hk (H0 & Hlt & Hmin).
  assert (Hkc : (key_column < length tetha)%nat).
  { destruct k; [rewrite H0 by reflexivity; lia |].
    specialize (Hlt ltac:(lia)). lia. }
  rewrite (getitem_nth tetha k None Hk). cbn [bind].
  rewrite (getitem_nth tetha key_column None Hkc). cbn [bind].
  destruct (F.le_inf (nth k tetha None) (nth key_column tetha None)) eqn:E.
  - apply le_inf_spec in E.
    exists k. split; [reflexivity |].
    split; [discriminate |]. split; [lia |].
    intros i Hi. destruct (Nat.eq_dec i k) as [-> | Hne].
    + split; [apply inf_le_refl | lia].
    + split; [| lia].
      destruct (Hmin i ltac:(lia)) as [Hle _].
      eapply inf_le_trans; eassumption.
  - assert (E' : ~ inf_le (nth k tetha None) (nth key_column tetha None)).
    { intros H. apply le_inf_spec in H. congruence. }
    exists key_column. split; [reflexivity |].
    split; [discriminate |].
    split.
    { intros _. destruct k; [rewrite H0 by reflexivity; lia |].
      specialize (Hlt ltac:(lia)). lia. }
    intros i Hi. destruct (Nat.eq_dec i k) as [-> | Hne].
    + split; [apply inf_le_total; exact E' | intros _; exact E'].
    + apply Hmin. lia.
Qed.

Lemma last_min_loop (tetha : list (option Q)) :
  exists key_column,
    for_each (range 0 (length tetha))
      (fun key_column t =>
         a <- PyList.getitem tetha t ;;
         b <- PyList.getitem tetha key_column ;;
         if F.le_inf a b then Ok t else Ok key_column)
      0%nat = Ok key_column /\
    last_min_inv tetha (length tetha) key_column.
Proof.
  unfold range. rewrite Nat.sub_0_r.
  apply (for_each_seq_inv (last_min_inv tetha)
           (fun key_column t =>
              a <- PyList.getitem tetha t ;;
              b <- PyList.getitem tetha key_column ;;
              if F.le_inf a b then Ok t else Ok key_column)).
  - split; [reflexivity |]. split; [lia |]. intros i Hi. lia.
  - intros k s Hk Hinv. apply last_min_body; [lia | exact Hinv].
Qed.

Lemma combine_nth_lt {A B : Type} (l : list A) (l' : list B) (x : A) (y : B) :
  forall n, (n < length l)%nat -> (n < length l')%nat ->
            nth n (combine l l') (x, y) = (nth n l x, nth n l' y).
Proof.
  revert l'. induction l as [| a l IH]; intros l' n Hl Hl'; [simpl in Hl; lia |].
  destruct l' as [| b l']; [simpl in Hl'; lia |].
  destruct n as [| n]; [reflexivity |].
  simpl. apply IH; simpl in Hl, Hl'; lia.
Qed.

Lemma nth_theta (r0 rk : row) (j : nat) :
  (j < Nat.min (length r0 - 2) (length rk - 2))%nat ->
  nth j (map theta_of (combine (PyList.drop_last2 r0) (PyList.drop_last2 rk))) None
  = theta_of (nth j r0 0, nth j rk 0).
Proof.
  intros Hj. unfold PyList.drop_last2.
  assert (Hlen : length (combine (firstn (length r0 - 2) r0) (firstn (length rk - 2) rk))
                 = Nat.min (length r0 - 2) (length rk - 2)).
  { rewrite length_combine, !length_firstn. lia. }
  rewrite (nth_indep _ None (theta_of (0, 0))) by (rewrite length_map; lia).
  rewrite map_nth.
  rewrite combine_nth_lt by (rewrite length_firstn; lia).
  rewrite !nth_firstn.
  rewrite (proj2 (Nat.ltb_lt j (length r0 - 2))) by lia.
  rewrite (proj2 (Nat.ltb_lt j (length rk - 2))) by lia.
  reflexivity.
Qed.

(** X10: [get_key_column] looks at the columns that row 0 and the key row
    both have before their last two. With no such column it returns 0.
    When no entry of the key row there is negative it returns the last of
    these columns. Otherwise it returns a column with a negative entry in
    the key row whose ratio of row-0 entry to key-row entry is least among
    the negative ones, and the last column of that ratio. *)
Theorem get_key_column_last_least_ratio
    (t : table) (key_row : nat) (r0 rk : row)
    (H0 : nth_error t 0 = Some r0)
    (Hk : nth_error t key_row = Some rk) :
  exists c,
    F.get_key_column t key_row = Ok c /\
    (Nat.min (length r0 - 2) (length rk - 2) = 0%nat -> c = 0%nat) /\
    ((0 < Nat.min (length r0 - 2) (length rk - 2))%nat ->
     (c < Nat.min (length r0 - 2) (length rk - 2))%nat /\
     ((forall j, (j < Nat.min (length r0 - 2) (length rk - 2))%nat ->
                 ~ nth j rk 0 < 0) ->
      c = (Nat.min (length r0 - 2) (length rk - 2) - 1)%nat) /\
     ((exists j, (j < Nat.min (length r0 - 2) (length rk - 2))%nat /\
                 nth j rk 0 < 0) ->
      nth c rk 0 < 0 /\
      forall j, (j < Nat.min (length r0 - 2) (length rk - 2))%nat ->
                nth j rk 0 < 0 ->
                nth c r0 0 / nth c rk 0 <= nth j r0 0 / nth j rk 0 /\
                ((c < j)%nat ->
                 nth c r0 0 / nth c rk 0 < nth j r0 0 / nth j rk 0))).
Proof.
  set (n := Nat.min (length r0 - 2) (length rk - 2)).
  set (tetha := map theta_of
                  (combine (PyList.drop_last2 r0) (PyList.drop_last2 rk))).
  assert (Hlen : length tetha = n).
  { unfold tetha, PyList.drop_last2.
    rewrite length_map, length_combine, !length_firstn. unfold n. lia. }
  assert (Hnth : forall j, (j < n)%nat ->
                           nth j tetha None = theta_of (nth j r0 0, nth j rk 0)).
  { intros j Hj. apply nth_theta. exact Hj. }
  destruct (last_min_loop tetha) as (c & Hloop & Hc0 & Hclt & Hmin).
  rewrite Hlen in Hc0, Hclt, Hmin.
  exists c. split.
  { unfold F.get_key_column, PyList.getitem. rewrite H0, Hk. cbn [bind].
    rewrite theta_loop. cbn [bind]. exact Hloop. }
  split; [exact Hc0 |].
  intros Hn. specialize (Hclt Hn). split; [exact Hclt |]. split.
  - intros Hnone.
    destruct (Nat.eq_dec c (n - 1)) as [E | Hne]; [exact E | exfalso].
    destruct (Hmin (n - 1)%nat ltac:(lia)) as [_ Hstrict].
    apply Hstrict; [lia |].
    rewrite (Hnth c Hclt). unfold theta_of. cbn [fst snd].
    rewrite (proj2 (ltb_false (nth c rk 0) 0));
      [| apply Qnot_lt_le; apply Hnone; exact Hclt].
    destruct (nth (n - 1) tetha None); exact I.
  - intros (j0 & Hj0 & Hneg0).
    assert (Hcneg : nth c rk 0 < 0).
    { destruct (Hmin j0 Hj0) as [Hle _].
      rewrite (Hnth c Hclt), (Hnth j0 Hj0) in Hle.
      unfold theta_of in Hle. cbn [fst snd] in Hle.
      rewrite (proj2 (ltb_true (nth j0 rk 0) 0) Hneg0) in Hle.
      destruct (Frac.ltb (nth c rk 0) 0) eqn:E; [apply ltb_true; exact E |].
      destruct Hle. }
    split; [exact Hcneg |].
    intros j Hj Hneg.
    destruct (Hmin j Hj) as [Hle Hstrict].
    rewrite (Hnth c Hclt), (Hnth j Hj) in Hle, Hstrict.
    unfold theta_of in Hle, Hstrict. cbn [fst snd] in Hle, Hstrict.
    rewrite (proj2 (ltb_true (nth j rk 0) 0) Hneg) in Hle, Hstrict.
    rewrite (proj2 (ltb_true (nth c rk 0) 0) Hcneg) in Hle, Hstrict.
    cbn [inf_le] in Hle, Hstrict. rewrite !Qred_correct in Hle, Hstrict.
    split; [exact Hle |].
    intros Hcj. apply Qnot_le_lt. apply Hstrict. exact Hcj.
Qed.

Lemma get_key_column_last_least_ratio_witness :
  exists c,
    F.get_key_column cut_table 2 = Ok c /\
    (Nat.min (length cut_row0 - 2) (length cut_row2 - 2) = 0%nat -> c = 0%nat) /\
    ((0 < Nat.min (length cut_row0 - 2) (length cut_row2 - 2))%nat ->
     (c < Nat.min (length cut_row0 - 2) (length cut_row2 - 2))%nat /\
     ((forall j, (j < Nat.min (length cut_row0 - 2) (length cut_row2 - 2))%nat ->
                 ~ nth j cut_row2 0 < 0) ->
      c = (Nat.min (length cut_row0 - 2) (length cut_row2 - 2) - 1)%nat) /\
     ((exists j, (j < Nat.min (length cut_row0 - 2) (length cut_row2 - 2))%nat /\
                 nth j cut_row2 0 < 0) ->
      nth c cut_row2 0 < 0 /\
      forall j, (j < Nat.min (length cut_row0 - 2) (length cut_row2 - 2))%nat ->
                nth j cut_row2 0 < 0 ->
                nth c cut_row0 0 / nth c cut_row2 0
                <= nth j cut_row0 0 / nth j cut_row2 0 /\
                ((c < j)%nat ->
                 nth c cut_row0 0 / nth c cut_row2 0
                 < nth j cut_row0 0 / nth j cut_row2 0))).
Proof.
  apply (get_key_column_last_least_ratio cut_table 2 cut_row0 cut_row2);
    reflexivity.
Defined.

(** ** The source row of a cut *)

Lemma first_max_body (t : table) (k m : nat) :
  (forall i, (1 <= i < length t)%nat -> exists x, F.fractional_part t i = Ok x) ->
  (1 <= k < length t)%nat ->
  first_max_inv t k m ->
  exists m',
    (curr_fractional_part <- F.fractional_part t k ;;
     max_fractional_part <- F.fractional_part t m ;;
     if Frac.ltb max_fractional_part curr_fractional_part
     then Ok k else Ok m) = Ok m' /\
    first_max_inv t (S k) m'.
Proof.
  intros Hdef Hk (H1 & Hlt & Hmax).
  assert (Hm : (1 <= m < length t)%nat).
  { destruct (Nat.le_gt_cases k 1) as [Hle | Hgt].
    - rewrite (H1 Hle). lia.
    - specialize (Hlt Hgt). lia. }
  assert (Ek : F.fractional_part t k = Ok (fractional_value t k)).
  { unfold fractional_value. destruct (Hdef k Hk) as (x & ->). reflexivity. }
  assert (Em : F.fractional_part t m = Ok (fractional_value t m)).
  { unfold fractional_value. destruct (Hdef m Hm) as (x & ->). reflexivity. }
  rewrite Ek. cbn [bind]. rewrite Em. cbn [bind].
  destruct (Frac.ltb (fractional_value t m) (fractional_value t k)) eqn:E.
  - apply ltb_true in E. exists k. split; [reflexivity |].
    split; [lia |]. split; [lia |].
    intros i Hi. destruct (Nat.eq_dec i k) as [-> | Hne].
    + split; [apply Qle_refl | lia].
    + destruct (Hmax i ltac:(lia)) as [Hle _].
      split; [apply Qlt_le_weak |]; try intros _;
        eapply Qle_lt_trans; eassumption.
  - apply ltb_false in E. exists m. split; [reflexivity |].
    split; [lia |]. split; [lia |].
    intros i Hi. destruct (Nat.eq_dec i k) as [-> | Hne].
    + split; [exact E | lia].
    + apply Hmax. lia.
Qed.

(** X11: when the right-hand side of every constraint row converts to a
    float, [find_max_fractional_index] returns the constraint row whose
    float right-hand side has the greatest fractional part, the first such
    row; on a table without constraint rows it returns 1, the index of no
    row. *)
Theorem find_max_fractional_index_first_greatest (t : table)
    (Hdef : forall i, (1 <= i < length t)%nat ->
                      exists x, F.fractional_part t i = Ok x) :
  exists m,
    F.find_max_fractional_index t = Ok m /\
    ((length t <= 1)%nat -> m = 1%nat) /\
    ((2 <= length t)%nat ->
     (1 <= m < length t)%nat /\
     forall i, (1 <= i < length t)%nat ->
               fractional_value t i <= fractional_value t m /\
               ((i < m)%nat -> fractional_value t i < fractional_value t m)).
Proof.
  unfold F.find_max_fractional_index, range.
  destruct (for_each_seq_inv (first_max_inv t)
              (fun max_fractional_part_i i =>
                 curr_fractional_part <- F.fractional_part t i ;;
                 max_fractional_part <- F.fractional_part t max_fractional_part_i ;;
                 if Frac.ltb max_fractional_part curr_fractional_part
                 then Ok i else Ok max_fractional_part_i)
              (length t - 1) 1 1%nat) as (m & Hrun & H1 & Hlt & Hmax).
  - split; [reflexivity |]. split; [lia |]. intros i Hi. lia.
  - intros k s Hk Hinv. apply first_max_body; [exact Hdef | lia | exact Hinv].
  - exists m. split; [exact Hrun |]. split.
    + intros Hl. apply H1. lia.
    + intros Hl. split; [specialize (Hlt ltac:(lia)); lia |].
      intros i Hi. apply Hmax. lia.
Qed.

Lemma find_max_fractional_index_first_greatest_witness :
  exists m,
    F.find_max_fractional_index fraction_table = Ok m /\
    ((length fraction_table <= 1)%nat -> m = 1%nat) /\
    ((2 <= length fraction_table)%nat ->
     (1 <= m < length fraction_table)%nat /\
     forall i, (1 <= i < length fraction_table)%nat ->
               fractional_value fraction_table i <= fractional_value fraction_table m /\
               ((i < m)%nat ->
                fractional_value fraction_table i < fractional_value fraction_table m)).
Proof.
  apply (find_max_fractional_index_first_greatest fraction_table).
  intros i Hi. simpl in Hi.
  destruct i as [| [| [| [| i]]]]; try lia; eexists; vm_compute; reflexivity.
Defined.

(** ** The solution read off a table *)

Lemma dict_get_set {V : Type} (d : PyDict.dict V) (k k' : string) (v : V) :
  PyDict.get (PyDict.set d k v) k'
  = if String.eqb k k' then Some v else PyDict.get d k'.
Proof.
  induction d as [| [k0 v0] d IH]; simpl.
  - reflexivity.
  - destruct (String.eqb_spec k0 k) as [-> | Hne]; simpl.
    + destruct (String.eqb k k'); reflexivity.
    + rewrite IH. destruct (String.eqb_spec k0 k') as [-> | Hne'].
      * destruct (String.eqb_spec k k') as [E | _]; [congruence | reflexivity].
      * reflexivity.
Qed.

Lemma dict_keys_set {V : Type} (d : PyDict.dict V) (k key : string) (v : V) :
  In key (map fst (PyDict.set d k v)) <-> key = k \/ In key (map fst d).
Proof.
  induction d as [| [k0 v0] d IH]; simpl.
  - intuition congruence.
  - destruct (String.eqb_spec k0 k) as [-> | Hne]; simpl.
    + intuition congruence.
    + rewrite IH. intuition congruence.
Qed.

Lemma dict_NoDup_set {V : Type} (d : PyDict.dict V) (k : string) (v : V) :
  NoDup (map fst d) -> NoDup (map fst (PyDict.set d k v)).
Proof.
  induction d as [| [k0 v0] d IH]; simpl; intros Hnd.
  - constructor; [intros [] | constructor].
  - inversion Hnd as [| ? ? Hnotin Hnd']; subst.
    destruct (String.eqb_spec k0 k) as [-> | Hne]; simpl.
    + constructor; assumption.
    + constructor; [| apply IH; exact Hnd'].
      intros Hin. apply dict_keys_set in Hin. destruct Hin as [E | Hin].
      * congruence.
      * contradiction.
Qed.

Lemma var_label_inj (a b : nat) : F.var_label a = F.var_label b -> a = b.
Proof.
  unfold F.var_label. intros H. apply append_inj_r, str_inj in H. lia.
Qed.

Lemma existsb_eqb_In (k : nat) (l : list nat) :
  existsb (Nat.eqb k) l = true <-> In k l.
Proof.
  rewrite existsb_exists. split.
  - intros (x & Hin & E). apply Nat.eqb_eq in E. subst. exact Hin.
  - intros Hin. exists k. split; [exact Hin | apply Nat.eqb_refl].
Qed.

Lemma solution_basic_body (t : table) (bvs : list nat) (num_vars k : nat)
      (sol : PyDict.dict Q) :
  ((nth k bvs 0 < num_vars)%nat ->
   (k + 1 < length t)%nat /\ nth (k + 1) t [] <> []) ->
  solution_basic_inv t bvs num_vars k sol ->
  exists sol',
    (if (nth k bvs 0 <? num_vars)%nat then
       b <- cell_last t (k + 1) ;;
       Ok (PyDict.set sol (F.var_label (nth k bvs 0%nat)) b)
     else Ok sol) = Ok sol' /\
    solution_basic_inv t bvs num_vars (S k) sol'.
Proof.
  intros Hrow (Hnd & Hkeys & Hvals).
  destruct (Nat.ltb_spec (nth k bvs 0%nat) num_vars) as [Hlt | Hge].
  - destruct (Hrow Hlt) as [Hk Hne].
    rewrite (cell_last_rhs t (k + 1) Hk Hne). cbn [bind].
    eexists. split; [reflexivity |].
    split; [apply dict_NoDup_set; exact Hnd |]. split.
    + intros key. rewrite dict_keys_set, Hkeys. split.
      * intros [-> | (i & Hi & Hv & ->)].
        -- exists k. split; [lia |]. split; [exact Hlt | reflexivity].
        -- exists i. split; [lia |]. split; [exact Hv | reflexivity].
      * intros (i & Hi & Hv & ->).
        destruct (Nat.eq_dec i k) as [-> | Hik]; [left; reflexivity |].
        right. exists i. split; [lia |]. split; [exact Hv | reflexivity].
    + intros i Hi Hv Hlast. rewrite dict_get_set.
      destruct (Nat.eq_dec i k) as [-> | Hik].
      * rewrite String.eqb_refl. reflexivity.
      * destruct (String.eqb_spec (F.var_label (nth k bvs 0%nat))
                    (F.var_label (nth i bvs 0%nat))) as [E | _].
        -- apply var_label_inj in E. exfalso.
           apply (Hlast k); [lia | exact E].
        -- apply Hvals; [lia | exact Hv |].
           intros i' Hi'. apply Hlast. lia.
  - eexists. split; [reflexivity |].
    split; [exact Hnd |]. split.
    + intros key. rewrite Hkeys. split.
      * intros (i & Hi & Hv & ->).
        exists i. split; [lia |]. split; [exact Hv | reflexivity].
      * intros (i & Hi & Hv & ->).
        destruct (Nat.eq_dec i k) as [-> | Hik]; [lia |].
        exists i. split; [lia |]. split; [exact Hv | reflexivity].
    + intros i Hi Hv Hlast.
      destruct (Nat.eq_dec i k) as [-> | Hik]; [lia |].
      apply Hvals; [lia | exact Hv |].
      intros i' Hi'. apply Hlast. lia.
Qed.

Lemma solution_free_body (t : table) (bvs : list nat) (num_vars k : nat)
      (sol : PyDict.dict Q) :
  solution_free_inv t bvs num_vars k sol ->
  exists sol',
    (if negb (existsb (Nat.eqb k) bvs)
     then Ok (PyDict.set sol (F.var_label k) (Frac.of_int 0))
     else Ok sol) = Ok sol' /\
    solution_free_inv t bvs num_vars (S k) sol'.
Proof.
  intros (Hnd & Hkeys & Hvals & Hzero).
  destruct (existsb (Nat.eqb k) bvs) eqn:E; cbn [negb].
  - apply existsb_eqb_In in E.
    eexists. split; [reflexivity |].
    split; [exact Hnd |]. split; [| split; [exact Hvals |]].
    + intros key. rewrite Hkeys. split.
      * intros [Hb | (v & Hv & Hnin & ->)]; [left; exact Hb |].
        right. exists v. split; [lia |]. split; [exact Hnin | reflexivity].
      * intros [Hb | (v & Hv & Hnin & ->)]; [left; exact Hb |].
        destruct (Nat.eq_dec v k) as [-> | Hvk]; [contradiction |].
        right. exists v. split; [lia |]. split; [exact Hnin | reflexivity].
    + intros v Hv Hnin.
      destruct (Nat.eq_dec v k) as [-> | Hvk]; [contradiction |].
      apply Hzero; [lia | exact Hnin].
  - assert (Hnotin : ~ In k bvs).
    { intros Hin. apply existsb_eqb_In in Hin. congruence. }
    eexists. split; [reflexivity |].
    split; [apply dict_NoDup_set; exact Hnd |]. split; [| split].
    + intros key. rewrite dict_keys_set, Hkeys. split.
      * intros [-> | [Hb | (v & Hv & Hnin & ->)]].
        -- right. exists k. split; [lia |]. split; [exact Hnotin | reflexivity].
        -- left. exact Hb.
        -- right. exists v. split; [lia |]. split; [exact Hnin | reflexivity].
      * intros [Hb | (v & Hv & Hnin & ->)]; [right; left; exact Hb |].
        destruct (Nat.eq_dec v k) as [-> | Hvk]; [left; reflexivity |].
        right. right. exists v. split; [lia |]. split; [exact Hnin | reflexivity].
    + intros i Hi Hv Hlast. rewrite dict_get_set.
      destruct (String.eqb_spec (F.var_label k)
                  (F.var_label (nth i bvs 0%nat))) as [E' | _].
      * apply var_label_inj in E'. exfalso. apply Hnotin.
        rewrite E'. apply nth_In. exact Hi.
      * apply Hvals; assumption.
    + intros v Hv Hnin. rewrite dict_get_set.
      destruct (String.eqb_spec (F.var_label k) (F.var_label v)) as [_ | Hne];
        [reflexivity |].
      apply Hzero; [| exact Hnin].
      destruct (Nat.eq_dec v k) as [-> | Hvk]; [congruence | lia].
Qed.

Lemma create_solution_loops (t : table) (basic_vars : list nat) (num_vars : nat) :
  (forall i, (i < length (PyList.from1 basic_vars))%nat ->
             (nth i (PyList.from1 basic_vars) 0 < num_vars)%nat ->
             (i + 1 < length t)%nat /\ nth (i + 1) t [] <> []) ->
  exists sol,
    F.create_solution t basic_vars num_vars = Ok sol /\
    solution_free_inv t (PyList.from1 basic_vars) num_vars num_vars sol.
Proof.
  intros Hrows. unfold F.create_solution.
  set (bvs := PyList.from1 basic_vars) in *.
  rewrite (for_each_enumerate 0%nat).
  destruct (for_each_seq_inv (solution_basic_inv t bvs num_vars)
              (fun solution j =>
                 if (nth j bvs 0 <? num_vars)%nat then
                   b <- cell_last t (j + 1) ;;
                   Ok (PyDict.set solution (F.var_label (nth j bvs 0%nat)) b)
                 else Ok solution)
              (length bvs) 0 [])
    as (sol1 & Hrun1 & Hnd1 & Hkeys1 & Hvals1).
  { split; [constructor |]. split.
    - intros key. split; [intros [] |]. intros (i & Hi & _). lia.
    - intros i Hi. lia. }
  { intros k s Hk Hinv. apply solution_basic_body; [| exact Hinv].
    intros Hv. apply Hrows; [lia | exact Hv]. }
  rewrite Hrun1. cbn [bind]. unfold range. rewrite Nat.sub_0_r.
  replace num_vars with (0 + num_vars)%nat at 3 by reflexivity.
  apply (for_each_seq_inv (solution_free_inv t bvs num_vars)
           (fun solution i =>
              if negb (existsb (Nat.eqb i) bvs)
              then Ok (PyDict.set solution (F.var_label i) (Frac.of_int 0))
              else Ok solution)).
  - split; [exact Hnd1 |]. split; [| split; [exact Hvals1 |]].
    + intros key. rewrite Hkeys1. split; [intros H; left; exact H |].
      intros [H | (v & Hv & _)]; [exact H | lia].
    + intros v Hv. lia.
  - intros k s Hk Hinv. apply solution_free_body. exact Hinv.
Qed.

(** X12: when every basic decision variable has a non-empty row,
    [create_solution] returns a dictionary whose keys are exactly
    [x_1 .. x_num_vars], each once; a variable outside the basis gets 0, a
    variable in the basis gets the right-hand side of its row (of the last
    of its rows if it is listed twice), and slack or artificial variables
    get no key. *)
Theorem create_solution_covers_decision_variables
    (t : table) (basic_vars : list nat) (num_vars : nat)
    (Hrows : forall i, (i < length (PyList.from1 basic_vars))%nat ->
                       (nth i (PyList.from1 basic_vars) 0 < num_vars)%nat ->
                       (i + 1 < length t)%nat /\ nth (i + 1) t [] <> []) :
  exists sol,
    F.create_solution t basic_vars num_vars = Ok sol /\
    NoDup (map fst sol) /\
    (forall key, In key (map fst sol) <->
                 exists v, (v < num_vars)%nat /\ key = F.var_label v) /\
    (forall v, (v < num_vars)%nat -> ~ In v (PyList.from1 basic_vars) ->
               PyDict.get sol (F.var_label v) = Some (Frac.of_int 0)) /\
    (forall i, (i < length (PyList.from1 basic_vars))%nat ->
               (nth i (PyList.from1 basic_vars) 0 < num_vars)%nat ->
               (forall i', (i < i' < length (PyList.from1 basic_vars))%nat ->
                           nth i' (PyList.from1 basic_vars) 0%nat
                           <> nth i (PyList.from1 basic_vars) 0%nat) ->
               PyDict.get sol (F.var_label (nth i (PyList.from1 basic_vars) 0%nat))
               = Some (rhs t (i + 1))).
Proof.
  destruct (create_solution_loops t basic_vars num_vars Hrows)
    as (sol & Hrun & Hnd & Hkeys & Hvals & Hzero).
  exists sol. split; [exact Hrun |]. split; [exact Hnd |].
  split; [| split; [exact Hzero | exact Hvals]].
  intros key. rewrite Hkeys. split.
  - intros [(i & Hi & Hv & ->) | (v & Hv & _ & ->)].
    + eexists. split; [exact Hv | reflexivity].
    + exists v. split; [exact Hv | reflexivity].
  - intros (v & Hv & ->).
    destruct (in_dec Nat.eq_dec v (PyList.from1 basic_vars)) as [Hin | Hnin].
    + left. destruct (In_nth _ _ 0%nat Hin) as (i & Hi & E).
      exists i. split; [exact Hi |]. rewrite E. split; [exact Hv | reflexivity].
    + right. exists v. split; [exact Hv |]. split; [exact Hnin | reflexivity].
Qed.

Lemma create_solution_covers_decision_variables_witness :
  exists sol,
    F.create_solution solved_table [0; 0; 3]%nat 2 = Ok sol /\
    NoDup (map fst sol) /\
    (forall key, In key (map fst sol) <->
                 exists v, (v < 2)%nat /\ key = F.var_label v) /\
    (forall v, (v < 2)%nat -> ~ In v (PyList.from1 [0; 0; 3]%nat) ->
               PyDict.get sol (F.var_label v) = Some (Frac.of_int 0)) /\
    (forall i, (i < length (PyList.from1 [0; 0; 3]%nat))%nat ->
               (nth i (PyList.from1 [0; 0; 3]%nat) 0 < 2)%nat ->
               (forall i', (i < i' < length (PyList.from1 [0; 0; 3]%nat))%nat ->
                           nth i' (PyList.from1 [0; 0; 3]%nat) 0%nat
                           <> nth i (PyList.from1 [0; 0; 3]%nat) 0%nat) ->
               PyDict.get sol (F.var_label (nth i (PyList.from1 [0; 0; 3]%nat) 0%nat))
               = Some (rhs solved_table (i + 1))).
Proof.
  apply (create_solution_covers_decision_variables solved_table [0; 0; 3]%nat 2).
  intros i Hi Hv. simpl in Hi.
  destruct i as [| [| i]]; try lia.
  - split; [simpl; lia | discriminate].
  - simpl in Hv. lia.
Defined.

(** ** The plan returned by [gomory_solve] *)

Lemma check_integer_condition_Ok_true (t : table) :
  F.check_integer_condition t = Ok true ->
  forall i, (1 <= i < length t)%nat -> 0 <= rhs t i /\ integral (rhs t i).
Proof.
  intros H.
  assert (Hne : forall i, (1 <= i < length t)%nat -> nth i t [] <> []).
  { intros i Hi Hempty. unfold F.check_integer_condition in H.
    rewrite rhs_loop_raise in H; [discriminate H |].
    apply from1_rows. exists i. auto. }
  apply (check_integer_condition_true t Hne). exact H.
Qed.

Lemma cell_last_Ok (t : table) (i : nat) (b : Q) :
  cell_last t i = Ok b -> (i < length t)%nat /\ b = rhs t i.
Proof.
  unfold cell_last, PyList.getitem at 1. intros H.
  destruct (nth_error t i) as [r |] eqn:E; [| discriminate H].
  cbn [bind] in H.
  assert (Hi : (i < length t)%nat) by (apply nth_error_Some; congruence).
  split; [exact Hi |].
  unfold rhs. rewrite (nth_error_nth t i [] E).
  destruct r as [| a r]; [discriminate H |].
  rewrite (getlast_last (a :: r) 0) in H by discriminate.
  congruence.
Qed.

Lemma create_solution_values (t : table) (basic_vars : list nat) (num_vars : nat)
      (sol : PyDict.dict Q) :
  F.create_solution t basic_vars num_vars = Ok sol ->
  forall key x, PyDict.get sol key = Some x ->
                x = Frac.of_int 0 \/ exists i, (1 <= i < length t)%nat /\ x = rhs t i.
Proof.
  unfold F.create_solution. intros H.
  match type of H with
  | bind ?m _ = _ => destruct m as [sol1 | e |] eqn:E1
  end; cbn [bind] in H; try discriminate H.
  set (P := fun s : PyDict.dict Q =>
              forall key x, PyDict.get s key = Some x ->
                x = Frac.of_int 0 \/
                exists i, (1 <= i < length t)%nat /\ x = rhs t i).
  assert (H1 : P sol1).
  { refine (for_each_inv_Ok P _ _ _ _ _ _ E1).
    - intros key x Hget. discriminate Hget.
    - intros s [i var] s1 _ Hs Hbody.
      destruct (var <? num_vars)%nat; [| injection Hbody as <-; exact Hs].
      destruct (cell_last t (i + 1)) as [b | e |] eqn:Eb; cbn [bind] in Hbody;
        try discriminate Hbody.
      injection Hbody as <-. apply cell_last_Ok in Eb. destruct Eb as [Hi ->].
      intros key x. rewrite dict_get_set.
      destruct (String.eqb _ key); [| apply Hs].
      intros [= <-]. right. exists (i + 1)%nat. split; [lia | reflexivity]. }
  refine (for_each_inv_Ok P _ _ _ _ H1 _ H).
  intros s i s1 _ Hs Hbody.
  destruct (negb _); injection Hbody as <-; [| exact Hs].
  intros key x. rewrite dict_get_set.
  destruct (String.eqb _ key); [| apply Hs].
  intros [= <-]. left. reflexivity.
Qed.

Lemma gomory_loop_exit (fuel : nat) :
  forall st st', F.gomory_loop fuel st = Ok st' ->
                 F.check_integer_condition (F.st_table st') = Ok true.
Proof.
  induction fuel as [| fuel IH]; intros st st' H; cbn [F.gomory_loop] in H;
    destruct (F.check_integer_condition (F.st_table st)) as [[|] | e |] eqn:Ec;
    cbn [bind negb] in H; try discriminate H;
    try (injection H as <-; exact Ec).
  destruct (F.add_clipping _ _) as [[t1 bv1] | e |]; cbn [bind] in H;
    try discriminate H.
  destruct (F.get_key_row t1) as [kr | e |]; cbn [bind] in H; try discriminate H.
  destruct (F.get_key_column t1 kr) as [kc | e |]; cbn [bind] in H;
    try discriminate H.
  destruct (F.simplex_step t1 bv1 kc kr) as [[t2 bv2] | e |]; cbn [bind] in H;
    try discriminate H.
  apply IH in H. exact H.
Qed.

Lemma integer_plan_values (t : table) (basic_vars : list nat) (num_vars : nat)
      (sol : PyDict.dict Q) :
  F.check_integer_condition t = Ok true ->
  F.create_solution t basic_vars num_vars = Ok sol ->
  forall key x, PyDict.get sol key = Some x -> 0 <= x /\ integral x.
Proof.
  intros Hc Hsol key x Hget.
  destruct (create_solution_values t basic_vars num_vars sol Hsol key x Hget)
    as [-> | (i & Hi & ->)].
  - split; [vm_compute; discriminate | exists 0%Z; reflexivity].
  - apply (check_integer_condition_Ok_true t Hc). exact Hi.
Qed.

(** X13: whenever [gomory_solve] returns, on either of its two return
    paths, every value of the plan it returns is a nonnegative integer. *)
Theorem gomory_solve_plan_integer
    (fuel num_vars : nat) (constraints : list string)
    (objective_function : string * string)
    (ret : F.gomory_return) (w : list string)
    (H : F.gomory_solve fuel num_vars constraints objective_function = Ok (ret, w)) :
  forall key x, PyDict.get (plan_of ret) key = Some x -> 0 <= x /\ integral x.
Proof.
  unfold F.gomory_solve in H.
  destruct (F.simplex_solve fuel num_vars constraints objective_function)
    as [out | e |] eqn:Es; cbn [bind] in H; try discriminate H.
  destruct (simplex_solve_last _ _ _ _ _ Es)
    as (key0 & t & key1 & bv & Hk & Hk' & _ & _ & Hplane).
  rewrite Hk, Hk' in H. cbn [bind] in H.
  destruct (F.check_integer_condition t) as [[|] | e |] eqn:Ec;
    cbn [bind] in H; try discriminate H.
  - destruct (cell_last t 0) as [v | e |]; cbn [bind] in H; try discriminate H.
    injection H as <- <-. cbn [plan_of].
    exact (integer_plan_values t bv num_vars _ Ec Hplane).
  - destruct (F.gomory_loop fuel _) as [st | e |] eqn:El; cbn [bind] in H;
      try discriminate H.
    destruct (cell_last (F.st_table st) 0) as [v | e |]; cbn [bind] in H;
      try discriminate H.
    destruct (F.create_solution (F.st_table st) (F.st_basic_vars st) num_vars)
      as [plane | e |] eqn:Ep; cbn [bind] in H; try discriminate H.
    injection H as <- <-. cbn [plan_of].
    apply gomory_loop_exit in El.
    exact (integer_plan_values _ _ num_vars _ El Ep).
Qed.

Lemma gomory_solve_plan_integer_witness :
  exists ret w,
    F.gomory_solve 20 Main.num_vars Main.constraints Main.objective_function
      = Ok (ret, w) /\
    forall key x, PyDict.get (plan_of ret) key = Some x -> 0 <= x /\ integral x.
Proof.
  eexists. eexists. split.
  - vm_compute. reflexivity.
  - apply (gomory_solve_plan_integer 20 Main.num_vars Main.constraints
             Main.objective_function _ []).
    vm_compute. reflexivity.
Defined.

(** ** The initial table *)

Lemma setitem_Ok_length {A : Type} (l l' : list A) (i : nat) (v : A) :
  PyList.setitem l i v = Ok l' -> length l' = length l.
Proof.
  unfold PyList.setitem. destruct (i <? length l)%nat; [| discriminate].
  intros [= <-]. apply length_replace.
Qed.

Lemma setitem_int_Ok_length {A : Type} (l l' : list A) (i : Z) (v : A) :
  PyList.setitem_int l i v = Ok l' -> length l' = length l.
Proof.
  unfold PyList.setitem_int.
  destruct (0 <=? i)%Z; [apply setitem_Ok_length |].
  destruct (_ <=? i)%Z; [apply setitem_Ok_length | discriminate].
Qed.

Lemma setlast_Ok_length {A : Type} (l l' : list A) (v : A) :
  PyList.setlast l v = Ok l' -> length l' = length l.
Proof.
  unfold PyList.setlast. destruct l; [discriminate | apply setitem_Ok_length].
Qed.

Lemma set_row_shape (t t' : table) (i : nat) (f : row -> result row) :
  (forall r r', f r = Ok r' -> length r' = length r) ->
  (r <- PyList.getitem t i ;; r' <- f r ;; PyList.setitem t i r') = Ok t' ->
  same_shape t t' /\ (i <> 0%nat -> nth 0 t' [] = nth 0 t []).
Proof.
  intros Hf H. unfold PyList.getitem at 1 in H.
  destruct (nth_error t i) as [r |] eqn:Er; [| discriminate H]. cbn [bind] in H.
  destruct (f r) as [r' | e |] eqn:Ef; cbn [bind] in H; try discriminate H.
  apply Hf in Ef.
  unfold PyList.setitem in H.
  destruct (Nat.ltb_spec i (length t)) as [Hi |]; [| discriminate H].
  injection H as <-.
  split; [split |].
  - apply length_replace.
  - intros k. destruct (Nat.eq_dec i k) as [<- | Hne].
    + rewrite nth_replace_eq by exact Hi.
      rewrite (nth_error_nth t i [] Er). exact Ef.
    + rewrite nth_replace_neq by exact Hne. reflexivity.
  - intros Hne. apply nth_replace_neq. exact Hne.
Qed.

Lemma set_cell_shape (t t' : table) (i j : nat) (v : Q) :
  set_cell t i j v = Ok t' ->
  same_shape t t' /\ (i <> 0%nat -> nth 0 t' [] = nth 0 t []).
Proof.
  apply (set_row_shape t t' i (fun r => PyList.setitem r j v)).
  intros r r'. apply setitem_Ok_length.
Qed.

Lemma set_cell_int_shape (t t' : table) (i : nat) (j : Z) (v : Q) :
  set_cell_int t i j v = Ok t' ->
  same_shape t t' /\ (i <> 0%nat -> nth 0 t' [] = nth 0 t []).
Proof.
  apply (set_row_shape t t' i (fun r => PyList.setitem_int r j v)).
  intros r r'. apply setitem_int_Ok_length.
Qed.

Lemma set_cell_at_index_shape (t t' : table) (i : nat) (index : string) (v : Q) :
  set_cell_at_index t i index v = Ok t' ->
  same_shape t t' /\ (i <> 0%nat -> nth 0 t' [] = nth 0 t []).
Proof.
  intros H. unfold set_cell_at_index in H.
  destruct (int_of_string index) as [k | e |] eqn:Ek.
  - apply (set_row_shape t t' i (fun r => PyList.setitem_int r (k - 1)%Z v)).
    + intros r r'. apply setitem_int_Ok_length.
    + destruct (PyList.getitem t i); cbn [bind] in *; exact H.
  - destruct (PyList.getitem t i); cbn [bind] in H; discriminate H.
  - destruct (PyList.getitem t i); cbn [bind] in H; discriminate H.
Qed.

Lemma scale_cell_at_index_shape (t t' : table) (i : nat) (index : string) (c : Q) :
  scale_cell_at_index t i index c = Ok t' ->
  same_shape t t' /\ (i <> 0%nat -> nth 0 t' [] = nth 0 t []).
Proof.
  intros H. unfold scale_cell_at_index in H.
  destruct (int_of_string index) as [k | e |] eqn:Ek.
  - apply (set_row_shape t t' i
             (fun r => x <- PyList.getitem_int r (k - 1)%Z ;;
                       PyList.setitem_int r (k - 1)%Z (Frac.mul x c))).
    + intros r r' Hr.
      destruct (PyList.getitem_int r (k - 1)) as [x | e |]; cbn [bind] in Hr;
        try discriminate Hr.
      apply setitem_int_Ok_length in Hr. exact Hr.
    + destruct (PyList.getitem t i) as [r | e |]; cbn [bind] in *; try exact H.
      destruct (PyList.getitem_int r (k - 1)); cbn [bind] in *; exact H.
  - destruct (PyList.getitem t i); cbn [bind] in H; discriminate H.
  - destruct (PyList.getitem t i); cbn [bind] in H; discriminate H.
Qed.

Lemma set_cell_last_shape (t t' : table) (i : nat) (v : Q) :
  set_cell_last t i v = Ok t' ->
  same_shape t t' /\ (i <> 0%nat -> nth 0 t' [] = nth 0 t []).
Proof.
  apply (set_row_shape t t' i (fun r => PyList.setlast r v)).
  intros r r'. apply setlast_Ok_length.
Qed.

Lemma fill_inv_set (m0 : table) (n : nat) (st : fill_state) (m : table)
      (s r : nat) (rr : list nat) :
  fill_inv m0 n st ->
  same_shape (coeff_matrix st) m ->
  nth 0 m [] = nth 0 (coeff_matrix st) [] ->
  (forall x, In x rr -> In x (r_rows st) \/ (1 <= x <= n)%nat) ->
  fill_inv m0 n (mk_fill m s r rr).
Proof.
  intros (Hs & H0 & Hr) Hs' H0' Hrr. split; [| split]; cbn.
  - eapply same_shape_trans; eassumption.
  - congruence.
  - intros x Hx. destruct (Hrr x Hx) as [Hin | Hx']; [apply Hr; exact Hin | exact Hx'].
Qed.

Lemma fill_token_inv (m0 : table) (n i j : nat) (constraint : list string)
      (st st' : fill_state) :
  (1 <= i <= n)%nat ->
  fill_inv m0 n st ->
  fill_token i constraint st j = Ok st' ->
  fill_inv m0 n st'.
Proof.
  intros Hi Hinv H. unfold fill_token in H.
  destruct (PyList.getitem constraint j) as [tok | e |]; cbn [bind] in H;
    try discriminate H.
  destruct (PyStr.contains "_" tok).
  - destruct (unpack2 _) as [[coeff index] | e |]; cbn [bind] in H;
      try discriminate H.
    destruct (token_before constraint j) as [prev | e |]; cbn [bind] in H;
      try discriminate H.
    match type of H with
    | bind ?m _ = _ => destruct m as [v | e |]
    end; cbn [bind] in H; try discriminate H.
    destruct (set_cell_at_index _ _ _ _) as [m | e |] eqn:Em; cbn [bind] in H;
      try discriminate H.
    injection H as <-. apply set_cell_at_index_shape in Em. destruct Em as [Hs H0].
    apply (fill_inv_set m0 n st); auto. apply H0. lia.
  - destruct (String.eqb tok "<=").
    { destruct (set_cell _ _ _ _) as [m | e |] eqn:Em; cbn [bind] in H;
        try discriminate H.
      injection H as <-. apply set_cell_shape in Em. destruct Em as [Hs H0].
      apply (fill_inv_set m0 n st); auto. apply H0. lia. }
    destruct (String.eqb tok ">=").
    { destruct (set_cell _ _ _ _) as [m | e |] eqn:Em; cbn [bind] in H;
        try discriminate H.
      destruct (set_cell m _ _ _) as [m' | e |] eqn:Em'; cbn [bind] in H;
        try discriminate H.
      injection H as <-.
      apply set_cell_shape in Em. destruct Em as [Hs H0].
      apply set_cell_shape in Em'. destruct Em' as [Hs' H0'].
      apply (fill_inv_set m0 n st).
      - exact Hinv.
      - eapply same_shape_trans; eassumption.
      - rewrite H0' by lia. apply H0. lia.
      - intros x Hx. apply in_app_or in Hx.
        destruct Hx as [Hx | [<- | []]]; [left; exact Hx | right; exact Hi]. }
    destruct (String.eqb tok "=").
    { destruct (set_cell _ _ _ _) as [m | e |] eqn:Em; cbn [bind] in H;
        try discriminate H.
      injection H as <-. apply set_cell_shape in Em. destruct Em as [Hs H0].
      apply (fill_inv_set m0 n st).
      - exact Hinv.
      - exact Hs.
      - apply H0. lia.
      - intros x Hx. apply in_app_or in Hx.
        destruct Hx as [Hx | [<- | []]]; [left; exact Hx | right; exact Hi]. }
    injection H as <-. exact Hinv.
Qed.

Lemma fill_rhs_inv (m0 : table) (n i : nat) (constraint : list string)
      (st st' : fill_state) :
  (1 <= i <= n)%nat ->
  fill_inv m0 n st ->
  fill_rhs i constraint st = Ok st' ->
  fill_inv m0 n st'.
Proof.
  intros Hi Hinv H. unfold fill_rhs in H.
  destruct (PyList.getlast constraint) as [tok | e |]; cbn [bind] in H;
    try discriminate H.
  destruct (Frac.of_literal tok) as [v | e |]; cbn [bind] in H;
    try discriminate H.
  destruct (set_cell_last _ _ _) as [m | e |] eqn:Em; cbn [bind] in H;
    try discriminate H.
  injection H as <-. apply set_cell_last_shape in Em. destruct Em as [Hs H0].
  apply (fill_inv_set m0 n st); auto. apply H0. lia.
Qed.

Lemma construct_simplex_table_inv (constraints : list string) (num_vars : nat)
      (t : table) (rr : list nat) (num_s_vars num_r_vars : nat) :
  F.construct_simplex_table constraints num_vars
    = Ok (t, rr, num_s_vars, num_r_vars) ->
  (num_s_vars, num_r_vars) = count_aux_vars constraints /\
  fill_inv (zero_matrix (length constraints + 1)
              (num_vars + num_s_vars + num_r_vars + 1))
    (length constraints) (mk_fill t 0 0 rr).
Proof.
  unfold F.construct_simplex_table.
  destruct (count_aux_vars constraints) as [ns nr].
  intros H.
  match type of H with
  | bind ?m _ = _ => destruct m as [st | e |] eqn:E
  end; cbn [bind] in H; try discriminate H.
  injection H as <- <- <- <-. split; [reflexivity |].
  assert (Hst : fill_inv (zero_matrix (length constraints + 1) (num_vars + ns + nr + 1))
                  (length constraints) st).
  { refine (for_each_inv_Ok _ _ _ _ _ _ _ E).
    - split; [apply same_shape_refl |]. split; [reflexivity |]. intros r [].
    - intros s i s1 Hin Hs Hbody. unfold range in Hin. apply in_seq in Hin.
      destruct (PyList.getitem constraints (i - 1)) as [expr | e |];
        cbn [bind] in Hbody; try discriminate Hbody.
      refine (for_each_inv_Ok _ _ _ _ _ Hs _ Hbody).
      intros s2 j s3 _ Hs2 Hj.
      destruct (fill_token i _ s2 j) as [s' | e |] eqn:Et; cbn [bind] in Hj;
        try discriminate Hj.
      eapply (fill_rhs_inv _ (length constraints) i); [lia | | exact Hj].
      eapply (fill_token_inv _ (length constraints) i); [lia | exact Hs2 | exact Et]. }
  destruct Hst as (Hs & H0 & Hr). split; [exact Hs |]. split; assumption.
Qed.

Lemma zero_matrix_shape (rows cols : nat) :
  length (zero_matrix rows cols) = rows /\
  forall i, (i < rows)%nat ->
            nth i (zero_matrix rows cols) [] = repeat (Frac.of_int 0) cols.
Proof.
  unfold zero_matrix. split; [apply repeat_length |].
  intros i Hi. apply nth_repeat_lt. exact Hi.
Qed.

(** X14: whenever [construct_simplex_table] returns, the table has one row
    per constraint and a row 0, every row has one column per decision,
    slack and artificial variable counted and one for the right-hand side,
    row 0 is all zeros, the two counts are those of the counting loop, and
    every recorded artificial row is the row of a constraint. *)
Theorem construct_simplex_table_shape
    (constraints : list string) (num_vars : nat)
    (t : table) (rr : list nat) (num_s_vars num_r_vars : nat)
    (H : F.construct_simplex_table constraints num_vars
         = Ok (t, rr, num_s_vars, num_r_vars)) :
  length t = (length constraints + 1)%nat /\
  (forall i, (i < length t)%nat ->
             length (nth i t []) = (num_vars + num_s_vars + num_r_vars + 1)%nat) /\
  nth 0 t [] = repeat (Frac.of_int 0) (num_vars + num_s_vars + num_r_vars + 1) /\
  (num_s_vars, num_r_vars) = count_aux_vars constraints /\
  forall r, In r rr -> (1 <= r <= length constraints)%nat.
Proof.
  destruct (construct_simplex_table_inv _ _ _ _ _ _ H) as (Hc & (Hl & Hrows) & H0 & Hr).
  cbn [coeff_matrix r_rows] in *.
  destruct (zero_matrix_shape (length constraints + 1)
              (num_vars + num_s_vars + num_r_vars + 1)) as [Hzl Hzr].
  rewrite Hzl in Hl.
  split; [exact Hl |]. split; [| split; [| split; [exact Hc | exact Hr]]].
  - intros i Hi. rewrite Hrows, Hzr by lia. apply repeat_length.
  - rewrite H0. apply Hzr. lia.
Qed.

Lemma construct_simplex_table_shape_witness :
  (exists t rr num_s_vars num_r_vars,
     F.construct_simplex_table Main.constraints Main.num_vars
       = Ok (t, rr, num_s_vars, num_r_vars) /\
     length t = (length Main.constraints + 1)%nat /\
     (forall i, (i < length t)%nat ->
                length (nth i t [])
                = (Main.num_vars + num_s_vars + num_r_vars + 1)%nat) /\
     nth 0 t []
     = repeat (Frac.of_int 0) (Main.num_vars + num_s_vars + num_r_vars + 1) /\
     (num_s_vars, num_r_vars) = count_aux_vars Main.constraints /\
     forall r, In r rr -> (1 <= r <= length Main.constraints)%nat) /\
  (F.construct_simplex_table padded_constraints 1
     = Ok (padded_table, [], 1%nat, 1%nat) /\
   length padded_table = (length padded_constraints + 1)%nat /\
   (forall i, (i < length padded_table)%nat ->
              length (nth i padded_table []) = (1 + 1 + 1 + 1)%nat) /\
   nth 0 padded_table [] = repeat (Frac.of_int 0) (1 + 1 + 1 + 1) /\
   (1%nat, 1%nat) = count_aux_vars padded_constraints /\
   forall r, In r (@nil nat) -> (1 <= r <= length padded_constraints)%nat).
Proof.
  split.
  - do 4 eexists. split.
    + vm_compute. reflexivity.
    + apply (construct_simplex_table_shape Main.constraints Main.num_vars).
      vm_compute. reflexivity.
  - split.
    + vm_compute. reflexivity.
    + apply (construct_simplex_table_shape padded_constraints 1).
      vm_compute. reflexivity.
Defined.

(** ** The infeasibility test of [simplex_solve] *)

Lemma replace_middle {A : Type} (l r : list A) (x v : A) (k : nat) :
  length l = k -> PyList.replace (l ++ x :: r) k v = l ++ v :: r.
Proof.
  intros <-. induction l as [| a l IH]; simpl; [reflexivity | rewrite IH; reflexivity].
Qed.

Lemma nth_middle_at {A : Type} (l r : list A) (x d : A) (k : nat) :
  length l = k -> nth k (l ++ x :: r) d = x.
Proof. intros <-. apply nth_middle. Qed.

Lemma basic_vars_loop (num_vars n : nat) :
  (1 <= n)%nat ->
  for_each (range 1 n)
    (fun '(basic_vars, s_index) i =>
       b <- PyList.getitem basic_vars i ;;
       if (b =? 0)%nat then
         basic_vars <- PyList.setitem basic_vars i s_index ;;
         Ok (basic_vars, (s_index + 1)%nat)
       else Ok (basic_vars, s_index))
    (repeat 0%nat n, num_vars)
  = Ok (0%nat :: seq num_vars (n - 1), (num_vars + (n - 1))%nat).
Proof.
  intros Hn. unfold range.
  destruct (for_each_seq_inv
              (fun k (s : list nat * nat) =>
                 s = ((0%nat :: seq num_vars (k - 1)) ++ repeat 0%nat (n - k),
                      (num_vars + (k - 1))%nat))
              (fun '(basic_vars, s_index) i =>
                 b <- PyList.getitem basic_vars i ;;
                 if (b =? 0)%nat then
                   basic_vars <- PyList.setitem basic_vars i s_index ;;
                   Ok (basic_vars, (s_index + 1)%nat)
                 else Ok (basic_vars, s_index))
              (n - 1) 1 (repeat 0%nat n, num_vars)) as (s & Hrun & Hs).
  - cbn [Nat.sub seq app]. rewrite Nat.add_0_r.
    destruct n as [| n]; [lia |]. cbn [Nat.sub repeat]. rewrite Nat.sub_0_r.
    reflexivity.
  - intros k s Hk ->.
    assert (Hlen : length (0%nat :: seq num_vars (k - 1)) = k).
    { cbn [length]. rewrite length_seq. lia. }
    assert (Hrep : repeat 0%nat (n - k) = 0%nat :: repeat 0%nat (n - S k)).
    { replace (n - k)%nat with (S (n - S k)) by lia. reflexivity. }
    rewrite Hrep.
    rewrite (getitem_nth _ k 0%nat) by (rewrite length_app, Hlen; cbn [length]; lia).
    cbn [bind].
    rewrite (nth_middle_at _ _ _ _ k Hlen). cbn [Nat.eqb].
    rewrite setitem_Ok by (rewrite length_app, Hlen; cbn [length]; lia).
    cbn [bind]. eexists. split; [reflexivity |].
    rewrite (replace_middle _ _ _ _ k Hlen).
    f_equal; [| lia].
    replace (S k - 1)%nat with (S (k - 1)) by lia.
    rewrite seq_S. cbn [app]. rewrite <- app_assoc. reflexivity.
  - rewrite Hrun, Hs. f_equal.
    replace (1 + (n - 1) - 1)%nat with (n - 1)%nat by lia.
    replace (n - (1 + (n - 1)))%nat with 0%nat by lia.
    cbn [repeat]. rewrite app_nil_r. reflexivity.
Qed.

Lemma objective_fill_loop (t : table) (a n : nat) :
  (1 <= length t)%nat ->
  ((0 < n)%nat -> (a + n <= length (nth 0 t []))%nat) ->
  Forall (fun x => x <= 0) (nth 0 t []) ->
  exists t',
    for_each (seq a n)
      (fun simplex_table i => set_cell simplex_table 0 i (Frac.of_int (-1))) t
    = Ok t' /\
    same_shape t t' /\ Forall (fun x => x <= 0) (nth 0 t' []) /\
    forall i j,
      entry t' i j =
      if ((i =? 0) && (a <=? j) && (j <? a + n))%nat
      then Frac.of_int (-1) else entry t i j.
Proof.
  intros Hl Hcols Hneg.
  destruct (for_each_seq_inv
              (fun (k : nat) (t' : table) =>
                 same_shape t t' /\ Forall (fun x => x <= 0) (nth 0 t' []) /\
                 forall i j,
                   entry t' i j =
                   if ((i =? 0) && (a <=? j) && (j <? k))%nat
                   then Frac.of_int (-1) else entry t i j)
              (fun simplex_table i => set_cell simplex_table 0 i (Frac.of_int (-1)))
              n a t) as (t' & Hrun & Hinv).
  - split; [apply same_shape_refl |]. split; [exact Hneg |].
    intros i j. destruct (i =? 0)%nat; cbn [andb]; [| reflexivity].
    destruct (Nat.leb_spec a j), (Nat.ltb_spec j a); cbn [andb];
      try reflexivity; lia.
  - intros k s Hk ([Hsl Hsr] & Hs0 & Hse).
    destruct (set_cell_spec s 0 k (Frac.of_int (-1))) as (s' & Hset & Hss & He).
    + lia.
    + rewrite Hsr. specialize (Hcols ltac:(lia)). lia.
    + exists s'. split; [exact Hset |]. split; [| split].
      * eapply same_shape_trans; [split; eassumption | exact Hss].
      * apply Forall_forall. intros x Hx.
        destruct (In_nth _ _ 0 Hx) as (j & Hj & <-).
        fold (entry s' 0 j). rewrite He.
        destruct ((0 =? 0)%nat && (j =? k)%nat); [vm_compute; discriminate |].
        rewrite Forall_forall in Hs0. apply Hs0. apply nth_In.
        destruct Hss as [_ Hrows]. rewrite <- Hrows. exact Hj.
      * intros i j. rewrite He, Hse.
        destruct (Nat.eqb_spec i 0) as [-> | Hi]; cbn [andb]; [| reflexivity].
        destruct (Nat.eqb_spec j k) as [-> | Hjk].
        -- rewrite (proj2 (Nat.leb_le a k)) by lia.
           rewrite (proj2 (Nat.ltb_lt k (S k))) by lia. reflexivity.
        -- destruct (Nat.leb_spec a j); cbn [andb]; [| reflexivity].
           destruct (Nat.ltb_spec j k), (Nat.ltb_spec j (S k));
             try reflexivity; lia.
  - exists t'. split; [exact Hrun | exact Hinv].
Qed.

Lemma phase1_no_artificial (t : table) (num_vars num_s_vars : nat) :
  (1 <= length t)%nat ->
  Forall (fun x => x <= 0) (nth 0 t []) ->
  exists t',
    F.phase1 t (repeat 0%nat (length t)) [] num_vars num_s_vars
    = Ok (t', 0%nat :: seq num_vars (length t - 1), []) /\
    same_shape t t' /\
    forall i j,
      entry t' i j =
      if ((i =? 0) && (num_vars + num_s_vars <=? j) && (j <? columns t - 1))%nat
      then Frac.of_int (-1) else entry t i j.
Proof.
  intros Hl Hneg. unfold F.phase1.
  rewrite (getitem_nth t 0 []) by lia. cbn [bind]. unfold range at 1.
  destruct (objective_fill_loop t (num_vars + num_s_vars)
              (length (nth 0 t []) - 1 - (num_vars + num_s_vars)) Hl
              ltac:(lia) Hneg) as (t' & Hrun & Hshape & Hneg' & He).
  rewrite Hrun. cbn [bind for_each].
  rewrite repeat_length, (basic_vars_loop num_vars (length t) Hl). cbn [bind].
  assert (Hc : F.check_condition t' = Ok true).
  { apply (check_condition_true t' (nth 0 t' [])); [| exact Hneg'].
    apply nth_error_nth'. destruct Hshape as [-> _]. lia. }
  rewrite Hc. cbn [bind negb]. exists t'. split; [reflexivity |].
  split; [exact Hshape |].
  intros i j. rewrite He. unfold columns.
  destruct (i =? 0)%nat; cbn [andb]; [| reflexivity].
  destruct (Nat.leb_spec (num_vars + num_s_vars) j); cbn [andb]; [| reflexivity].
  destruct (Nat.ltb_spec j (num_vars + num_s_vars
                            + (length (nth 0 t []) - 1 - (num_vars + num_s_vars)))),
           (Nat.ltb_spec j (length (nth 0 t []) - 1)); try reflexivity; lia.
Qed.

Lemma infeasible_loop (r_index : nat) (basic_vars : list nat) :
  Exists (fun i => (r_index < i)%nat) basic_vars ->
  for_each basic_vars
    (fun (_ : unit) i =>
       if (r_index <? i)%nat then Raise (ValueError "Infeasible solution")
       else Ok tt)
    tt
  = Raise (ValueError "Infeasible solution").
Proof.
  induction 1 as [i l Hi | i l _ IH]; cbn [for_each].
  - rewrite (proj2 (Nat.ltb_lt r_index i) Hi). reflexivity.
  - destruct (r_index <? i)%nat; [reflexivity |]. cbn [bind]. exact IH.
Qed.

(** X15: for constraints that record no artificial row, [simplex_solve]
    raises [ValueError('Infeasible solution')], whatever the objective,
    whenever [num_vars + len(constraints) - 1], the basic variable that
    [phase1] gives the last row, exceeds [num_r_vars + num_s_vars], the
    bound it is compared with. *)
Theorem simplex_solve_infeasible_by_count
    (fuel num_vars : nat) (constraints : list string)
    (objective_function : string * string)
    (t : table) (num_s_vars num_r_vars : nat)
    (Hc : F.construct_simplex_table constraints num_vars
          = Ok (t, [], num_s_vars, num_r_vars))
    (Hne : constraints <> [])
    (Hmany : (num_r_vars + num_s_vars + 1 < num_vars + length constraints)%nat) :
  F.simplex_solve fuel num_vars constraints objective_function
  = Raise (ValueError "Infeasible solution").
Proof.
  destruct (construct_simplex_table_inv _ _ _ _ _ _ Hc)
    as (_ & (Hl & _) & H0 & _).
  cbn [coeff_matrix] in Hl, H0.
  destruct (zero_matrix_shape (length constraints + 1)
              (num_vars + num_s_vars + num_r_vars + 1)) as [Hzl Hzr].
  rewrite Hzl in Hl. rewrite Hzr in H0 by lia.
  assert (Hm : (1 <= length constraints)%nat).
  { destruct constraints; [contradiction | simpl; lia]. }
  destruct (phase1_no_artificial t num_vars num_s_vars) as (t' & Hp & _ & _).
  { lia. }
  { rewrite H0. apply Forall_forall. intros x Hx.
    apply repeat_spec in Hx. subst x. vm_compute. discriminate. }
  unfold F.simplex_solve. rewrite Hc. cbn [bind].
  destruct objective_function as [objective objective_function].
  rewrite Hp. cbn [bind].
  rewrite infeasible_loop; [reflexivity |].
  apply Exists_cons_tl. apply Exists_exists.
  exists (num_vars + (length t - 1 - 1))%nat. split; [| lia].
  apply in_seq. lia.
Qed.

Lemma simplex_solve_infeasible_by_count_witness :
  F.simplex_solve 1 4 c4_constraints c4_objective
  = Raise (ValueError "Infeasible solution").
Proof.
  apply (simplex_solve_infeasible_by_count 1 4 c4_constraints c4_objective
           [[0; 0; 0; 0; 0; 0; 0; 0; 0]; [1; 0; 0; 0; 1; 0; 0; 0; 2];
            [1; 0; 0; 0; 0; 1; 0; 0; 5]] 2 2).
  - vm_compute. reflexivity.
  - discriminate.
  - simpl. lia.
Defined.

(** ** An unbounded direction *)

(** X16: on a table whose rows from 1 on reach the key column,
    [find_key_row] raises [ValueError('Unbounded solution')] if and only if
    no such row has a positive entry in that column. *)
Theorem find_key_row_unbounded (t : table) (key_column : nat)
    (Hwf : forall i, (1 <= i < length t)%nat ->
                     (key_column < length (nth i t []))%nat) :
  F.find_key_row t key_column = Raise (ValueError "Unbounded solution") <->
  forall i, (1 <= i < length t)%nat -> ~ 0 < entry t i key_column.
Proof.
  destruct (key_row_loop t key_column Hwf) as (s & Hloop & Hinv).
  unfold F.find_key_row. rewrite Hloop. cbn [bind].
  destruct s as [[m |] r]; unfold key_row_inv in Hinv.
  - destruct Hinv as (Hr & Hpos & _). split.
    + intros H. destruct (Frac.eqb m 0); discriminate H.
    + intros Hnone. exfalso. apply (Hnone r); [lia | exact Hpos].
  - split; [| reflexivity].
    intros _ i Hi. apply Hinv. lia.
Qed.

Lemma find_key_row_unbounded_witness :
  F.find_key_row unbounded_table 0 = Raise (ValueError "Unbounded solution") <->
  forall i, (1 <= i < length unbounded_table)%nat ->
            ~ 0 < entry unbounded_table i 0.
Proof.
  apply (find_key_row_unbounded unbounded_table 0).
  intros i Hi. simpl in Hi.
  destruct i as [| [| [| i]]]; simpl; lia.
Defined.

(** ** The plan returned by [GomoryMethod.integer_solve] *)

Lemma integer_loop_exit (fuel : nat) :
  forall step o o', OO.integer_loop fuel step o = Ok o' ->
    F.check_integer_condition (OO._coeff_matrix (OO.simplex_table o')) = Ok true.
Proof.
  induction fuel as [| fuel IH]; intros step o o' H; cbn [OO.integer_loop] in H;
    unfold OO._check_integer_condition in H;
    destruct (F.check_integer_condition (OO._coeff_matrix (OO.simplex_table o)))
      as [[|] | e |] eqn:Ec;
    cbn [bind negb] in H; try discriminate H;
    try (injection H as <-; exact Ec).
  destruct (OO._add_clipping o) as [o1 | e |]; cbn [bind] in H; try discriminate H.
  destruct (OO._get_key_row _) as [kr | e |]; cbn [bind] in H; try discriminate H.
  destruct (OO._get_key_column _ kr) as [kc | e |]; cbn [bind] in H;
    try discriminate H.
  destruct (OO.simplex_step _ _ kc kr) as [[m' bv'] | e |]; cbn [bind] in H;
    try discriminate H.
  apply IH in H. exact H.
Qed.

Lemma GomoryMethod_init_solution
      (fuel num_vars : nat) (constraints : list string)
      (objective_function : string * string) (o : OO.GomoryMethod) :
  OO.GomoryMethod_init fuel num_vars constraints objective_function = Ok o ->
  F.create_solution (OO._coeff_matrix (OO.simplex_table o)) (OO.basic_vars o)
    (OO.num_vars o) = Ok (OO.simplex_solution o).
Proof.
  unfold OO.GomoryMethod_init. intros H.
  destruct (OO.SimplexMethod_init num_vars constraints objective_function)
    as [o0 | e |]; cbn [bind] in H; try discriminate H.
  unfold OO.solve in H.
  destruct (OO.renormalize_objective _ _) as [m | e |]; cbn [bind] in H;
    try discriminate H.
  destruct (OO.solve_loop fuel 1 _) as [o1 | e |]; cbn [bind] in H;
    try discriminate H.
  destruct (cell_last _ 0) as [v | e |]; cbn [bind] in H; try discriminate H.
  unfold OO.get_solution in H.
  destruct (F.create_solution _ _ _) as [plane | e |] eqn:Ep; cbn [bind] in H;
    try discriminate H.
  injection H as <-. cbn. exact Ep.
Qed.

(** X17: on an object that [GomoryMethod.__init__] has built, every value
    of the plan that [integer_solve] returns, on either of its return
    paths, is a nonnegative integer. *)
Theorem integer_solve_plan_integer
    (fuel fuel' num_vars : nat) (constraints : list string)
    (objective_function : string * string)
    (o o' : OO.GomoryMethod) (v : Q) (plan : PyDict.dict Q)
    (Hinit : OO.GomoryMethod_init fuel num_vars constraints objective_function
             = Ok o)
    (Hrun : OO.integer_solve fuel' o = Ok (v, plan, o')) :
  forall key x, PyDict.get plan key = Some x -> 0 <= x /\ integral x.
Proof.
  apply GomoryMethod_init_solution in Hinit.
  unfold OO.integer_solve, OO._check_integer_condition in Hrun.
  destruct (F.check_integer_condition (OO._coeff_matrix (OO.simplex_table o)))
    as [[|] | e |] eqn:Ec; cbn [bind] in Hrun; try discriminate Hrun.
  - destruct (cell_last _ 0) as [v0 | e |]; cbn [bind] in Hrun;
      try discriminate Hrun.
    injection Hrun as <- <- <-.
    exact (integer_plan_values _ _ _ _ Ec Hinit).
  - destruct (OO.integer_loop fuel' 1 _) as [o2 | e |] eqn:El; cbn [bind] in Hrun;
      try discriminate Hrun.
    destruct (cell_last _ 0) as [v0 | e |]; cbn [bind] in Hrun;
      try discriminate Hrun.
    unfold OO.get_solution in Hrun.
    match type of Hrun with
    | bind ?m _ = _ => destruct m as [plane | e |] eqn:Ep
    end; cbn [bind] in Hrun; try discriminate Hrun.
    injection Hrun as <- <- <-.
    apply integer_loop_exit in El.
    exact (integer_plan_values _ _ _ _ El Ep).
Qed.

Lemma integer_solve_plan_integer_witness :
  exists o o' v plan,
    OO.GomoryMethod_init 20 Main.num_vars Main.constraints Main.objective_function
      = Ok o /\
    OO.integer_solve 20 o = Ok (v, plan, o') /\
    forall key x, PyDict.get plan key = Some x -> 0 <= x /\ integral x.
Proof.
  do 4 eexists. split; [vm_compute; reflexivity |]. split.
  - vm_compute. reflexivity.
  - eapply (integer_solve_plan_integer 20 20 Main.num_vars Main.constraints
              Main.objective_function).
    + vm_compute. reflexivity.
    + vm_compute. reflexivity.
Defined.

(** ** The history returned by [gomory_solve] *)

Lemma getlast_In {A : Type} (l : list A) (x : A) :
  PyList.getlast l = Ok x -> In x l.
Proof.
  unfold PyList.getlast, PyList.getitem. destruct l as [| a l]; [discriminate |].
  destruct (nth_error (a :: l) (length (a :: l) - 1)) as [y |] eqn:E;
    [| discriminate].
  intros [= <-]. eapply nth_error_In. exact E.
Qed.

Lemma simplex_solve_last_key (fuel num_vars : nat) (constraints : list string)
      (objective_function : string * string) (out : F.solve_output)
      (key : string) (t : table) :
  F.simplex_solve fuel num_vars constraints objective_function = Ok out ->
  PyDict.last_item (F.out_history out) = Ok (key, t) ->
  exists n, simplex_label n key.
Proof.
  unfold F.simplex_solve.
  destruct (F.construct_simplex_table constraints num_vars)
    as [[[[t0 rr] ns] nr] | e |]; cbn [bind]; try discriminate.
  destruct objective_function as [objective objf].
  destruct (F.phase1 t0 _ rr num_vars ns) as [[[t1 bv] h] | e |];
    cbn [bind]; try discriminate.
  destruct (for_each bv _ tt) as [u | e |]; cbn [bind]; try discriminate.
  destruct (F.delete_r_vars t1 num_vars ns) as [t2 | e |]; cbn [bind]; try discriminate.
  destruct (F.update_objective_function t2 objf objective) as [t3 | e |];
    cbn [bind]; try discriminate.
  destruct (F.renormalize_objective t3 bv) as [t4 | e |]; cbn [bind]; try discriminate.
  destruct (F.simplex_loop fuel _) as [st | e |] eqn:Hl; cbn [bind]; try discriminate.
  destruct (cell_last (F.st_table st) 0) as [v | e |]; cbn [bind]; try discriminate.
  destruct (F.create_solution (F.st_table st) (F.st_basic_vars st) num_vars)
    as [plane | e |]; cbn [bind]; try discriminate.
  intros [= <-]. cbn [F.out_history]. intros Hlast.
  apply simplex_loop_tracks in Hl.
  - destruct Hl as [[_ Hkeys] _]. exists (F.st_step st).
    rewrite Forall_forall in Hkeys.
    apply (Hkeys (key, t)). apply getlast_In. exact Hlast.
  - split; [eexists; reflexivity |].
    constructor; [left; reflexivity | constructor].
  - split; [eexists; reflexivity |].
    constructor; [left; reflexivity | constructor].
Qed.

Lemma simplex_label_not_gomory (n : nat) (key : string) :
  simplex_label n key -> key <> "Initial Gomory-method"%string.
Proof.
  intros [-> | (j & _ & ->)] E; simpl in E; discriminate E.
Qed.

Lemma gomory_loop_keeps_initial (fuel : nat) :
  forall st st', F.gomory_loop fuel st = Ok st' ->
    PyDict.get (F.st_history st') "Initial Gomory-method"
    = PyDict.get (F.st_history st) "Initial Gomory-method".
Proof.
  induction fuel as [| fuel IH]; intros st st' H; cbn [F.gomory_loop] in H;
    destruct (F.check_integer_condition (F.st_table st)) as [[|] | e |];
    cbn [bind negb] in H; try discriminate H;
    try (injection H as <-; reflexivity).
  destruct (F.add_clipping _ _) as [[t1 bv1] | e |]; cbn [bind] in H;
    try discriminate H.
  destruct (F.get_key_row t1) as [kr | e |]; cbn [bind] in H; try discriminate H.
  destruct (F.get_key_column t1 kr) as [kc | e |]; cbn [bind] in H;
    try discriminate H.
  destruct (F.simplex_step t1 bv1 kc kr) as [[t2 bv2] | e |]; cbn [bind] in H;
    try discriminate H.
  apply IH in H. rewrite H. cbn [F.st_history]. rewrite dict_get_set.
  destruct (String.eqb_spec ("Gomory method step " ++ PyStr.str (F.st_step st))
              "Initial Gomory-method") as [E | _]; [| reflexivity].
  simpl in E. discriminate E.
Qed.

(** X18: when [gomory_solve] returns four values, in the history it
    returns the key [Initial Gomory-method] holds the table on which the
    simplex method ended, which fails the integer test, while the key of
    the last entry of the simplex history holds the table on which the cut
    loop ended, which passes the integer test and carries the returned
    optimum: the working table is the object stored under that key. *)
Theorem gomory_solve_history_entries
    (fuel num_vars : nat) (constraints : list string)
    (objective_function : string * string)
    (integer_optimum : Q) (plan : PyDict.dict Q)
    (gomory_history : PyDict.dict table)
    (basic_vars_history : PyDict.dict (list nat)) (w : list string)
    (H : F.gomory_solve fuel num_vars constraints objective_function
         = Ok (F.Return4 integer_optimum plan gomory_history basic_vars_history, w)) :
  exists out key t_relaxed t_final,
    F.simplex_solve fuel num_vars constraints objective_function = Ok out /\
    PyDict.last_item (F.out_history out) = Ok (key, t_relaxed) /\
    F.check_integer_condition t_relaxed = Ok false /\
    PyDict.get gomory_history "Initial Gomory-method" = Some t_relaxed /\
    PyDict.get gomory_history key = Some t_final /\
    F.check_integer_condition t_final = Ok true /\
    cell_last t_final 0 = Ok integer_optimum.
Proof.
  unfold F.gomory_solve in H.
  destruct (F.simplex_solve fuel num_vars constraints objective_function)
    as [out | e |] eqn:Es; cbn [bind] in H; try discriminate H.
  destruct (PyDict.last_item (F.out_history out)) as [[key t] | e |] eqn:Ek;
    cbn [bind] in H; try discriminate H.
  destruct (PyDict.last_item (F.out_basic_vars_history out)) as [[key' bv] | e |];
    cbn [bind] in H; try discriminate H.
  destruct (F.check_integer_condition t) as [[|] | e |] eqn:Ec;
    cbn [bind] in H; try discriminate H.
  { destruct (cell_last t 0); cbn [bind] in H; discriminate H. }
  destruct (F.gomory_loop fuel _) as [st | e |] eqn:El; cbn [bind] in H;
    try discriminate H.
  destruct (cell_last (F.st_table st) 0) as [v | e |] eqn:Ev; cbn [bind] in H;
    try discriminate H.
  destruct (F.create_solution (F.st_table st) (F.st_basic_vars st) num_vars)
    as [plane | e |]; cbn [bind] in H; try discriminate H.
  injection H as <- <- <- <- <-.
  destruct (simplex_solve_last_key _ _ _ _ _ _ _ Es Ek) as [n Hn].
  apply simplex_label_not_gomory in Hn.
  exists out, key, t, (F.st_table st).
  split; [reflexivity |]. split; [exact Ek |]. split; [exact Ec |].
  split; [| split; [| split]].
  - rewrite dict_get_set.
    destruct (String.eqb_spec key "Initial Gomory-method") as [E | _];
      [contradiction |].
    rewrite (gomory_loop_keeps_initial _ _ _ El). cbn [F.st_history].
    rewrite dict_get_set, String.eqb_refl. reflexivity.
  - rewrite dict_get_set, String.eqb_refl. reflexivity.
  - exact (gomory_loop_exit _ _ _ El).
  - exact Ev.
Qed.

Lemma gomory_solve_history_entries_witness :
  exists integer_optimum plan gomory_history basic_vars_history w,
    F.gomory_solve 20 Main.num_vars Main.constraints Main.objective_function
    = Ok (F.Return4 integer_optimum plan gomory_history basic_vars_history, w) /\
    exists out key t_relaxed t_final,
      F.simplex_solve 20 Main.num_vars Main.constraints Main.objective_function
      = Ok out /\
      PyDict.last_item (F.out_history out) = Ok (key, t_relaxed) /\
      F.check_integer_condition t_relaxed = Ok false /\
      PyDict.get gomory_history "Initial Gomory-method" = Some t_relaxed /\
      PyDict.get gomory_history key = Some t_final /\
      F.check_integer_condition t_final = Ok true /\
      cell_last t_final 0 = Ok integer_optimum.
Proof.
  do 5 eexists. split.
  - vm_compute. reflexivity.
  - eapply (gomory_solve_history_entries 20 Main.num_vars Main.constraints
              Main.objective_function).
    vm_compute. reflexivity.
Defined.

(** ** The objective row in the two implementations *)

Lemma same_class_refl (e : exn) : same_class e e.
Proof. destruct e; simpl; auto. Qed.

Lemma same_outcome_refl {A : Type} (r : result A) : same_outcome r r.
Proof. destruct r; simpl; auto using same_class_refl. Qed.

Lemma for_each_same_outcome {A St : Type} (xs : list A)
      (f g : St -> A -> result St) :
  (forall s x, same_outcome (f s x) (g s x)) ->
  forall s, same_outcome (for_each xs f s) (for_each xs g s).
Proof.
  intros Hfg. induction xs as [| x xs IH]; intros s; cbn [for_each].
  - reflexivity.
  - specialize (Hfg s x).
    destruct (f s x) as [a | e1 |], (g s x) as [b | e2 |]; cbn [bind];
      simpl in Hfg; try contradiction; try exact Hfg.
    subst b. apply IH.
Qed.

Lemma same_outcome_return {A : Type} (r1 r2 : result A) :
  same_outcome r1 r2 -> same_return r1 r2.
Proof.
  destruct r1 as [a | e1 |], r2 as [b | e2 |]; simpl; auto.
Qed.

Lemma for_each_same_outcome_inv {A St : Type} (I : St -> Prop) (xs : list A)
      (f g : St -> A -> result St) :
  (forall s x, I s -> same_outcome (f s x) (g s x)) ->
  (forall s x s', I s -> f s x = Ok s' -> I s') ->
  forall s, I s -> same_outcome (for_each xs f s) (for_each xs g s).
Proof.
  intros Hfg Hkeep. induction xs as [| x xs IH]; intros s Hs; cbn [for_each].
  - reflexivity.
  - pose proof (Hfg s x Hs) as Hx. pose proof (Hkeep s x) as Hk.
    destruct (f s x) as [a | e1 |], (g s x) as [b | e2 |]; cbn [bind];
      simpl in Hx; try contradiction; try exact Hx.
    subst b. apply IH. apply (Hk a Hs). reflexivity.
Qed.

Lemma for_each_same_return {A St : Type} (xs : list A)
      (f g : St -> A -> result St) :
  (forall s x, same_return (f s x) (g s x)) ->
  forall s, same_return (for_each xs f s) (for_each xs g s).
Proof.
  intros Hfg. induction xs as [| x xs IH]; intros s; cbn [for_each].
  - reflexivity.
  - specialize (Hfg s x).
    destruct (f s x) as [a | e1 |], (g s x) as [b | e2 |]; cbn [bind];
      simpl in Hfg; try contradiction; try exact Hfg.
    subst b. apply IH.
Qed.

Lemma int_of_string_cases (s : string) :
  (exists k, int_of_string s = Ok k) \/
  (exists msg, int_of_string s = Raise (ValueError msg)).
Proof.
  unfold int_of_string. destruct (PyStr.parse_int s) as [k |].
  - left. exists k. reflexivity.
  - right. eexists. reflexivity.
Qed.

Lemma set_cell_at_index_Ok (t : table) (i : nat) (index : string) (v : Q) (k : Z) :
  int_of_string index = Ok k ->
  set_cell_at_index t i index v = set_cell_int t i (k - 1)%Z v.
Proof.
  intros E. unfold set_cell_at_index, set_cell_int. rewrite E. reflexivity.
Qed.

Lemma set_cell_at_index_Raise (t : table) (i : nat) (index : string) (v : Q)
      (e : exn) :
  int_of_string index = Raise e ->
  set_cell_at_index t i index v = (r <- PyList.getitem t i ;; Raise e).
Proof.
  intros E. unfold set_cell_at_index. rewrite E. reflexivity.
Qed.

(** One term of the objective in the two implementations, on a table with
    a row 0 and on any table. *)
Lemma objective_term_agrees (s : table) (tokens : list string) (objective : string)
      (i : nat) :
  let f := fun simplex_table i =>
    tok <- PyList.getitem tokens i ;;
    if PyStr.contains "_" tok then
      '(coeff, index) <- unpack2 (PyStr.split_char "_"%char tok) ;;
      prev <- token_before tokens i ;;
      c <- int_of_string (PyStr.drop_last coeff) ;;
      let v := if String.eqb prev "-" then Frac.of_int c else Frac.of_int (- c) in
      t1 <- set_cell_at_index simplex_table 0 index v ;;
      if PyStr.contains "max" objective
      then scale_cell_at_index t1 0 index (Frac.of_int (-1))
      else Ok t1
    else Ok simplex_table in
  let g := fun m i =>
    tok <- PyList.getitem tokens i ;;
    if PyStr.contains "_" tok then
      '(coeff, index) <- unpack2 (PyStr.split_char "_"%char tok) ;;
      prev <- token_before tokens i ;;
      k <- int_of_string index ;;
      c <- int_of_string (PyStr.drop_last coeff) ;;
      m1 <- (if String.eqb prev "-"
             then OO.set_item m 0 (k - 1)%Z c
             else OO.set_item m 0 (k - 1)%Z (- c)%Z) ;;
      if PyStr.contains "max" objective
      then scale_cell_at_index m1 0 index (Frac.of_int (-1))
      else Ok m1
    else Ok m in
  same_return (f s i) (g s i) /\
  (s <> [] -> same_outcome (f s i) (g s i)) /\
  (forall s', f s i = Ok s' -> length s' = length s).
Proof.
  intros f g. unfold f, g. clear f g.
  destruct (PyList.getitem tokens i) as [tok | e |]; cbn [bind];
    try (split; [exact I | split; [intros _; apply same_class_refl | discriminate]]);
    try (split; [exact I | split; [intros _; exact I | discriminate]]).
  destruct (PyStr.contains "_" tok);
    [| split; [reflexivity | split; [reflexivity | intros s' [= <-]; reflexivity]]].
  destruct (unpack2 _) as [[coeff index] | e |]; cbn [bind];
    try (split; [exact I | split; [intros _; apply same_class_refl | discriminate]]);
    try (split; [exact I | split; [intros _; exact I | discriminate]]).
  destruct (token_before tokens i) as [prev | e |]; cbn [bind];
    try (split; [exact I | split; [intros _; apply same_class_refl | discriminate]]);
    try (split; [exact I | split; [intros _; exact I | discriminate]]).
  assert (Hlen : forall s',
            (c <- int_of_string (PyStr.drop_last coeff) ;;
             t1 <- set_cell_at_index s 0 index
                     (if String.eqb prev "-" then Frac.of_int c
                      else Frac.of_int (- c)) ;;
             if PyStr.contains "max" objective
             then scale_cell_at_index t1 0 index (Frac.of_int (-1))
             else Ok t1) = Ok s' -> length s' = length s).
  { intros s' H.
    destruct (int_of_string (PyStr.drop_last coeff)) as [c | e |];
      cbn [bind] in H; try discriminate H.
    destruct (set_cell_at_index s 0 index _) as [t1 | e |] eqn:E1;
      cbn [bind] in H; try discriminate H.
    apply set_cell_at_index_shape in E1. destruct E1 as [[Hl1 _] _].
    destruct (PyStr.contains "max" objective).
    - apply scale_cell_at_index_shape in H. destruct H as [[Hl2 _] _]. congruence.
    - injection H as <-. exact Hl1. }
  split; [| split; [| exact Hlen]]; clear Hlen.
  - destruct (int_of_string_cases (PyStr.drop_last coeff)) as [[c Ec] | [mc Ec]],
             (int_of_string_cases index) as [[k Ek] | [mk Ek]];
      rewrite Ec, Ek; cbn [bind]; try exact I.
    + rewrite (set_cell_at_index_Ok _ _ _ _ k Ek). unfold OO.set_item.
      apply same_outcome_return.
      destruct (String.eqb prev "-"); apply same_outcome_refl.
    + rewrite (set_cell_at_index_Raise _ _ _ _ _ Ek).
      unfold PyList.getitem. destruct (nth_error s 0); exact I.
  - intros Hs.
    destruct (int_of_string_cases (PyStr.drop_last coeff)) as [[c Ec] | [mc Ec]],
             (int_of_string_cases index) as [[k Ek] | [mk Ek]];
      rewrite Ec, Ek; cbn [bind]; try exact I.
    + rewrite (set_cell_at_index_Ok _ _ _ _ k Ek). unfold OO.set_item.
      destruct (String.eqb prev "-"); apply same_outcome_refl.
    + rewrite (set_cell_at_index_Raise _ _ _ _ _ Ek).
      destruct s as [| r0 s0]; [contradiction |]. exact I.
Qed.

(** X19: [update_objective_function] and
    [SimplexTable._update_objective_function] return the same table or
    both raise, on every table, objective and direction.  On a table with
    a row 0 the exceptions are of the same class: the two convert the
    coefficient and the index of a term in opposite orders, so only the
    message of a [ValueError] can differ.  On the empty table the classes
    can differ: the function reads row 0 before it converts the index and
    raises [IndexError] where the method raises [ValueError]. *)
Theorem update_objective_function_same_in_both
    (t : table) (objective_function objective : string) :
  same_return
    (F.update_objective_function t objective_function objective)
    (OO._update_objective_function t objective_function objective) /\
  (t <> [] ->
   same_outcome
     (F.update_objective_function t objective_function objective)
     (OO._update_objective_function t objective_function objective)) /\
  F.update_objective_function [] "1x_b" "min" = Raise IndexError /\
  OO._update_objective_function [] "1x_b" "min"
  = Raise (ValueError "invalid literal for int() with base 10: 'b'").
Proof.
  split; [| split; [| split; reflexivity]].
  - unfold F.update_objective_function, OO._update_objective_function.
    apply for_each_same_return. intros s i.
    apply (objective_term_agrees s (PyStr.split_ws objective_function) objective i).
  - intros Ht.
    unfold F.update_objective_function, OO._update_objective_function.
    apply (for_each_same_outcome_inv (fun s : table => s <> [])).
    + intros s i Hs.
      apply (objective_term_agrees s (PyStr.split_ws objective_function) objective i).
      exact Hs.
    + intros s i s' Hs H.
      apply (objective_term_agrees s (PyStr.split_ws objective_function) objective i)
        in H.
      intros ->. destruct s; [contradiction | discriminate H].
    + exact Ht.
Qed.

Lemma update_objective_function_same_in_both_witness :
  padded_table <> [] /\
  F.update_objective_function padded_table "1x_1" "max"
  = Ok [[1; 0; 0; 0]; [1; 1; 0; 2]] /\
  same_outcome
    (F.update_objective_function padded_table "1x_1" "max")
    (OO._update_objective_function padded_table "1x_1" "max").
Proof.
  split; [discriminate |]. split; [vm_compute; reflexivity |].
  apply (proj1 (proj2 (update_objective_function_same_in_both
                         padded_table "1x_1" "max"))).
  discriminate.
Defined.

(** ** The cut in the two implementations *)

Lemma set_cell_Ok_cell (t t' : table) (i j : nat) (v : Q) :
  set_cell t i j v = Ok t' -> cell t' (length t' - 1) j = cell t' (length t - 1) j /\
                              cell t' i j = Ok v.
Proof.
  intros H. pose proof H as Hs. apply set_cell_shape in Hs.
  destruct Hs as [[Hl _] _]. rewrite Hl. split; [reflexivity |].
  unfold set_cell, PyList.getitem at 1 in H.
  destruct (nth_error t i) as [r |] eqn:Er; [| discriminate H]. cbn [bind] in H.
  unfold PyList.setitem in H.
  destruct (Nat.ltb_spec j (length r)) as [Hj |]; [| discriminate H].
  cbn [bind] in H.
  destruct (Nat.ltb_spec i (length t)) as [Hi |]; [| discriminate H].
  injection H as <-.
  unfold cell. rewrite (getitem_nth _ i []) by (rewrite length_replace; exact Hi).
  cbn [bind]. rewrite nth_replace_eq by exact Hi.
  rewrite (getitem_nth _ j 0) by (rewrite length_replace; exact Hj).
  rewrite nth_replace_eq by exact Hj. reflexivity.
Qed.

Lemma cut_loops_agree (xs : list (nat * Q)) :
  forall (t : table) (clipping_coeffs : list Q),
    same_outcome
      (for_each xs
         (fun t '(j, coeff) =>
            if negb (Frac.eqb coeff 0) then
              v <- F.clipping_coeff coeff ;;
              set_cell t (length t - 1) j v
            else Ok t) t)
      (s <- for_each xs
         (fun '(t, clipping_coeffs) '(j, coeff) =>
            if negb (Frac.eqb coeff 0) then
              v <- Frac.make (- (Frac.numerator coeff mod Frac.denominator coeff))%Z
                             (Frac.denominator coeff) ;;
              t' <- set_cell t (length t - 1) j v ;;
              x <- cell t' (length t' - 1) j ;;
              Ok (t', clipping_coeffs ++ [x])
            else Ok (t, clipping_coeffs)) (t, clipping_coeffs) ;;
       Ok (fst s)).
Proof.
  induction xs as [| [j coeff] xs IH]; intros t cc; cbn [for_each].
  - reflexivity.
  - destruct (negb (Frac.eqb coeff 0)); cbn [bind]; [| apply IH].
    unfold F.clipping_coeff, F.get_fraction.
    destruct (Frac.make _ _) as [v | e |]; cbn [bind];
      try apply same_outcome_refl.
    destruct (set_cell t (length t - 1) j v) as [t' | e |] eqn:Es; cbn [bind];
      try apply same_outcome_refl.
    destruct (set_cell_Ok_cell _ _ _ _ _ Es) as [E1 E2].
    rewrite E1, E2. cbn [bind]. apply IH.
Qed.

(** X20: on an object whose table has at least two rows, with rows 0 and
    1 of the same length, [GomoryMethod._add_clipping] leaves the table and
    the basic variables that [add_clipping] returns for them, or both raise
    the same exception; on a table with fewer than two rows the method
    raises [IndexError], since it sizes the new row by row 1. *)
Theorem add_clipping_same_in_both (o : OO.GomoryMethod) :
  ((2 <= length (OO._coeff_matrix (OO.simplex_table o)))%nat ->
   length (nth 1 (OO._coeff_matrix (OO.simplex_table o)) [])
   = length (nth 0 (OO._coeff_matrix (OO.simplex_table o)) []) ->
   same_outcome
     (F.add_clipping (OO._coeff_matrix (OO.simplex_table o)) (OO.basic_vars o))
     (o' <- OO._add_clipping o ;;
      Ok (OO._coeff_matrix (OO.simplex_table o'), OO.basic_vars o'))) /\
  ((length (OO._coeff_matrix (OO.simplex_table o)) <= 1)%nat ->
   OO._add_clipping o = Raise IndexError).
Proof.
  set (m := OO._coeff_matrix (OO.simplex_table o)). split.
  - intros Hrows Hlen.
    unfold F.add_clipping, OO._add_clipping, OO._find_max_fractional_index.
    fold m.
    destruct (F.find_max_fractional_index m) as [index | e |]; cbn [bind];
      try apply same_outcome_refl.
    unfold F.add_clipping_from, OO.add_zero_row.
    rewrite (getitem_nth m 0 []), (getitem_nth m 1 []) by lia. cbn [bind].
    rewrite Hlen.
    set (m1 := m ++ [repeat (Frac.of_int 0) (length (nth 0 m []))]).
    destruct (for_each (range 0 (length m1)) _ m1) as [m2 | e |]; cbn [bind];
      try apply same_outcome_refl.
    destruct (PyList.getitem m2 index) as [source | e |]; cbn [bind];
      try apply same_outcome_refl.
    pose proof (cut_loops_agree (enumerate source) m2 []) as Hsim.
    destruct (for_each (enumerate source) _ m2) as [t1 | e1 |];
      destruct (for_each (enumerate source) _ (m2, [])) as [[t2 cc] | e2 |];
      cbn [bind fst same_outcome] in Hsim; cbn [bind]; try contradiction.
    + subst t2. reflexivity.
    + exact Hsim.
    + exact I.
  - intros Hl. unfold OO._add_clipping, OO._find_max_fractional_index. fold m.
    unfold F.find_max_fractional_index, range.
    replace (length m - 1)%nat with 0%nat by lia. cbn [seq for_each bind].
    unfold OO.add_zero_row, PyList.getitem.
    destruct (nth_error m 1) as [r |] eqn:E; [| reflexivity].
    assert (1 < length m)%nat by (apply nth_error_Some; congruence). lia.
Qed.

(** ** The equations of a table *)

Lemma qsum_ext (f g : nat -> Q) (n : nat) :
  (forall j, (j < n)%nat -> f j == g j) -> qsum f n == qsum g n.
Proof.
  induction n as [| n IH]; intros H; cbn [qsum]; [reflexivity |].
  rewrite IH by (intros j Hj; apply H; lia).
  rewrite (H n) by lia. reflexivity.
Qed.

Lemma qsum_scal (c : Q) (f : nat -> Q) (n : nat) :
  qsum (fun j => c * f j) n == c * qsum f n.
Proof.
  induction n as [| n IH]; cbn [qsum]; [ring |]. rewrite IH. ring.
Qed.

Lemma qsum_sub (f g : nat -> Q) (n : nat) :
  qsum (fun j => f j - g j) n == qsum f n - qsum g n.
Proof.
  induction n as [| n IH]; cbn [qsum]; [ring |]. rewrite IH. ring.
Qed.





(** ** The cut and the integer points *)

Lemma add_clipping_entries (t : table) (basic_vars : list nat) (r : nat) :
  rectangular t -> (2 <= length t)%nat -> (1 <= columns t)%nat ->
  F.find_max_fractional_index t = Ok r ->
  exists t',
    F.add_clipping t basic_vars = Ok (t', basic_vars ++ [length t]) /\
    (1 <= r < length t)%nat /\
    length t' = S (length t) /\
    rectangular t' /\ columns t' = S (columns t) /\
    (forall i j, (i < length t)%nat -> entry t' i j = widened_entry t i j) /\
    (forall j, (j < S (columns t))%nat ->
       entry t' (length t) j =
       if negb (Frac.eqb (widened_entry t r j) 0)
       then gomory_coefficient (widened_entry t r j)
       else if (j =? columns t - 1)%nat then 1 else 0).
Proof.
  intros Hrect Hrows Hcols Hsrc.
  pose proof (find_max_fractional_index_range t r Hrows Hsrc) as Hr.
  unfold F.add_clipping. rewrite Hsrc. cbn [bind]. unfold F.add_clipping_from.
  rewrite (getitem_nth t 0 []) by lia. cbn [bind]. fold (columns t).
  destruct (widen_loop (t ++ [repeat (Frac.of_int 0) (columns t)])) as (t2 & Hloop & Hw).
  rewrite Hloop. cbn [bind]. clear Hloop.
  rewrite last_length in Hw.
  destruct (widened_table t t2 Hrect ltac:(lia) Hw) as (Hl2 & Hrect2 & Hc2 & Hold & Hnew).
  rewrite (getitem_nth t2 r []) by lia. cbn [bind].
  destruct (cut_loop t2 r Hrect2 ltac:(lia) ltac:(lia)) as (t3 & Hcut & Hs3 & He3).
  rewrite Hcut. cbn [bind]. clear Hcut.
  assert (Hl3 : length t3 = S (length t)) by (destruct Hs3 as [Hl3 _]; lia).
  destruct (rectangular_same_shape t2 t3 Hrect2 Hs3) as [Hrect3 Hc3].
  rewrite Hl2, Hc2 in He3.
  replace (S (length t) - 1)%nat with (length t) in He3 by lia.
  exists t3.
  split; [rewrite Hl3; repeat f_equal; lia |].
  split; [exact Hr |]. split; [exact Hl3 |]. split; [exact Hrect3 |].
  split; [congruence |]. split.
  - intros i j Hi. rewrite He3.
    rewrite (proj2 (Nat.eqb_neq i (length t))) by lia. cbn [andb].
    apply Hold. exact Hi.
  - intros j Hj. rewrite He3, Nat.eqb_refl.
    rewrite (proj2 (Nat.ltb_lt j (S (columns t)))) by exact Hj. cbn [andb].
    rewrite (Hold r j) by lia. fold (widened_entry t r j).
    destruct (negb (Frac.eqb (widened_entry t r j) 0)); [reflexivity | apply Hnew].
Qed.

Lemma fractional_bounds (a : Q) : 0 <= fractional a /\ fractional a < 1.
Proof.
  unfold fractional. split.
  - pose proof (Qfloor_le a) as H.
    rewrite <- (Qplus_opp_r (inject_Z (Qfloor a))).
    apply Qplus_le_compat; [exact H | apply Qle_refl].
  - pose proof (Qlt_floor a) as H. rewrite inject_Z_plus in H.
    apply Qplus_lt_l with (z := inject_Z (Qfloor a)).
    assert (E : a - inject_Z (Qfloor a) + inject_Z (Qfloor a) == a) by ring.
    rewrite E, Qplus_comm. exact H.
Qed.

Lemma fractional_comp (a b : Q) : a == b -> fractional a == fractional b.
Proof.
  intros H. unfold fractional. rewrite (Qfloor_comp a b H), H. reflexivity.
Qed.

Lemma gomory_coefficient_fractional (a : Q) :
  gomory_coefficient a == - fractional a.
Proof.
  destruct (gomory_coefficient_value a) as (Hv & _ & _). rewrite Hv.
  rewrite (fractional_comp a (Qred a)) by (symmetry; apply Qred_correct).
  unfold Frac.numerator, Frac.denominator, fractional.
  destruct (Qred a) as [n d]. cbn [Qnum Qden Qfloor].
  rewrite Z.mod_eq by discriminate.
  rewrite (Qmake_Qdiv n d).
  rewrite inject_Z_opp. unfold Z.sub. rewrite inject_Z_plus, inject_Z_opp, inject_Z_mult.
  field. discriminate.
Qed.

Lemma cut_entry_fractional (a : Q) :
  (if negb (Frac.eqb a 0) then gomory_coefficient a else 0) == - fractional a.
Proof.
  destruct (Frac.eqb a 0) eqn:E; cbn [negb].
  - apply eqb_true in E. rewrite (fractional_comp a 0 E). reflexivity.
  - apply gomory_coefficient_fractional.
Qed.

Lemma integral_comp (a b : Q) : a == b -> integral a -> integral b.
Proof. intros H [z Hz]. exists z. rewrite <- H. exact Hz. Qed.

Lemma integral_inject (z : Z) : integral (inject_Z z).
Proof. exists z. reflexivity. Qed.

Lemma integral_plus (a b : Q) : integral a -> integral b -> integral (a + b).
Proof.
  intros [za Ha] [zb Hb]. exists (za + zb)%Z.
  rewrite inject_Z_plus, Ha, Hb. reflexivity.
Qed.

Lemma integral_mult (a b : Q) : integral a -> integral b -> integral (a * b).
Proof.
  intros [za Ha] [zb Hb]. exists (za * zb)%Z.
  rewrite inject_Z_mult, Ha, Hb. reflexivity.
Qed.

Lemma integral_opp (a : Q) : integral a -> integral (- a).
Proof.
  intros [za Ha]. exists (- za)%Z. rewrite inject_Z_opp, Ha. reflexivity.
Qed.

Lemma qsum_integral (f : nat -> Q) (n : nat) :
  (forall j, (j < n)%nat -> integral (f j)) -> integral (qsum f n).
Proof.
  induction n as [| n IH]; intros H; cbn [qsum].
  - exists 0%Z. reflexivity.
  - apply integral_plus; [apply IH; intros j Hj; apply H; lia | apply H; lia].
Qed.

Lemma qsum_nonneg (f : nat -> Q) (n : nat) :
  (forall j, (j < n)%nat -> 0 <= f j) -> 0 <= qsum f n.
Proof.
  induction n as [| n IH]; intros H; cbn [qsum].
  - apply Qle_refl.
  - rewrite <- (Qplus_0_l 0).
    apply Qplus_le_compat; [apply IH; intros j Hj; apply H; lia | apply H; lia].
Qed.

Lemma integral_above_minus_one (s : Q) : integral s -> - (1) < s -> 0 <= s.
Proof.
  intros [z Hz] H. rewrite Hz in *.
  change (- (1)) with (inject_Z (-1)) in H. rewrite <- Zlt_Qlt in H.
  change 0 with (inject_Z 0). rewrite <- Zle_Qle. lia.
Qed.

(** The slack of the cut at an integer point of its source row. *)
Lemma cut_slack (a : nat -> Q) (b : Q) (x : nat -> Q) (n : nat) :
  (forall j, (j < n)%nat -> 0 <= x j /\ integral (x j)) ->
  qsum (fun j => a j * x j) n == b ->
  0 <= qsum (fun j => fractional (a j) * x j) n - fractional b /\
  integral (qsum (fun j => fractional (a j) * x j) n - fractional b).
Proof.
  intros Hx Hrow.
  assert (Hi : integral (qsum (fun j => fractional (a j) * x j) n - fractional b)).
  { apply (integral_comp
             (inject_Z (Qfloor b)
              + - qsum (fun j => inject_Z (Qfloor (a j)) * x j) n)).
    - rewrite (qsum_ext (fun j => fractional (a j) * x j)
                 (fun j => a j * x j - inject_Z (Qfloor (a j)) * x j))
        by (intros j _; unfold fractional; ring).
      rewrite qsum_sub, Hrow. unfold fractional. ring.
    - apply integral_plus; [apply integral_inject |].
      apply integral_opp. apply qsum_integral. intros j Hj.
      apply integral_mult; [apply integral_inject | apply Hx; exact Hj]. }
  split; [| exact Hi].
  apply integral_above_minus_one; [exact Hi |].
  assert (Hs : 0 <= qsum (fun j => fractional (a j) * x j) n).
  { apply qsum_nonneg. intros j Hj.
    apply Qmult_le_0_compat; [apply fractional_bounds | apply Hx; exact Hj]. }
  destruct (fractional_bounds b) as [_ Hb].
  apply Qlt_le_trans with (0 - fractional b).
  - apply Qplus_lt_l with (z := fractional b + 1).
    assert (E1 : - (1) + (fractional b + 1) == fractional b) by ring.
    assert (E2 : 0 - fractional b + (fractional b + 1) == 1) by ring.
    rewrite E1, E2. exact Hb.
  - apply Qplus_le_compat; [exact Hs | apply Qle_refl].
Qed.

(** X22: a cut removes no integer point. On a rectangular table with a
    constraint row, every point with nonnegative integer coordinates that
    satisfies the source row of the cut extends, by a nonnegative integer
    value of the new variable, to a point that satisfies the cut row that
    [add_clipping] adds; and a row of the old table holds at the point
    exactly when the same row of the new table holds at the extended
    point. *)
Theorem add_clipping_keeps_integer_points
    (t : table) (basic_vars : list nat) (r : nat) (x : nat -> Q)
    (Hrect : rectangular t)
    (Hrows : (2 <= length t)%nat)
    (Hcols : (1 <= columns t)%nat)
    (Hsrc : F.find_max_fractional_index t = Ok r)
    (Hint : forall j, (j < columns t - 1)%nat -> 0 <= x j /\ integral (x j))
    (Hrow : satisfies_row t r x) :
  exists t' basic_vars' s,
    F.add_clipping t basic_vars = Ok (t', basic_vars') /\
    0 <= s /\ integral s /\
    satisfies_row t' (length t) (extend x (columns t - 1) s) /\
    forall i, (i < length t)%nat ->
              (satisfies_row t i x <->
               satisfies_row t' i (extend x (columns t - 1) s)).
Proof.
  destruct (add_clipping_entries t basic_vars r Hrect Hrows Hcols Hsrc)
    as (t' & Hrun & Hr & Hl' & Hrect' & Hc' & Hold & Hnew).
  set (n := (columns t - 1)%nat) in *.
  set (s := qsum (fun j => fractional (entry t r j) * x j) n
            - fractional (rhs t r)).
  destruct (cut_slack (fun j => entry t r j) (rhs t r) x n Hint Hrow) as [Hs0 Hsi].
  fold s in Hs0, Hsi.
  exists t', (basic_vars ++ [length t]), s.
  split; [exact Hrun |]. split; [exact Hs0 |]. split; [exact Hsi |].
  assert (Hcn : (columns t' - 1 = S n)%nat) by (unfold n; lia).
  assert (Hw_lt : forall i j, (j < n)%nat -> widened_entry t i j = entry t i j).
  { intros i j Hj. unfold widened_entry. fold n.
    rewrite (proj2 (Nat.ltb_lt j n) Hj). reflexivity. }
  assert (Hw_n : forall i, widened_entry t i n = 0).
  { intros i. unfold widened_entry. fold n.
    rewrite Nat.ltb_irrefl, Nat.eqb_refl. reflexivity. }
  assert (Hw_rhs : forall i, (i < length t)%nat -> widened_entry t i (S n) = rhs t i).
  { intros i Hi. unfold widened_entry. fold n.
    rewrite (proj2 (Nat.ltb_ge (S n) n)) by lia.
    rewrite (proj2 (Nat.eqb_neq (S n) n)) by lia.
    rewrite (rhs_as_entry t i Hrect Hi). fold n. f_equal. lia. }
  assert (Hx_lt : forall j, (j < n)%nat -> extend x n s j = x j).
  { intros j Hj. unfold extend.
    rewrite (proj2 (Nat.eqb_neq j n)) by lia. reflexivity. }
  assert (Hx_n : extend x n s n = s).
  { unfold extend. rewrite Nat.eqb_refl. reflexivity. }
  split.
  - unfold satisfies_row, lhs. rewrite Hcn. cbn [qsum].
    rewrite (rhs_as_entry t' (length t) Hrect') by lia. rewrite Hcn.
    rewrite !Hnew by (fold n; lia). rewrite Hw_n, (Hw_rhs r) by lia.
    change (Frac.eqb 0 0) with true. cbn [negb]. rewrite Nat.eqb_refl, Hx_n.
    rewrite (proj2 (Nat.eqb_neq (S n) n)) by lia.
    rewrite (cut_entry_fractional (rhs t r)).
    rewrite (qsum_ext _ (fun j => - (1) * (fractional (entry t r j) * x j))).
    + rewrite qsum_scal. unfold s. ring.
    + intros j Hj. rewrite Hnew by (fold n; lia).
      rewrite (Hw_lt r j Hj), (Hx_lt j Hj).
      rewrite (proj2 (Nat.eqb_neq j n)) by lia.
      rewrite (cut_entry_fractional (entry t r j)). ring.
  - intros i Hi. unfold satisfies_row, lhs. rewrite Hcn. cbn [qsum]. fold n.
    rewrite (rhs_as_entry t' i Hrect') by lia. rewrite Hcn.
    rewrite !Hold by exact Hi. rewrite Hw_n, (Hw_rhs i Hi).
    rewrite (qsum_ext (fun j => entry t' i j * extend x n s j)
               (fun j => entry t i j * x j))
      by (intros j Hj; rewrite Hold, (Hw_lt i j Hj), (Hx_lt j Hj) by exact Hi;
          reflexivity).
    assert (E : qsum (fun j => entry t i j * x j) n + 0 * extend x n s n
                == qsum (fun j => entry t i j * x j) n) by ring.
    rewrite E. reflexivity.
Qed.

Lemma add_clipping_keeps_integer_points_witness :
  exists t' basic_vars' s,
    F.add_clipping relaxed_table [0; 1; 0]%nat = Ok (t', basic_vars') /\
    0 <= s /\ integral s /\
    satisfies_row t' (length relaxed_table)
      (extend row1_point (columns relaxed_table - 1) s) /\
    forall i, (i < length relaxed_table)%nat ->
              (satisfies_row relaxed_table i row1_point <->
               satisfies_row t' i
                 (extend row1_point (columns relaxed_table - 1) s)).
Proof.
  apply (add_clipping_keeps_integer_points relaxed_table [0; 1; 0]%nat 1 row1_point).
  - intros i Hi. simpl in Hi. destruct i as [| [| [| i]]]; simpl; try lia; reflexivity.
  - simpl. lia.
  - unfold columns. simpl. lia.
  - vm_compute. reflexivity.
  - intros j Hj. unfold columns in Hj. simpl in Hj.
    destruct j as [| [| [| [| j]]]]; try lia;
      (split; [vm_compute; discriminate |]).
    + exists 0%Z. reflexivity.
    + exists 2%Z. reflexivity.
    + exists 2%Z. reflexivity.
    + exists 0%Z. reflexivity.
  - vm_compute. reflexivity.
Defined.

(** ** The infeasibility test of the class *)

Lemma bind_not_infeasible {A B : Type} (m : result A) (k : A -> result B) :
  not_infeasible m -> (forall a, not_infeasible (k a)) -> not_infeasible (bind m k).
Proof.
  intros Hm Hk. destruct m as [a | e |]; cbn [bind].
  - apply Hk.
  - intros E. injection E as ->. apply Hm. reflexivity.
  - discriminate.
Qed.

Lemma for_each_not_infeasible {A St : Type} (xs : list A)
      (body : St -> A -> result St) :
  (forall s x, not_infeasible (body s x)) ->
  forall s, not_infeasible (for_each xs body s).
Proof.
  intros Hb. induction xs as [| x xs IH]; intros s; cbn [for_each].
  - discriminate.
  - apply bind_not_infeasible; [apply Hb | exact IH].
Qed.

Ltac not_infeasible_step :=
  match goal with
  | |- not_infeasible (bind _ _) => apply bind_not_infeasible; [| intros]
  | |- not_infeasible (for_each _ _ _) => apply for_each_not_infeasible; intros
  | |- not_infeasible (if ?c then _ else _) => destruct c
  | |- not_infeasible (match ?x with _ => _ end) => destruct x
  | |- not_infeasible (Ok _) => discriminate
  | |- not_infeasible (Raise IndexError) => discriminate
  | |- not_infeasible (Raise (ValueError _)) =>
      let E := fresh "E" in intros E; simpl in E; discriminate E
  end.

Ltac not_infeasible_auto := repeat not_infeasible_step.

Lemma getitem_not_infeasible {A : Type} (l : list A) (i : nat) :
  not_infeasible (PyList.getitem l i).
Proof. unfold PyList.getitem. not_infeasible_auto. Qed.

Lemma setitem_not_infeasible {A : Type} (l : list A) (i : nat) (v : A) :
  not_infeasible (PyList.setitem l i v).
Proof. unfold PyList.setitem. not_infeasible_auto. Qed.

Lemma getlast_not_infeasible {A : Type} (l : list A) :
  not_infeasible (PyList.getlast l).
Proof.
  unfold PyList.getlast. destruct l; [discriminate | apply getitem_not_infeasible].
Qed.

Lemma setlast_not_infeasible {A : Type} (l : list A) (v : A) :
  not_infeasible (PyList.setlast l v).
Proof.
  unfold PyList.setlast. destruct l; [discriminate | apply setitem_not_infeasible].
Qed.

Lemma getitem_int_not_infeasible {A : Type} (l : list A) (i : Z) :
  not_infeasible (PyList.getitem_int l i).
Proof.
  unfold PyList.getitem_int.
  destruct (0 <=? i)%Z; [apply getitem_not_infeasible |].
  destruct (_ <=? i)%Z; [apply getitem_not_infeasible | discriminate].
Qed.

Lemma setitem_int_not_infeasible {A : Type} (l : list A) (i : Z) (v : A) :
  not_infeasible (PyList.setitem_int l i v).
Proof.
  unfold PyList.setitem_int.
  destruct (0 <=? i)%Z; [apply setitem_not_infeasible |].
  destruct (_ <=? i)%Z; [apply setitem_not_infeasible | discriminate].
Qed.

Lemma set_cell_not_infeasible (t : table) (i j : nat) (v : Q) :
  not_infeasible (set_cell t i j v).
Proof.
  unfold set_cell.
  apply bind_not_infeasible; [apply getitem_not_infeasible | intros r].
  apply bind_not_infeasible; [apply setitem_not_infeasible | intros r'].
  apply setitem_not_infeasible.
Qed.

Lemma set_cell_int_not_infeasible (t : table) (i : nat) (j : Z) (v : Q) :
  not_infeasible (set_cell_int t i j v).
Proof.
  unfold set_cell_int.
  apply bind_not_infeasible; [apply getitem_not_infeasible | intros r].
  apply bind_not_infeasible; [apply setitem_int_not_infeasible | intros r'].
  apply setitem_not_infeasible.
Qed.

Lemma set_cell_last_not_infeasible (t : table) (i : nat) (v : Q) :
  not_infeasible (set_cell_last t i v).
Proof.
  unfold set_cell_last.
  apply bind_not_infeasible; [apply getitem_not_infeasible | intros r].
  apply bind_not_infeasible; [apply setlast_not_infeasible | intros r'].
  apply setitem_not_infeasible.
Qed.

Lemma int_of_string_not_infeasible (s : string) : not_infeasible (int_of_string s).
Proof.
  unfold int_of_string. destruct (PyStr.parse_int s); [discriminate |].
  intros E. cbn [append] in E. discriminate E.
Qed.

Lemma of_literal_not_infeasible (s : string) : not_infeasible (Frac.of_literal s).
Proof.
  unfold Frac.of_literal. destruct (PyStr.parse_numerator s); [discriminate |].
  intros E. cbn [append] in E. discriminate E.
Qed.

Lemma set_cell_at_index_not_infeasible (t : table) (i : nat) (index : string) (v : Q) :
  not_infeasible (set_cell_at_index t i index v).
Proof.
  unfold set_cell_at_index.
  apply bind_not_infeasible; [apply getitem_not_infeasible | intros r].
  apply bind_not_infeasible; [apply int_of_string_not_infeasible | intros k].
  apply bind_not_infeasible; [apply setitem_int_not_infeasible | intros r'].
  apply setitem_not_infeasible.
Qed.

Lemma scale_cell_at_index_not_infeasible
      (t : table) (i : nat) (index : string) (c : Q) :
  not_infeasible (scale_cell_at_index t i index c).
Proof.
  unfold scale_cell_at_index.
  apply bind_not_infeasible; [apply getitem_not_infeasible | intros r].
  apply bind_not_infeasible; [apply int_of_string_not_infeasible | intros k].
  apply bind_not_infeasible; [apply getitem_int_not_infeasible | intros x].
  apply bind_not_infeasible; [apply setitem_int_not_infeasible | intros r'].
  apply setitem_not_infeasible.
Qed.

Lemma unpack2_not_infeasible (parts : list string) :
  not_infeasible (unpack2 parts).
Proof.
  unfold unpack2. destruct parts as [| a [| b [| c parts]]]; not_infeasible_auto.
Qed.

Lemma token_before_not_infeasible (tokens : list string) (j : nat) :
  not_infeasible (token_before tokens j).
Proof.
  unfold token_before.
  destruct j; [apply getlast_not_infeasible | apply getitem_not_infeasible].
Qed.

Create HintDb not_infeasible.

#[local] Hint Resolve getitem_not_infeasible setitem_not_infeasible
  getlast_not_infeasible set_cell_not_infeasible set_cell_int_not_infeasible
  set_cell_last_not_infeasible set_cell_at_index_not_infeasible
  scale_cell_at_index_not_infeasible unpack2_not_infeasible
  token_before_not_infeasible int_of_string_not_infeasible
  of_literal_not_infeasible : not_infeasible.

Ltac not_infeasible_solve :=
  repeat first
    [ solve [auto with not_infeasible]
    | match goal with
      | |- not_infeasible (bind _ _) => apply bind_not_infeasible; [| intros]
      | |- not_infeasible (for_each _ _ _) => apply for_each_not_infeasible; intros
      | |- not_infeasible (if ?c then _ else _) => destruct c
      | |- not_infeasible (match ?x with (_, _) => _ end) => destruct x
      | |- not_infeasible (Ok _) => discriminate
      end ].

Lemma fill_token_not_infeasible (i j : nat) (constraint : list string)
      (st : fill_state) :
  not_infeasible (fill_token i constraint st j).
Proof. unfold fill_token. not_infeasible_solve. Qed.

Lemma fill_rhs_not_infeasible (i : nat) (constraint : list string)
      (st : fill_state) :
  not_infeasible (fill_rhs i constraint st).
Proof. unfold fill_rhs. not_infeasible_solve. Qed.

Lemma class_update_objective_not_infeasible
      (m : table) (objective_function objective : string) :
  not_infeasible (OO._update_objective_function m objective_function objective).
Proof.
  unfold OO._update_objective_function, OO.set_item. not_infeasible_solve.
Qed.

Lemma SimplexTable_init_not_infeasible
      (num_vars : nat) (constraints : list string)
      (objective objective_function : string) :
  not_infeasible
    (OO.SimplexTable_init num_vars constraints objective objective_function).
Proof.
  unfold OO.SimplexTable_init. destruct (count_aux_vars constraints) as [ns nr].
  apply bind_not_infeasible.
  - apply for_each_not_infeasible. intros s i.
    apply bind_not_infeasible; [apply getitem_not_infeasible | intros expr].
    apply bind_not_infeasible; [| intros st'; apply fill_rhs_not_infeasible].
    apply for_each_not_infeasible. intros s' j. apply fill_token_not_infeasible.
  - intros st.
    apply bind_not_infeasible;
      [apply class_update_objective_not_infeasible | intros m; discriminate].
Qed.

Lemma zeros_pass_the_test (r_index n : nat) :
  for_each (repeat 0%nat n)
    (fun (_ : unit) i =>
       if (r_index <? i)%nat then Raise (ValueError "Infeasible solution")
       else Ok tt)
    tt
  = Ok tt.
Proof. induction n as [| n IH]; [reflexivity | exact IH]. Qed.

(** X23: [SimplexMethod.__init__] never raises
    [ValueError("Infeasible solution")]: the basic variables it tests are
    the zeros it has just created, no one of which exceeds the bound. *)
Theorem SimplexMethod_init_never_infeasible
    (num_vars : nat) (constraints : list string)
    (objective_function : string * string) :
  OO.SimplexMethod_init num_vars constraints objective_function
  <> Raise (ValueError "Infeasible solution").
Proof.
  change (not_infeasible
            (OO.SimplexMethod_init num_vars constraints objective_function)).
  unfold OO.SimplexMethod_init.
  destruct objective_function as [objective objective_function].
  apply bind_not_infeasible; [apply SimplexTable_init_not_infeasible | intros t].
  unfold OO.get_matrix_params. rewrite zeros_pass_the_test. cbn [bind].
  apply bind_not_infeasible; [| intros m; discriminate].
  unfold OO._delete_r_vars.
  destruct (delete_r_vars_outcome (OO._coeff_matrix t) num_vars (OO._num_s_vars t))
    as [(t' & -> & _) | ->]; discriminate.
Qed.

(** ** The basis that [phase1] sets up *)

(** X24: with no artificial row, on a table with a row 0 that has no
    positive entry, [phase1] pivots nowhere: it returns an empty history,
    the basic variables [0, num_vars, num_vars + 1, ...] (row [i] gets
    variable [num_vars + i - 1]), and the table with [-1] written in row 0
    at the columns from [num_vars + num_s_vars] up to the right-hand side,
    which is left as it is. *)
Theorem phase1_slack_basis (t : table) (num_vars num_s_vars : nat)
    (Hrows : (1 <= length t)%nat)
    (Hneg : Forall (fun x => x <= 0) (nth 0 t [])) :
  exists t',
    F.phase1 t (repeat 0%nat (length t)) [] num_vars num_s_vars
    = Ok (t', 0%nat :: seq num_vars (length t - 1), []) /\
    same_shape t t' /\
    forall i j,
      entry t' i j =
      if ((i =? 0) && (num_vars + num_s_vars <=? j) && (j <? columns t - 1))%nat
      then Frac.of_int (-1) else entry t i j.
Proof. exact (phase1_no_artificial t num_vars num_s_vars Hrows Hneg). Qed.

Lemma phase1_slack_basis_witness :
  exists t',
    F.phase1 c4_start_table (repeat 0%nat (length c4_start_table)) [] 1 2
    = Ok (t', 0%nat :: seq 1 (length c4_start_table - 1), []) /\
    same_shape c4_start_table t' /\
    forall i j,
      entry t' i j =
      if ((i =? 0) && (1 + 2 <=? j) && (j <? columns c4_start_table - 1))%nat
      then Frac.of_int (-1) else entry c4_start_table i j.
Proof.
  apply (phase1_slack_basis c4_start_table 1 2).
  - simpl. lia.
  - repeat constructor; discriminate.
Defined.

(** * The claims restated *)

(** ** The key row of the re-optimization step *)

(** The row [get_key_row] returns: of most negative right-hand side and
    the last such row, or the last row of the table when no right-hand side
    is negative. *)
Lemma get_key_row_rule
    (t : table) (Hrows : (2 <= length t)%nat)
    (Hne : forall i, (1 <= i < length t)%nat -> nth i t [] <> []) :
  exists r,
    F.get_key_row t = Ok r /\ (1 <= r < length t)%nat /\
    ((exists i, (1 <= i < length t)%nat /\ rhs t i < 0) ->
     rhs t r < 0 /\
     (forall i, (1 <= i < length t)%nat -> rhs t r <= rhs t i) /\
     (forall i, (r < i < length t)%nat -> rhs t r < rhs t i)) /\
    ((forall i, (1 <= i < length t)%nat -> 0 <= rhs t i) ->
     r = (length t - 1)%nat).
Proof.
  destruct (last_max_loop (beta_list t)) as (kr & Hloop & H0 & Hlt & Hmax).
  rewrite beta_list_length in *.
  specialize (Hlt ltac:(lia)).
  exists (kr + 1)%nat.
  split.
  { unfold F.get_key_row. rewrite (beta_list_computed t Hne). cbn [bind].
    rewrite beta_list_length. rewrite Hloop. reflexivity. }
  split; [lia |].
  assert (Hsign : forall i, (1 <= i < length t)%nat -> rhs t i < 0 \/ 0 <= rhs t i).
  { intros i _. destruct (Qlt_le_dec (rhs t i) 0); auto. }
  assert (Hw : forall i, (1 <= i < length t)%nat ->
             Qabs (nth (i - 1) (beta_list t) 0) == Qabs (beta_of (rhs t i))).
  { intros i Hi. rewrite beta_list_nth by lia.
    replace (S (i - 1)) with i by lia. reflexivity. }
  assert (Hwr : Qabs (nth kr (beta_list t) 0) == Qabs (beta_of (rhs t (kr + 1)))).
  { rewrite <- (Hw (kr + 1)%nat) by lia.
    replace (kr + 1 - 1)%nat with kr by lia. reflexivity. }
  split.
  - intros (i0 & Hi0 & Hneg0).
    assert (Hrneg : rhs t (kr + 1) < 0).
    { destruct (Hsign (kr + 1)%nat ltac:(lia)) as [Hn | Hp]; [exact Hn |].
      exfalso.
      destruct (Hmax (i0 - 1)%nat ltac:(lia)) as [Hle _].
      rewrite (Hw i0 Hi0), Hwr in Hle.
      rewrite (abs_beta_neg _ Hneg0), (abs_beta_nonneg _ Hp) in Hle.
      apply (Qlt_not_le _ _ Hneg0).
      apply Qopp_le_compat in Hle. rewrite Qopp_involutive in Hle. exact Hle. }
    split; [exact Hrneg |].
    split.
    + intros i Hi. destruct (Hsign i Hi) as [Hn | Hp].
      * destruct (Hmax (i - 1)%nat ltac:(lia)) as [Hle _].
        rewrite (Hw i Hi), Hwr in Hle.
        rewrite (abs_beta_neg _ Hn), (abs_beta_neg _ Hrneg) in Hle.
        apply Qopp_le_compat in Hle. rewrite !Qopp_involutive in Hle. exact Hle.
      * apply Qlt_le_weak. eapply Qlt_le_trans; eassumption.
    + intros i Hi. destruct (Hsign i ltac:(lia)) as [Hn | Hp].
      * destruct (Hmax (i - 1)%nat ltac:(lia)) as [_ Hstrict].
        specialize (Hstrict ltac:(lia)).
        rewrite (Hw i ltac:(lia)), Hwr in Hstrict.
        rewrite (abs_beta_neg _ Hn), (abs_beta_neg _ Hrneg) in Hstrict.
        apply Qopp_lt_compat in Hstrict. rewrite !Qopp_involutive in Hstrict.
        exact Hstrict.
      * eapply Qlt_le_trans; eassumption.
  - intros Hall.
    destruct (Nat.eq_dec (kr + 1) (length t - 1)) as [E | E]; [exact E |].
    exfalso.
    destruct (Hmax (length t - 1 - 1)%nat ltac:(lia)) as [_ Hstrict].
    specialize (Hstrict ltac:(lia)).
    rewrite (Hw (length t - 1)%nat ltac:(lia)), Hwr in Hstrict.
    rewrite (abs_beta_nonneg _ (Hall (length t - 1)%nat ltac:(lia))) in Hstrict.
    rewrite (abs_beta_nonneg _ (Hall (kr + 1)%nat ltac:(lia))) in Hstrict.
    exact (Qlt_irrefl 0 Hstrict).
Qed.

(** A cut leaves a table of at least two rows, none of them empty. *)
Lemma add_clipping_rows (t : table) (basic_vars : list nat)
      (t1 : table) (bv1 : list nat) :
  F.add_clipping t basic_vars = Ok (t1, bv1) ->
  (2 <= length t1)%nat /\
  forall i, (i < length t1)%nat -> nth i t1 [] <> [].
Proof.
  unfold F.add_clipping. intros H.
  destruct (F.find_max_fractional_index t) as [index | e |]; cbn [bind] in H;
    try discriminate H.
  unfold F.add_clipping_from in H.
  destruct (PyList.getitem t 0) as [r0 | e |] eqn:E0; cbn [bind] in H;
    try discriminate H.
  assert (Hl : (1 <= length t)%nat).
  { unfold PyList.getitem in E0.
    destruct (nth_error t 0) eqn:En; [| discriminate E0].
    assert (0 < length t)%nat by (apply nth_error_Some; congruence). lia. }
  destruct (widen_loop (t ++ [repeat (Frac.of_int 0) (length r0)]))
    as (t2 & Hloop & Hl2 & Hw).
  rewrite Hloop in H. cbn [bind] in H. clear Hloop.
  rewrite last_length in Hl2, Hw.
  destruct (PyList.getitem t2 index) as [source | e |]; cbn [bind] in H;
    try discriminate H.
  match type of H with
  | bind ?m _ = _ => destruct m as [t3 | e |] eqn:E3
  end; cbn [bind] in H; try discriminate H.
  injection H as <- _.
  assert (Hs : same_shape t2 t3).
  { refine (for_each_inv_Ok (fun s => same_shape t2 s) _ _ _ _ _ _ E3).
    - apply same_shape_refl.
    - intros s [j coeff] s1 _ Hs Hb.
      destruct (negb (Frac.eqb coeff 0)); [| injection Hb as <-; exact Hs].
      destruct (F.clipping_coeff coeff) as [v | e |]; cbn [bind] in Hb;
        try discriminate Hb.
      apply set_cell_shape in Hb. destruct Hb as [Hb _].
      eapply same_shape_trans; eassumption. }
  destruct Hs as [Hl3 Hr3]. split; [lia |].
  intros i Hi Hempty.
  assert (Hlen : length (nth i t3 []) = 0%nat) by (rewrite Hempty; reflexivity).
  rewrite Hr3, Hw in Hlen.
  rewrite (proj2 (Nat.ltb_lt i (S (length t)))) in Hlen by lia.
  unfold widen in Hlen.
  destruct (i =? S (length t) - 1)%nat;
    rewrite length_insert_before_last in Hlen; discriminate Hlen.
Qed.

Lemma half_integer_raises (hist : PyDict.dict table)
      (bvh : PyDict.dict (list nat)) (step : nat) (w : list string) (k : nat) :
  F.gomory_loop (S k)
    (F.mk_state half_integer_table [0; 0; 1]%nat hist bvh step w)
  = Raise ZeroDivisionError.
Proof. rewrite gomory_loop_unfold. reflexivity. Qed.

Lemma half_integer_solve_raises (k : nat) :
  F.gomory_solve (2 + k) 2 half_integer_constraints half_integer_objective
  = Raise ZeroDivisionError.
Proof.
  assert (E : exists out key key',
             F.simplex_solve 2 2 half_integer_constraints half_integer_objective
             = Ok out /\
             PyDict.last_item (F.out_history out) = Ok (key, half_integer_table) /\
             PyDict.last_item (F.out_basic_vars_history out)
             = Ok (key', [0; 0; 1]%nat)).
  { do 3 eexists. split; [vm_compute; reflexivity |].
    split; vm_compute; reflexivity. }
  destruct E as (out & key & key' & Hs & Hk & Hk').
  unfold F.gomory_solve.
  rewrite (simplex_solve_more 2 k _ _ _ _ Hs). cbn [bind].
  rewrite Hk, Hk'. cbn [bind].
  change (F.check_integer_condition half_integer_table) with (@Ok bool false).
  cbn [bind]. change (2 + k)%nat with (S (S k)).
  rewrite half_integer_raises. reflexivity.
Qed.

(** C6, counterexample: neither half of the statement holds.  Of two rows
    with the same negative right-hand side [get_key_row] returns the later
    one, not the earliest.  And for [max x_1 + x_2] under [x_1 <= 3] and
    [2 x_2 <= 2^61 + 1] the cut leaves no negative right-hand side, yet the
    loop does not stop: the pivot is attempted on the last row and raises
    [ZeroDivisionError], whatever the fuel. *)
Lemma key_row_neither_earliest_nor_stop :
  ~ (exists r, F.get_key_row c6_table = Ok r /\ key_row_as_stated c6_table r) /\
  (exists t1 bv1,
     F.add_clipping (F.st_table half_integer_state)
       (F.st_basic_vars half_integer_state) = Ok (t1, bv1) /\
     (forall i, (1 <= i < length t1)%nat -> 0 <= rhs t1 i) /\
     ~ stops_without_pivot half_integer_state /\
     (forall k, F.gomory_loop (S k) half_integer_state = Raise ZeroDivisionError) /\
     (forall k,
        F.gomory_solve (2 + k) 2 half_integer_constraints half_integer_objective
        = Raise ZeroDivisionError)).
Proof.
  split.
  - intros (r & Hr & _ & _ & _ & Hfirst).
    vm_compute in Hr. injection Hr as <-.
    specialize (Hfirst 1%nat ltac:(lia)).
    vm_compute in Hfirst. discriminate.
  - do 2 eexists. split; [vm_compute; reflexivity |].
    split.
    { intros i Hi. cbn [length] in Hi.
      destruct i as [| [| [| [| i]]]]; try lia; vm_compute; discriminate. }
    split.
    { intros (fuel & st' & H & _). destruct fuel as [| fuel].
      - vm_compute in H. discriminate H.
      - unfold half_integer_state in H. rewrite half_integer_raises in H.
        discriminate H. }
    split.
    { intros k. apply half_integer_raises. }
    exact half_integer_solve_raises.
Qed.

(** C6, amended: at every re-optimization step, that is when the integer
    test fails and the cut is added, [get_key_row] returns a row from 1 on
    of the table with the cut: when some right-hand side is negative, a row
    of most negative right-hand side and the last such row; when none is
    negative, the last row of the table.  Nothing stops the step in either
    case: the loop goes on to [get_key_column] and [simplex_step] on that
    row and ends as they end.  When the cut itself raises, so does the
    loop. *)
Theorem gomory_step_key_row (st : F.solver_state) (fuel : nat)
    (Hc : F.check_integer_condition (F.st_table st) = Ok false) :
  (forall e,
     F.add_clipping (F.st_table st) (F.st_basic_vars st) = Raise e ->
     F.gomory_loop (S fuel) st = Raise e) /\
  (forall t1 bv1,
     F.add_clipping (F.st_table st) (F.st_basic_vars st) = Ok (t1, bv1) ->
     exists r,
       F.get_key_row t1 = Ok r /\ (1 <= r < length t1)%nat /\
       ((exists i, (1 <= i < length t1)%nat /\ rhs t1 i < 0) ->
        rhs t1 r < 0 /\
        (forall i, (1 <= i < length t1)%nat -> rhs t1 r <= rhs t1 i) /\
        (forall i, (r < i < length t1)%nat -> rhs t1 r < rhs t1 i)) /\
       ((forall i, (1 <= i < length t1)%nat -> 0 <= rhs t1 i) ->
        r = (length t1 - 1)%nat) /\
       F.gomory_loop (S fuel) st =
       (key_column <- F.get_key_column t1 r ;;
        '(t2, bv2) <- F.simplex_step t1 bv1 key_column r ;;
        let label := ("Gomory method step " ++ PyStr.str (F.st_step st))%string in
        F.gomory_loop fuel
          (F.mk_state t2 bv2
             (PyDict.set (F.st_history st) label t2)
             (PyDict.set (F.st_basic_vars_history st) label bv2)
             (F.st_step st + 1)
             (F.st_warnings st)))).
Proof.
  split.
  - intros e He. rewrite gomory_loop_unfold, Hc. cbn [bind negb].
    rewrite He. reflexivity.
  - intros t1 bv1 Hcut.
    destruct (add_clipping_rows _ _ _ _ Hcut) as [Hrows Hne].
    destruct (get_key_row_rule t1 Hrows (fun i Hi => Hne i ltac:(lia)))
      as (r & Hr & Hrange & Hneg & Hnone).
    exists r. split; [exact Hr |]. split; [exact Hrange |].
    split; [exact Hneg |]. split; [exact Hnone |].
    rewrite gomory_loop_unfold, Hc. cbn [bind negb].
    rewrite Hcut. cbn [bind]. rewrite Hr. reflexivity.
Qed.

Lemma gomory_step_key_row_witness :
  F.check_integer_condition (F.st_table main_cut_state) = Ok false /\
  (exists t1 bv1,
     F.add_clipping (F.st_table main_cut_state) (F.st_basic_vars main_cut_state)
     = Ok (t1, bv1) /\
     F.get_key_row t1 = Ok 3%nat /\ rhs t1 3 < 0) /\
  (forall e,
     F.add_clipping (F.st_table main_cut_state) (F.st_basic_vars main_cut_state)
     = Raise e ->
     F.gomory_loop 6 main_cut_state = Raise e) /\
  (forall t1 bv1,
     F.add_clipping (F.st_table main_cut_state) (F.st_basic_vars main_cut_state)
     = Ok (t1, bv1) ->
     exists r,
       F.get_key_row t1 = Ok r /\ (1 <= r < length t1)%nat /\
       ((exists i, (1 <= i < length t1)%nat /\ rhs t1 i < 0) ->
        rhs t1 r < 0 /\
        (forall i, (1 <= i < length t1)%nat -> rhs t1 r <= rhs t1 i) /\
        (forall i, (r < i < length t1)%nat -> rhs t1 r < rhs t1 i)) /\
       ((forall i, (1 <= i < length t1)%nat -> 0 <= rhs t1 i) ->
        r = (length t1 - 1)%nat) /\
       F.gomory_loop 6 main_cut_state =
       (key_column <- F.get_key_column t1 r ;;
        '(t2, bv2) <- F.simplex_step t1 bv1 key_column r ;;
        let label :=
          ("Gomory method step " ++ PyStr.str (F.st_step main_cut_state))%string in
        F.gomory_loop 5
          (F.mk_state t2 bv2
             (PyDict.set (F.st_history main_cut_state) label t2)
             (PyDict.set (F.st_basic_vars_history main_cut_state) label bv2)
             (F.st_step main_cut_state + 1)
             (F.st_warnings main_cut_state)))).
Proof.
  split; [vm_compute; reflexivity |].
  split.
  { do 2 eexists. split; [vm_compute; reflexivity |].
    split; vm_compute; reflexivity. }
  apply (gomory_step_key_row main_cut_state 5).
  vm_compute. reflexivity.
Defined.

(** ** The shapes of the result of [gomory_solve] *)

Lemma negative_rhs_relaxation (k : nat) :
  F.simplex_solve k 1 negative_rhs_constraints negative_rhs_objective
  = Ok negative_rhs_output.
Proof.
  apply (simplex_solve_more 0 k). vm_compute. reflexivity.
Qed.

Lemma negative_rhs_not_integral :
  F.check_integer_condition negative_rhs_table = Ok false.
Proof. vm_compute. reflexivity. Qed.

Lemma negative_rhs_raises (k : nat) :
  F.gomory_solve (S k) 1 negative_rhs_constraints negative_rhs_objective
  = Raise ZeroDivisionError.
Proof.
  unfold F.gomory_solve. rewrite negative_rhs_relaxation. cbn [bind].
  change (PyDict.last_item (F.out_history negative_rhs_output))
    with (@Ok (string * table) ("Initial Simplex-method"%string, negative_rhs_table)).
  change (PyDict.last_item (F.out_basic_vars_history negative_rhs_output))
    with (@Ok (string * list nat) ("Initial Simplex-method"%string, [0; 1; 2]%nat)).
  cbn [bind]. rewrite negative_rhs_not_integral. cbn [bind].
  rewrite gomory_loop_unfold. reflexivity.
Qed.

Lemma negative_rhs_no_fuel :
  F.gomory_solve 0 1 negative_rhs_constraints negative_rhs_objective = OutOfFuel.
Proof. vm_compute. reflexivity. Qed.

(** C10, counterexample: for [min x_1] under [x_1 <= -1] and [x_1 <= 5]
    the table on which [simplex_solve] ends fails the integer test, so this
    is one of the other cases, and [gomory_solve] returns no four values,
    whatever the fuel: the first pivot of the cut loop raises
    [ZeroDivisionError].  The caller fails although the relaxation is not
    integral. *)
Lemma tuple_size_not_always_four :
  ~ relaxation_integral 1 negative_rhs_constraints negative_rhs_objective /\
  ~ returns_four 1 negative_rhs_constraints negative_rhs_objective /\
  caller_fails 1 negative_rhs_constraints negative_rhs_objective /\
  ~ tuple_size_as_stated 1 negative_rhs_constraints negative_rhs_objective.
Proof.
  assert (Hnot : ~ relaxation_integral 1 negative_rhs_constraints
                     negative_rhs_objective).
  { intros (fuel & out & key & t & Hs & Hk & Hc).
    rewrite negative_rhs_relaxation in Hs. injection Hs as <-.
    vm_compute in Hk. injection Hk as _ <-.
    vm_compute in Hc. discriminate Hc. }
  assert (Hfour : ~ returns_four 1 negative_rhs_constraints
                      negative_rhs_objective).
  { intros (fuel & a & b & c & d & w & H). destruct fuel as [| fuel].
    - rewrite negative_rhs_no_fuel in H. discriminate H.
    - rewrite negative_rhs_raises in H. discriminate H. }
  split; [exact Hnot |]. split; [exact Hfour |]. split.
  - exists 1%nat, ZeroDivisionError. unfold unpack_four.
    rewrite negative_rhs_raises. reflexivity.
  - intros (_ & Hother & _). exact (Hfour (Hother Hnot)).
Qed.

(** C10, amended: when the table on which [simplex_solve] ends satisfies the
    integer test, [gomory_solve] returns the two values (optimum, solution)
    of [simplex_solve], and a caller that unpacks four values raises
    [ValueError].  When it fails the test, [gomory_solve] returns no two
    values: whatever it returns has four values, the optimum and the plan
    read from a final table that satisfies the integer test and that the
    history holds, and unpacks; and when [gomory_solve] raises, so does the
    caller.  Both happen: on the input of main.py four values are returned
    with any fuel from 6 on, and for [min x_1] under [x_1 <= -1] and
    [x_1 <= 5] the call raises [ZeroDivisionError] with any fuel from 1
    on. *)
Theorem gomory_solve_tuple_size
    (fuel num_vars : nat) (constraints : list string)
    (objective_function : string * string) (out : F.solve_output)
    (H : F.simplex_solve fuel num_vars constraints objective_function = Ok out) :
  (exists key t,
     PyDict.last_item (F.out_history out) = Ok (key, t) /\
     F.check_condition t = Ok true /\
     cell_last t 0 = Ok (F.optimum out) /\
     (F.check_integer_condition t = Ok true ->
      F.gomory_solve fuel num_vars constraints objective_function
      = Ok (F.Return2 (F.optimum out) (F.optimal_plane out), F.out_warnings out) /\
      unpack_four fuel num_vars constraints objective_function
      = Raise (ValueError "not enough values to unpack (expected 4, got 2)")) /\
     (F.check_integer_condition t = Ok false ->
      (forall ret w,
         F.gomory_solve fuel num_vars constraints objective_function = Ok (ret, w) ->
         exists a plan hist bvh t_final bv_final,
           ret = F.Return4 a plan hist bvh /\
           unpack_four fuel num_vars constraints objective_function = Ok (a, plan, hist, bvh) /\
           F.check_integer_condition t_final = Ok true /\
           cell_last t_final 0 = Ok a /\
           F.create_solution t_final bv_final num_vars = Ok plan /\
           PyDict.get hist key = Some t_final) /\
      (forall e,
         F.gomory_solve fuel num_vars constraints objective_function = Raise e ->
         unpack_four fuel num_vars constraints objective_function = Raise e))) /\
  (forall k, exists hist bvh,
     F.gomory_solve (6 + k) Main.num_vars Main.constraints Main.objective_function
     = Ok (F.Return4 (-36 # 1) [("x_2"%string, 2 # 1); ("x_1"%string, 3 # 1)]
             hist bvh, []) /\
     unpack_four (6 + k) Main.num_vars Main.constraints Main.objective_function
     = Ok (-36 # 1, [("x_2"%string, 2 # 1); ("x_1"%string, 3 # 1)], hist, bvh)) /\
  (forall k,
     F.gomory_solve (S k) 1 negative_rhs_constraints negative_rhs_objective
     = Raise ZeroDivisionError /\
     unpack_four (S k) 1 negative_rhs_constraints negative_rhs_objective
     = Raise ZeroDivisionError).
Proof.
  split; [| split].
  - destruct (simplex_solve_last _ _ _ _ _ H)
      as (key & t & key' & bv & Hk & Hk' & Hc & Hv & _).
    exists key, t. repeat (split; [assumption |]).
    unfold unpack_four, F.gomory_solve. rewrite H. cbn [bind].
    rewrite Hk, Hk'. cbn [bind].
    split; intros Hi; rewrite Hi; cbn [bind].
    + rewrite Hv. cbn [bind]. split; reflexivity.
    + split.
      * intros ret w Hg.
        destruct (F.gomory_loop fuel _) as [st | e |] eqn:El;
          cbn [bind] in Hg |- *; try discriminate Hg.
        destruct (cell_last (F.st_table st) 0) as [v | e |] eqn:Ev;
          cbn [bind] in Hg |- *; try discriminate Hg.
        destruct (F.create_solution (F.st_table st) (F.st_basic_vars st) num_vars)
          as [plane | e |] eqn:Ep; cbn [bind] in Hg |- *; try discriminate Hg.
        injection Hg as <- <-.
        do 4 eexists. exists (F.st_table st), (F.st_basic_vars st).
        split; [reflexivity |]. split; [reflexivity |].
        split; [exact (gomory_loop_exit _ _ _ El) |].
        split; [exact Ev |]. split; [exact Ep |].
        rewrite dict_get_set, String.eqb_refl. reflexivity.
      * intros e Hg. rewrite Hg. reflexivity.
  - intros k. destruct main_integer as (hist & bvh & Hrun).
    exists hist, bvh.
    pose proof (gomory_solve_more 6 k _ _ _ _ Hrun) as E.
    split; [exact E |]. unfold unpack_four. rewrite E. reflexivity.
  - intros k. split; [apply negative_rhs_raises |].
    unfold unpack_four. rewrite negative_rhs_raises. reflexivity.
Qed.

Lemma gomory_solve_tuple_size_witness :
  (exists out,
     F.simplex_solve 20 Main.num_vars Main.constraints Main.objective_function
     = Ok out /\
     ((exists key t,
          PyDict.last_item (F.out_history out) = Ok (key, t) /\
          F.check_condition t = Ok true /\
          cell_last t 0 = Ok (F.optimum out) /\
          (F.check_integer_condition t = Ok true ->
           F.gomory_solve 20 Main.num_vars Main.constraints Main.objective_function
           = Ok (F.Return2 (F.optimum out) (F.optimal_plane out), F.out_warnings out) /\
           unpack_four 20 Main.num_vars Main.constraints Main.objective_function
           = Raise (ValueError "not enough values to unpack (expected 4, got 2)")) /\
          (F.check_integer_condition t = Ok false ->
           (forall ret w,
              F.gomory_solve 20 Main.num_vars Main.constraints Main.objective_function = Ok (ret, w) ->
              exists a plan hist bvh t_final bv_final,
                ret = F.Return4 a plan hist bvh /\
                unpack_four 20 Main.num_vars Main.constraints Main.objective_function = Ok (a, plan, hist, bvh) /\
                F.check_integer_condition t_final = Ok true /\
                cell_last t_final 0 = Ok a /\
                F.create_solution t_final bv_final Main.num_vars = Ok plan /\
                PyDict.get hist key = Some t_final) /\
           (forall e,
              F.gomory_solve 20 Main.num_vars Main.constraints Main.objective_function = Raise e ->
              unpack_four 20 Main.num_vars Main.constraints Main.objective_function = Raise e))) /\
       (forall k, exists hist bvh,
          F.gomory_solve (6 + k) Main.num_vars Main.constraints Main.objective_function
          = Ok (F.Return4 (-36 # 1) [("x_2"%string, 2 # 1); ("x_1"%string, 3 # 1)]
                  hist bvh, []) /\
          unpack_four (6 + k) Main.num_vars Main.constraints Main.objective_function
          = Ok (-36 # 1, [("x_2"%string, 2 # 1); ("x_1"%string, 3 # 1)], hist, bvh)) /\
       (forall k,
          F.gomory_solve (S k) 1 negative_rhs_constraints negative_rhs_objective
          = Raise ZeroDivisionError /\
          unpack_four (S k) 1 negative_rhs_constraints negative_rhs_objective
          = Raise ZeroDivisionError))) /\
  (exists out,
     F.simplex_solve 1 1 c4_constraints c4_objective = Ok out /\
     ((exists key t,
          PyDict.last_item (F.out_history out) = Ok (key, t) /\
          F.check_condition t = Ok true /\
          cell_last t 0 = Ok (F.optimum out) /\
          (F.check_integer_condition t = Ok true ->
           F.gomory_solve 1 1 c4_constraints c4_objective
           = Ok (F.Return2 (F.optimum out) (F.optimal_plane out), F.out_warnings out) /\
           unpack_four 1 1 c4_constraints c4_objective
           = Raise (ValueError "not enough values to unpack (expected 4, got 2)")) /\
          (F.check_integer_condition t = Ok false ->
           (forall ret w,
              F.gomory_solve 1 1 c4_constraints c4_objective = Ok (ret, w) ->
              exists a plan hist bvh t_final bv_final,
                ret = F.Return4 a plan hist bvh /\
                unpack_four 1 1 c4_constraints c4_objective = Ok (a, plan, hist, bvh) /\
                F.check_integer_condition t_final = Ok true /\
                cell_last t_final 0 = Ok a /\
                F.create_solution t_final bv_final 1 = Ok plan /\
                PyDict.get hist key = Some t_final) /\
           (forall e,
              F.gomory_solve 1 1 c4_constraints c4_objective = Raise e ->
              unpack_four 1 1 c4_constraints c4_objective = Raise e))) /\
       (forall k, exists hist bvh,
          F.gomory_solve (6 + k) Main.num_vars Main.constraints Main.objective_function
          = Ok (F.Return4 (-36 # 1) [("x_2"%string, 2 # 1); ("x_1"%string, 3 # 1)]
                  hist bvh, []) /\
          unpack_four (6 + k) Main.num_vars Main.constraints Main.objective_function
          = Ok (-36 # 1, [("x_2"%string, 2 # 1); ("x_1"%string, 3 # 1)], hist, bvh)) /\
       (forall k,
          F.gomory_solve (S k) 1 negative_rhs_constraints negative_rhs_objective
          = Raise ZeroDivisionError /\
          unpack_four (S k) 1 negative_rhs_constraints negative_rhs_objective
          = Raise ZeroDivisionError))).
Proof.
  split.
  - assert (E : exists out,
               F.simplex_solve 20 Main.num_vars Main.constraints
                 Main.objective_function = Ok out)
      by (eexists; vm_compute; reflexivity).
    destruct E as [out E]. exists out. split; [exact E |].
    exact (gomory_solve_tuple_size 20 Main.num_vars Main.constraints
             Main.objective_function out E).
  - assert (E : exists out, F.simplex_solve 1 1 c4_constraints c4_objective = Ok out)
      by (eexists; vm_compute; reflexivity).
    destruct E as [out E]. exists out. split; [exact E |].
    exact (gomory_solve_tuple_size 1 1 c4_constraints c4_objective out E).
Defined.
